(** * Pong: a shallow embedding of [pong.py] and its specification

    The program is a two-paddle Pong clone written with Pygame.  This file
    embeds its simulation core -- [Paddle], [Ball], [AIPaddleController] and
    one pass of the loop of [main] -- and proves the properties its
    specification states about them.

    Modelling conventions.

    - Python [int] values (rectangle coordinates, scores, millisecond
      timestamps) are [Z].
    - Python [float] values (velocities, the speed scalar, the AI target) are
      real numbers [R]: arithmetic is exact, [math.cos], [math.sin] and
      [math.pi] are [cos], [sin] and [PI].  Rounding error of binary floating
      point is outside the model.
    - [pygame.Rect] is a record of four integers with the derived attributes
      the program reads and assigns.  It is modelled at two levels.  The
      modules [Rect], [Paddle], [Ball], [AIPaddleController] and [Game] read
      the code over ideal, unbounded coordinates.  The modules [CRect],
      [CPaddle], [CBall] and [CAIPaddleController] read the same statements
      over the C ints a [pygame.Rect] stores: an assignment out of the
      range of a C [int] raises [TypeError], and derived attributes wrap
      around.  Every property names the level it is stated at by the
      methods it mentions; the lemmas [cmove_in_range], [cupdate_ideal]
      and [cai_update_ideal] prove that the two levels agree on objects far
      from the ends of that range.
    - Methods mutate [self]: they are computations in a state-and-exception
      monad over the object they mutate.  The exceptions the core can raise
      are [ZeroDivisionError] (a paddle of height 0 in
      [_bounce_off_paddle]) and, on C ints, [TypeError].
    - Randomness and time are inputs: every call of [random.uniform],
      [random.choice], [random.gauss] and [pygame.time.get_ticks] takes the
      underlying draw as an argument. *)

From Stdlib Require Import Reals ZArith Bool List Lra Lia.
Import ListNotations.

Open Scope Z_scope.

(* ================================================================== *)
(** ** State and exceptions *)

Inductive exn : Type := ZeroDivisionError | TypeError.

(** A computation over a mutable object of type [S]: it returns a value or
    raises, and in both cases leaves a (possibly mutated) object behind. *)
Definition M (S A : Type) : Type := S -> (exn + A) * S.

Definition ret {S A : Type} (a : A) : M S A := fun s => (inr a, s).

Definition bind {S A B : Type} (m : M S A) (f : A -> M S B) : M S B :=
  fun s =>
    match m s with
    | (inr a, s') => f a s'
    | (inl e, s') => (inl e, s')
    end.

Definition get {S : Type} : M S S := fun s => (inr s, s).
Definition modify {S : Type} (f : S -> S) : M S unit := fun s => (inr tt, f s).
Definition raise {S A : Type} (e : exn) : M S A := fun s => (inl e, s).

(** The object left behind by a computation, whether it returned or raised. *)
Definition exec {S A : Type} (m : M S A) (s : S) : S := snd (m s).
(** The outcome of a computation. *)
Definition outcome {S A : Type} (m : M S A) (s : S) : exn + A := fst (m s).

Declare Scope monad_scope.
Delimit Scope monad_scope with monad.
Notation "x <- m ;; k" := (bind m (fun x => k))
  (at level 61, m at next level, right associativity) : monad_scope.
Notation "m ;; k" := (bind m (fun _ => k))
  (at level 61, right associativity) : monad_scope.
Open Scope monad_scope.

(* ================================================================== *)
(** ** Python numerics *)

Definition Rltb (a b : R) : bool := if Rlt_dec a b then true else false.
Definition Rgtb (a b : R) : bool := Rltb b a.

(** [int(x)] on a float: truncation toward zero. *)
Definition py_int (r : R) : Z :=
  if Rle_dec 0 r then Int_part r else - Int_part (- r).

(** [a / b] on floats: raises [ZeroDivisionError] when [b] is zero. *)
Definition py_div {S : Type} (a b : R) : M S R :=
  if Req_dec_T b 0 then raise ZeroDivisionError else ret (a / b)%R.

(** [random.uniform(a, b)] is [a + (b - a) * random()], where [random()] is
    a draw [u] from [[0, 1)]. *)
Definition uniform (a b u : R) : R := (a + (b - a) * u)%R.

(** [random.gauss(mu, sigma)] is [mu + z * sigma], where [z] is a draw from
    the standard normal distribution. *)
Definition gauss (mu sigma z : R) : R := (mu + z * sigma)%R.

(* ================================================================== *)
(** ** Configuration and constants *)

Definition WIDTH : Z := 800.
Definition HEIGHT : Z := 600.

Definition PADDLE_WIDTH : Z := 12.
Definition PADDLE_HEIGHT : Z := 100.
Definition PADDLE_SPEED : Z := 7.
Definition AI_PADDLE_SPEED : Z := 6.
Definition BALL_SIZE : Z := 12.
Definition BALL_SPEED_INITIAL : R := 6.0.
Definition BALL_SPEED_MAX : R := 12.0.
Definition BALL_SPEED_INCREMENT : R := 0.35.

(* ================================================================== *)
(** ** pygame.Rect *)

Module Rect.

Record t : Type := mk { x : Z; y : Z; w : Z; h : Z }.

Definition left (r : t) : Z := x r.
Definition top (r : t) : Z := y r.
Definition right (r : t) : Z := x r + w r.
Definition bottom (r : t) : Z := y r + h r.
Definition height (r : t) : Z := h r.
(** Pygame computes centres with a right shift of the size. *)
Definition centerx (r : t) : Z := x r + Z.shiftr (w r) 1.
Definition centery (r : t) : Z := y r + Z.shiftr (h r) 1.

Definition set_x (v : Z) (r : t) : t := mk v (y r) (w r) (h r).
Definition set_y (v : Z) (r : t) : t := mk (x r) v (w r) (h r).

Definition set_left (v : Z) (r : t) : t := set_x v r.
Definition set_top (v : Z) (r : t) : t := set_y v r.
Definition set_right (v : Z) (r : t) : t := set_x (v - w r) r.
Definition set_bottom (v : Z) (r : t) : t := set_y (v - h r) r.
Definition set_center (c : Z * Z) (r : t) : t :=
  mk (fst c - Z.shiftr (w r) 1) (snd c - Z.shiftr (h r) 1) (w r) (h r).

(** [a.colliderect(b)]: the rectangles overlap; edges that only touch do
    not count, and a rectangle of zero width or height collides with
    nothing. *)
Definition colliderect (a b : t) : bool :=
  if (w a =? 0) || (h a =? 0) || (w b =? 0) || (h b =? 0) then false
  else
    (Z.min (x a) (x a + w a) <? Z.max (x b) (x b + w b))
    && (Z.min (y a) (y a + h a) <? Z.max (y b) (y b + h b))
    && (Z.max (x a) (x a + w a) >? Z.min (x b) (x b + w b))
    && (Z.max (y a) (y a + h a) >? Z.min (y b) (y b + h b)).

End Rect.

(* ================================================================== *)
(** ** Paddle *)

Module Paddle.

Record t : Type := mk { rect : Rect.t; speed : Z }.

Definition with_rect (f : Rect.t -> Rect.t) (p : t) : t :=
  mk (f (rect p)) (speed p).

(** The dataclass constructor: it stores its arguments. *)
Definition __init__ (rect : Rect.t) (speed : Z) : exn + t :=
  inr (mk rect speed).

Definition clamp_to_screen : M t unit :=
  self <- get ;;
  (if Rect.top (rect self) <? 0
   then modify (with_rect (Rect.set_top 0))
   else ret tt) ;;
  self <- get ;;
  (if Rect.bottom (rect self) >? HEIGHT
   then modify (with_rect (Rect.set_bottom HEIGHT))
   else ret tt).

Definition move (dy : R) : M t unit :=
  modify (with_rect (fun r => Rect.set_y (Rect.y r + py_int dy) r)) ;;
  clamp_to_screen.

End Paddle.

(* ================================================================== *)
(** ** Ball *)

Module Ball.

Record t : Type := mk { rect : Rect.t; vx : R; vy : R; speed : R }.

Definition with_rect (f : Rect.t -> Rect.t) (b : t) : t :=
  mk (f (rect b)) (vx b) (vy b) (speed b).
Definition set_vx (v : R) (b : t) : t := mk (rect b) v (vy b) (speed b).
Definition set_vy (v : R) (b : t) : t := mk (rect b) (vx b) v (speed b).
Definition set_speed (v : R) (b : t) : t := mk (rect b) (vx b) (vy b) v.

(** The launch angle [random.uniform(-0.35 * math.pi, 0.35 * math.pi)] of
    the constructor and of [reset], for the draw [u]. *)
Definition launch_angle (u : R) : R := uniform (-0.35 * PI) (0.35 * PI) u.

(** [Ball(rect, speed)].  [u] is the draw behind [random.uniform] and
    [direction] the result of [random.choice([-1, 1])]. *)
Definition __init__ (rect : Rect.t) (speed : R) (u : R) (direction : Z)
  : exn + t :=
  let angle := launch_angle u in
  inr (mk rect
          (cos angle * speed * IZR direction)
          (sin angle * speed)
          speed).

Definition reset (direction : Z) (u : R) : M t unit :=
  modify (with_rect (Rect.set_center (WIDTH / 2, HEIGHT / 2))) ;;
  let angle := launch_angle u in
  modify (set_speed BALL_SPEED_INITIAL) ;;
  self <- get ;;
  modify (set_vx (cos angle * speed self * IZR direction)) ;;
  self <- get ;;
  modify (set_vy (sin angle * speed self)).

(** The impact offset of [_bounce_off_paddle], clamped to [[-1, 1]]. *)
Definition clamp_offset (offset : R) : R := Rmax (-1.0) (Rmin 1.0 offset).

(** The bounce angle for a clamped impact offset: up to about 81 degrees. *)
Definition bounce_angle (offset : R) : R := (offset * (0.45 * PI))%R.

Definition _bounce_off_paddle (paddle : Paddle.t) (is_right : bool)
  : M t unit :=
  (* Push ball outside the paddle to avoid sticking *)
  (if is_right
   then modify (with_rect (Rect.set_right (Rect.left (Paddle.rect paddle))))
   else modify (with_rect (Rect.set_left (Rect.right (Paddle.rect paddle))))) ;;
  (* Compute bounce angle based on impact point *)
  self <- get ;;
  let paddle_center_y := Rect.centery (Paddle.rect paddle) in
  let ball_center_y := Rect.centery (rect self) in
  offset <- py_div (IZR (ball_center_y - paddle_center_y))
                   (IZR (Rect.height (Paddle.rect paddle)) / 2) ;;
  let offset := clamp_offset offset in
  (* Increase speed slightly up to max *)
  modify (fun self =>
            set_speed (Rmin BALL_SPEED_MAX (speed self + BALL_SPEED_INCREMENT))
                      self) ;;
  (* New direction: reflect x, adjust y based on offset *)
  let angle := bounce_angle offset in
  let direction := if is_right then -1 else 1 in
  self <- get ;;
  modify (set_vx (cos angle * speed self * IZR direction)) ;;
  self <- get ;;
  modify (set_vy (sin angle * speed self)).

(** The first three steps of [update]: move, bounce off the top and bottom
    of the screen, bounce off a paddle. *)
Definition advance (left right : Paddle.t) : M t unit :=
  (* Move ball *)
  modify (fun self =>
            with_rect (fun r => Rect.set_x (Rect.x r + py_int (vx self)) r)
                      self) ;;
  modify (fun self =>
            with_rect (fun r => Rect.set_y (Rect.y r + py_int (vy self)) r)
                      self) ;;
  (* Screen bounds (top/bottom) *)
  self <- get ;;
  (if Rect.top (rect self) <=? 0 then
     modify (with_rect (Rect.set_top 0)) ;;
     modify (fun self => set_vy (vy self * -1) self)
   else if Rect.bottom (rect self) >=? HEIGHT then
     modify (with_rect (Rect.set_bottom HEIGHT)) ;;
     modify (fun self => set_vy (vy self * -1) self)
   else ret tt) ;;
  (* Paddle collisions *)
  self <- get ;;
  (if Rect.colliderect (rect self) (Paddle.rect left) && Rltb (vx self) 0
   then _bounce_off_paddle left false
   else if Rect.colliderect (rect self) (Paddle.rect right)
           && Rgtb (vx self) 0
   then _bounce_off_paddle right true
   else ret tt).

(** The last step of [update]: scoring, with the score deltas it returns.
    [u] is the draw [reset] uses when a goal is scored. *)
Definition scoring (u : R) : M t (Z * Z) :=
  self <- get ;;
  if Rect.right (rect self) <? 0 then
    reset (-1) u ;;
    ret (0, 1)
  else if Rect.left (rect self) >? WIDTH then
    reset 1 u ;;
    ret (1, 0)
  else ret (0, 0).

(** Update position, handle collisions, and return score delta (l, r). *)
Definition update (left right : Paddle.t) (u : R) : M t (Z * Z) :=
  advance left right ;;
  scoring u.

End Ball.

(* ================================================================== *)
(** ** AIPaddleController *)

Module AIPaddleController.

(** The controller's own fields.  [self.paddle] and [self.ball] are
    references to objects owned by [main]: [update] runs on the pair of the
    controller and the paddle it drives, and reads the ball. *)
Record t : Type := mk {
  update_interval_ms : Z;
  last_update_time : Z;
  target_center_y : R;
  center_bias : R
}.

Definition set_last_update_time (v : Z) (a : t) : t :=
  mk (update_interval_ms a) v (target_center_y a) (center_bias a).
Definition set_target_center_y (v : R) (a : t) : t :=
  mk (update_interval_ms a) (last_update_time a) v (center_bias a).

Definition __init__ : t :=
  mk 120              (* reaction delay *)
     0
     (IZR (HEIGHT / 2))
     0.15.            (* tendency to drift back to center *)

Definition on_self (f : t -> t) : M (t * Paddle.t) unit :=
  modify (fun s => (f (fst s), snd s)).

Definition on_paddle {A : Type} (m : M Paddle.t A) : M (t * Paddle.t) A :=
  fun s => let (o, p) := m (snd s) in (o, (fst s, p)).

(** Standard deviation of the aiming error while the ball approaches. *)
Definition aim_sigma (ball : Ball.t) : R :=
  let distance_x := Z.max 1 (WIDTH - Rect.centerx (Ball.rect ball)) in
  let speed_factor := Rmax 1.0 (Rabs (Ball.vx ball)) in
  Rmin 80.0 (8.0 + (IZR distance_x / 20.0) + (speed_factor * 1.2)).

(** The bounded step toward the target. *)
Definition limited_step (paddle : Paddle.t) (dy : R) : R :=
  if Rgtb (Rabs dy) (IZR (Paddle.speed paddle))
  then (if Rgtb dy 0 then IZR AI_PADDLE_SPEED else IZR (- AI_PADDLE_SPEED))
  else dy.

(** [update()].  [now] is the value of [pygame.time.get_ticks()] and [z]
    the draw behind the one call of [random.gauss]. *)
Definition update (now : Z) (z : R) (ball : Ball.t)
  : M (t * Paddle.t) unit :=
  s <- get ;;
  let should_update :=
    now - last_update_time (fst s) >=? update_interval_ms (fst s) in
  (* Determine if ball is moving towards AI (right side) *)
  let ball_towards_ai := Rgtb (Ball.vx ball) 0 in
  (if should_update then
     on_self (set_last_update_time now) ;;
     if ball_towards_ai then
       let sigma := aim_sigma ball in
       let noise := gauss 0.0 sigma z in
       on_self (set_target_center_y
                  (IZR (Rect.centery (Ball.rect ball)) + noise))
     else
       (* drift target back to center with some noise *)
       let noise := gauss 0.0 25.0 z in
       on_self (fun self =>
                  set_target_center_y
                    ((1 - center_bias self) * target_center_y self
                     + center_bias self * (IZR HEIGHT / 2 + noise))
                    self)
   else ret tt) ;;
  (* Move towards target with limited speed *)
  s <- get ;;
  let dy :=
    (target_center_y (fst s) - IZR (Rect.centery (Paddle.rect (snd s))))%R in
  on_paddle (Paddle.move (limited_step (snd s) dy)).

End AIPaddleController.

(* ================================================================== *)
(** ** main: the entities and one pass of the game loop *)

Module Game.

Record World : Type := mkWorld {
  left_paddle : Paddle.t;
  right_paddle : Paddle.t;
  ball : Ball.t;
  ai : AIPaddleController.t;
  score_left : Z;
  score_right : Z
}.

(** What one pass of the loop reads from outside: the W and S keys, the
    clock, and the draws of the random generator. *)
Record Frame : Type := mkFrame {
  key_w : bool;
  key_s : bool;
  serve_draw : R;
  ticks : Z;
  aim_draw : R
}.

Definition on_left_paddle {A : Type} (m : M Paddle.t A) : M World A :=
  fun w =>
    let (o, p) := m (left_paddle w) in
    (o, mkWorld p (right_paddle w) (ball w) (ai w)
                (score_left w) (score_right w)).

Definition on_ball {A : Type} (m : M Ball.t A) : M World A :=
  fun w =>
    let (o, b) := m (ball w) in
    (o, mkWorld (left_paddle w) (right_paddle w) b (ai w)
                (score_left w) (score_right w)).

Definition on_ai {A : Type} (m : M (AIPaddleController.t * Paddle.t) A)
  : M World A :=
  fun w =>
    let (o, s) := m (ai w, right_paddle w) in
    (o, mkWorld (left_paddle w) (snd s) (ball w) (fst s)
                (score_left w) (score_right w)).

Definition add_scores (l r : Z) : M World unit :=
  modify (fun w =>
            mkWorld (left_paddle w) (right_paddle w) (ball w) (ai w)
                    (score_left w + l) (score_right w + r)).

(** The entities [main] creates before the loop.  [u] and [direction] are
    the draws of the ball's constructor.  A constructor that raises ends
    the program. *)
Definition setup (u : R) (direction : Z) : exn + World :=
  match Paddle.__init__
          (Rect.mk 32 (HEIGHT / 2 - PADDLE_HEIGHT / 2)
                   PADDLE_WIDTH PADDLE_HEIGHT)
          PADDLE_SPEED with
  | inl e => inl e
  | inr left_paddle =>
  match Paddle.__init__
          (Rect.mk (WIDTH - 32 - PADDLE_WIDTH)
                   (HEIGHT / 2 - PADDLE_HEIGHT / 2)
                   PADDLE_WIDTH PADDLE_HEIGHT)
          AI_PADDLE_SPEED with
  | inl e => inl e
  | inr right_paddle =>
  match Ball.__init__
          (Rect.mk (WIDTH / 2 - BALL_SIZE / 2) (HEIGHT / 2 - BALL_SIZE / 2)
                   BALL_SIZE BALL_SIZE)
          BALL_SPEED_INITIAL u direction with
  | inl e => inl e
  | inr ball =>
      inr (mkWorld left_paddle right_paddle ball
                   AIPaddleController.__init__ 0 0)
  end end end.

(** The body of the game loop, without events and rendering. *)
Definition frame (i : Frame) : M World unit :=
  (* Input - player left paddle (W/S) *)
  let dy := 0 in
  let dy := if key_w i then dy - PADDLE_SPEED else dy in
  let dy := if key_s i then dy + PADDLE_SPEED else dy in
  (if negb (dy =? 0) then on_left_paddle (Paddle.move (IZR dy)) else ret tt) ;;
  (* Update entities *)
  w <- get ;;
  lr <- on_ball (Ball.update (left_paddle w) (right_paddle w) (serve_draw i)) ;;
  add_scores (fst lr) (snd lr) ;;
  w <- get ;;
  on_ai (AIPaddleController.update (ticks i) (aim_draw i) (ball w)).

(** The world after a run of frames; a frame that raises ends the run. *)
Fixpoint run (frames : list Frame) (w : World) : (exn + unit) * World :=
  match frames with
  | [] => (inr tt, w)
  | i :: rest =>
      match frame i w with
      | (inr _, w') => run rest w'
      | (inl e, w') => (inl e, w')
      end
  end.

End Game.

(* ================================================================== *)
(** * The same methods on C ints

    Pygame stores the four coordinates of a rectangle as C [int]s.
    Assigning a Python integer outside the range of a C [int] to a
    coordinate raises [TypeError] and changes nothing; the derived
    attributes [right], [bottom], [centerx] and [centery], and the
    assignments to [right], [bottom] and [center], are computed in C and
    wrap around.  The modules [Rect], [Paddle], [Ball] and
    [AIPaddleController] above are the methods on ideal, unbounded
    coordinates; the modules below are the same methods, statement for
    statement, on C ints.  The two agree as long as no coordinate leaves the
    range of a C [int]. *)

Definition INT_MIN : Z := -2147483648.
Definition INT_MAX : Z := 2147483647.

Definition in_int (z : Z) : bool := (INT_MIN <=? z) && (z <=? INT_MAX).

(** The value a C [int] holds after an addition or subtraction that left
    its range. *)
Definition wrap (z : Z) : Z := (z + 2147483648) mod 4294967296 - 2147483648.

Module CRect.

(** The four coordinates are C ints. *)
Definition valid (r : Rect.t) : Prop :=
  in_int (Rect.x r) = true /\ in_int (Rect.y r) = true
  /\ in_int (Rect.w r) = true /\ in_int (Rect.h r) = true.

Definition left (r : Rect.t) : Z := Rect.x r.
Definition top (r : Rect.t) : Z := Rect.y r.
Definition right (r : Rect.t) : Z := wrap (Rect.x r + Rect.w r).
Definition bottom (r : Rect.t) : Z := wrap (Rect.y r + Rect.h r).
Definition height (r : Rect.t) : Z := Rect.h r.
Definition centerx (r : Rect.t) : Z := wrap (Rect.x r + Z.shiftr (Rect.w r) 1).
Definition centery (r : Rect.t) : Z := wrap (Rect.y r + Z.shiftr (Rect.h r) 1).

(** [rect.x = v] and [rect.y = v] for a Python integer [v]: [TypeError]
    when [v] is not a C int. *)
Definition assign_x (v : Z) : M Rect.t unit :=
  if in_int v then modify (Rect.set_x v) else raise TypeError.
Definition assign_y (v : Z) : M Rect.t unit :=
  if in_int v then modify (Rect.set_y v) else raise TypeError.

(** The assignments the program makes with values that are C ints already:
    a constant or an attribute of another rectangle. *)
Definition set_left (v : Z) (r : Rect.t) : Rect.t := Rect.set_x v r.
Definition set_top (v : Z) (r : Rect.t) : Rect.t := Rect.set_y v r.
Definition set_right (v : Z) (r : Rect.t) : Rect.t :=
  Rect.set_x (wrap (v - Rect.w r)) r.
Definition set_bottom (v : Z) (r : Rect.t) : Rect.t :=
  Rect.set_y (wrap (v - Rect.h r)) r.
Definition set_center (c : Z * Z) (r : Rect.t) : Rect.t :=
  Rect.mk (wrap (fst c - Z.shiftr (Rect.w r) 1))
          (wrap (snd c - Z.shiftr (Rect.h r) 1))
          (Rect.w r) (Rect.h r).

Definition colliderect (a b : Rect.t) : bool :=
  if (Rect.w a =? 0) || (Rect.h a =? 0) || (Rect.w b =? 0) || (Rect.h b =? 0)
  then false
  else
    (Z.min (Rect.x a) (right a) <? Z.max (Rect.x b) (right b))
    && (Z.min (Rect.y a) (bottom a) <? Z.max (Rect.y b) (bottom b))
    && (Z.max (Rect.x a) (right a) >? Z.min (Rect.x b) (right b))
    && (Z.max (Rect.y a) (bottom a) >? Z.min (Rect.y b) (bottom b)).

End CRect.

Module CPaddle.

Definition on_rect {A : Type} (m : M Rect.t A) : M Paddle.t A :=
  fun p => let (o, r) := m (Paddle.rect p) in (o, Paddle.mk r (Paddle.speed p)).

Definition clamp_to_screen : M Paddle.t unit :=
  self <- get ;;
  (if CRect.top (Paddle.rect self) <? 0
   then modify (Paddle.with_rect (CRect.set_top 0))
   else ret tt) ;;
  self <- get ;;
  (if CRect.bottom (Paddle.rect self) >? HEIGHT
   then modify (Paddle.with_rect (CRect.set_bottom HEIGHT))
   else ret tt).

Definition move (dy : R) : M Paddle.t unit :=
  self <- get ;;
  on_rect (CRect.assign_y (Rect.y (Paddle.rect self) + py_int dy)) ;;
  clamp_to_screen.

End CPaddle.

Module CBall.

Definition on_rect {A : Type} (m : M Rect.t A) : M Ball.t A :=
  fun b =>
    let (o, r) := m (Ball.rect b) in
    (o, Ball.mk r (Ball.vx b) (Ball.vy b) (Ball.speed b)).

Definition reset (direction : Z) (u : R) : M Ball.t unit :=
  modify (Ball.with_rect (CRect.set_center (WIDTH / 2, HEIGHT / 2))) ;;
  let angle := Ball.launch_angle u in
  modify (Ball.set_speed BALL_SPEED_INITIAL) ;;
  self <- get ;;
  modify (Ball.set_vx (cos angle * Ball.speed self * IZR direction)) ;;
  self <- get ;;
  modify (Ball.set_vy (sin angle * Ball.speed self)).

Definition _bounce_off_paddle (paddle : Paddle.t) (is_right : bool)
  : M Ball.t unit :=
  (* Push ball outside the paddle to avoid sticking *)
  (if is_right
   then modify (Ball.with_rect
                  (CRect.set_right (CRect.left (Paddle.rect paddle))))
   else modify (Ball.with_rect
                  (CRect.set_left (CRect.right (Paddle.rect paddle))))) ;;
  (* Compute bounce angle based on impact point *)
  self <- get ;;
  let paddle_center_y := CRect.centery (Paddle.rect paddle) in
  let ball_center_y := CRect.centery (Ball.rect self) in
  offset <- py_div (IZR (ball_center_y - paddle_center_y))
                   (IZR (CRect.height (Paddle.rect paddle)) / 2) ;;
  let offset := Ball.clamp_offset offset in
  (* Increase speed slightly up to max *)
  modify (fun self =>
            Ball.set_speed
              (Rmin BALL_SPEED_MAX (Ball.speed self + BALL_SPEED_INCREMENT))
              self) ;;
  (* New direction: reflect x, adjust y based on offset *)
  let angle := Ball.bounce_angle offset in
  let direction := if is_right then -1 else 1 in
  self <- get ;;
  modify (Ball.set_vx (cos angle * Ball.speed self * IZR direction)) ;;
  self <- get ;;
  modify (Ball.set_vy (sin angle * Ball.speed self)).

(** The first three steps of [update]. *)
Definition advance (left right : Paddle.t) : M Ball.t unit :=
  (* Move ball *)
  self <- get ;;
  on_rect (CRect.assign_x (Rect.x (Ball.rect self) + py_int (Ball.vx self))) ;;
  self <- get ;;
  on_rect (CRect.assign_y (Rect.y (Ball.rect self) + py_int (Ball.vy self))) ;;
  (* Screen bounds (top/bottom) *)
  self <- get ;;
  (if CRect.top (Ball.rect self) <=? 0 then
     modify (Ball.with_rect (CRect.set_top 0)) ;;
     modify (fun self => Ball.set_vy (Ball.vy self * -1) self)
   else if CRect.bottom (Ball.rect self) >=? HEIGHT then
     modify (Ball.with_rect (CRect.set_bottom HEIGHT)) ;;
     modify (fun self => Ball.set_vy (Ball.vy self * -1) self)
   else ret tt) ;;
  (* Paddle collisions *)
  self <- get ;;
  (if CRect.colliderect (Ball.rect self) (Paddle.rect left)
      && Rltb (Ball.vx self) 0
   then _bounce_off_paddle left false
   else if CRect.colliderect (Ball.rect self) (Paddle.rect right)
           && Rgtb (Ball.vx self) 0
   then _bounce_off_paddle right true
   else ret tt).

(** The last step of [update]: scoring. *)
Definition scoring (u : R) : M Ball.t (Z * Z) :=
  self <- get ;;
  if CRect.right (Ball.rect self) <? 0 then
    reset (-1) u ;;
    ret (0, 1)
  else if CRect.left (Ball.rect self) >? WIDTH then
    reset 1 u ;;
    ret (1, 0)
  else ret (0, 0).

(** Update position, handle collisions, and return score delta (l, r). *)
Definition update (left right : Paddle.t) (u : R) : M Ball.t (Z * Z) :=
  advance left right ;;
  scoring u.

End CBall.

Module CAIPaddleController.

Definition aim_sigma (ball : Ball.t) : R :=
  let distance_x := Z.max 1 (WIDTH - CRect.centerx (Ball.rect ball)) in
  let speed_factor := Rmax 1.0 (Rabs (Ball.vx ball)) in
  Rmin 80.0 (8.0 + (IZR distance_x / 20.0) + (speed_factor * 1.2)).

Definition update (now : Z) (z : R) (ball : Ball.t)
  : M (AIPaddleController.t * Paddle.t) unit :=
  s <- get ;;
  let should_update :=
    now - AIPaddleController.last_update_time (fst s)
    >=? AIPaddleController.update_interval_ms (fst s) in
  (* Determine if ball is moving towards AI (right side) *)
  let ball_towards_ai := Rgtb (Ball.vx ball) 0 in
  (if should_update then
     AIPaddleController.on_self
       (AIPaddleController.set_last_update_time now) ;;
     if ball_towards_ai then
       let sigma := aim_sigma ball in
       let noise := gauss 0.0 sigma z in
       AIPaddleController.on_self
         (AIPaddleController.set_target_center_y
            (IZR (CRect.centery (Ball.rect ball)) + noise))
     else
       (* drift target back to center with some noise *)
       let noise := gauss 0.0 25.0 z in
       AIPaddleController.on_self
         (fun self =>
            AIPaddleController.set_target_center_y
              ((1 - AIPaddleController.center_bias self)
               * AIPaddleController.target_center_y self
               + AIPaddleController.center_bias self
                 * (IZR HEIGHT / 2 + noise))
              self)
   else ret tt) ;;
  (* Move towards target with limited speed *)
  s <- get ;;
  let dy :=
    (AIPaddleController.target_center_y (fst s)
     - IZR (CRect.centery (Paddle.rect (snd s))))%R in
  AIPaddleController.on_paddle
    (CPaddle.move (AIPaddleController.limited_step (snd s) dy)).

End CAIPaddleController.

(* ================================================================== *)
(** * Closed forms of the methods

    Each method is a straight-line computation; these are the objects they
    leave behind, written as functions.  The lemmas [move_run], [reset_run],
    [bounce_run], [advance_run] and [update_run] below prove them equal to
    the methods. *)

Open Scope R_scope.

(** [Paddle.clamp_to_screen]: the two clamps, in order. *)
Definition clamped_y (y h : Z) : Z :=
  let y2 := if (y <? 0)%Z then 0%Z else y in
  if (y2 + h >? HEIGHT)%Z then (HEIGHT - h)%Z else y2.

Definition clamped (p : Paddle.t) : Paddle.t :=
  Paddle.mk (Rect.mk (Rect.x (Paddle.rect p))
                     (clamped_y (Rect.y (Paddle.rect p)) (Rect.h (Paddle.rect p)))
                     (Rect.w (Paddle.rect p)) (Rect.h (Paddle.rect p)))
            (Paddle.speed p).

(** [Paddle.move]: the truncated step, then the clamps. *)
Definition moved_y (dy : R) (p : Paddle.t) : Z :=
  clamped_y (Rect.y (Paddle.rect p) + py_int dy) (Rect.h (Paddle.rect p)).

Definition moved (dy : R) (p : Paddle.t) : Paddle.t :=
  Paddle.mk (Rect.mk (Rect.x (Paddle.rect p)) (moved_y dy p)
                     (Rect.w (Paddle.rect p)) (Rect.h (Paddle.rect p)))
            (Paddle.speed p).

(** [Ball.reset]. *)
Definition served (direction : Z) (u : R) (b : Ball.t) : Ball.t :=
  Ball.mk (Rect.set_center ((WIDTH / 2)%Z, (HEIGHT / 2)%Z) (Ball.rect b))
          (cos (Ball.launch_angle u) * BALL_SPEED_INITIAL * IZR direction)
          (sin (Ball.launch_angle u) * BALL_SPEED_INITIAL)
          BALL_SPEED_INITIAL.

(** [Ball._bounce_off_paddle], when the paddle's height is not zero. *)
Definition flush (paddle : Paddle.t) (is_right : bool) (r : Rect.t) : Rect.t :=
  if is_right then Rect.set_right (Rect.left (Paddle.rect paddle)) r
  else Rect.set_left (Rect.right (Paddle.rect paddle)) r.

Definition impact_offset (paddle : Paddle.t) (r : Rect.t) : R :=
  Ball.clamp_offset
    (IZR (Rect.centery r - Rect.centery (Paddle.rect paddle))
     / (IZR (Rect.height (Paddle.rect paddle)) / 2)).

Definition ramped (speed : R) : R :=
  Rmin BALL_SPEED_MAX (speed + BALL_SPEED_INCREMENT).

Definition bounced (paddle : Paddle.t) (is_right : bool) (b : Ball.t) : Ball.t :=
  let r := flush paddle is_right (Ball.rect b) in
  let angle := Ball.bounce_angle (impact_offset paddle r) in
  let direction := if is_right then (-1)%Z else 1%Z in
  Ball.mk r
          (cos angle * ramped (Ball.speed b) * IZR direction)
          (sin angle * ramped (Ball.speed b))
          (ramped (Ball.speed b)).

(** [Ball.update], step by step. *)
Definition stepped (b : Ball.t) : Ball.t :=
  Ball.mk (Rect.mk (Rect.x (Ball.rect b) + py_int (Ball.vx b))
                   (Rect.y (Ball.rect b) + py_int (Ball.vy b))
                   (Rect.w (Ball.rect b)) (Rect.h (Ball.rect b)))
          (Ball.vx b) (Ball.vy b) (Ball.speed b).

Definition walled (b : Ball.t) : Ball.t :=
  if (Rect.top (Ball.rect b) <=? 0)%Z then
    Ball.mk (Rect.set_top 0 (Ball.rect b))
            (Ball.vx b) (Ball.vy b * -1) (Ball.speed b)
  else if (Rect.bottom (Ball.rect b) >=? HEIGHT)%Z then
    Ball.mk (Rect.set_bottom HEIGHT (Ball.rect b))
            (Ball.vx b) (Ball.vy b * -1) (Ball.speed b)
  else b.

Definition hits_left (left : Paddle.t) (b : Ball.t) : bool :=
  Rect.colliderect (Ball.rect b) (Paddle.rect left) && Rltb (Ball.vx b) 0.

Definition hits_right (right : Paddle.t) (b : Ball.t) : bool :=
  Rect.colliderect (Ball.rect b) (Paddle.rect right) && Rgtb (Ball.vx b) 0.

Definition paddled (left right : Paddle.t) (b : Ball.t) : Ball.t :=
  if hits_left left b then bounced left false b
  else if hits_right right b then bounced right true b
  else b.

(** The ball when [update] reaches its scoring step. *)
Definition advanced (left right : Paddle.t) (b : Ball.t) : Ball.t :=
  paddled left right (walled (stepped b)).

Definition scored (u : R) (b : Ball.t) : (Z * Z) * Ball.t :=
  if (Rect.right (Ball.rect b) <? 0)%Z then ((0%Z, 1%Z), served (-1) u b)
  else if (Rect.left (Ball.rect b) >? WIDTH)%Z then ((1%Z, 0%Z), served 1 u b)
  else ((0%Z, 0%Z), b).

(** [AIPaddleController.update]: the controller after the reaction step. *)
Definition retargeted (now : Z) (z : R) (ball : Ball.t)
           (a : AIPaddleController.t) : AIPaddleController.t :=
  if (now - AIPaddleController.last_update_time a
      >=? AIPaddleController.update_interval_ms a)%Z
  then
    let a1 := AIPaddleController.set_last_update_time now a in
    if Rgtb (Ball.vx ball) 0 then
      AIPaddleController.set_target_center_y
        (IZR (Rect.centery (Ball.rect ball))
         + gauss 0.0 (AIPaddleController.aim_sigma ball) z)
        a1
    else
      AIPaddleController.set_target_center_y
        ((1 - AIPaddleController.center_bias a1)
         * AIPaddleController.target_center_y a1
         + AIPaddleController.center_bias a1 * (IZR HEIGHT / 2 + gauss 0.0 25.0 z))
        a1
  else a.

(** The step the controller asks its paddle to take. *)
Definition pursuit_step (a : AIPaddleController.t) (p : Paddle.t) : R :=
  AIPaddleController.limited_step
    p
    (AIPaddleController.target_center_y a - IZR (Rect.centery (Paddle.rect p))).

(* ================================================================== *)
(** * Vocabulary of the specification *)

(** The paddle rectangle lies within the vertical bounds of the field. *)
Definition within_field (p : Paddle.t) : Prop :=
  (0 <= Rect.top (Paddle.rect p))%Z /\ (Rect.bottom (Paddle.rect p) <= HEIGHT)%Z.

(** The magnitude of the ball's velocity. *)
Definition magnitude (b : Ball.t) : R :=
  sqrt (Ball.vx b * Ball.vx b + Ball.vy b * Ball.vy b).

(** The speed scalar is the magnitude of the velocity. *)
Definition consistent (b : Ball.t) : Prop := magnitude b = Ball.speed b.

(** The speed scalar lies between the initial and the maximum speed. *)
Definition speed_bounded (b : Ball.t) : Prop :=
  BALL_SPEED_INITIAL <= Ball.speed b <= BALL_SPEED_MAX.

(** The operations of a ball, with their arguments and draws. *)
Inductive ball_op : Type :=
| DoBounce (paddle : Paddle.t) (is_right : bool)
| DoReset (direction : Z) (u : R)
| DoUpdate (left right : Paddle.t) (u : R).

Definition do_op (o : ball_op) : M Ball.t unit :=
  match o with
  | DoBounce paddle is_right => Ball._bounce_off_paddle paddle is_right
  | DoReset direction u => Ball.reset direction u
  | DoUpdate l r u => Ball.update l r u ;; ret tt
  end.

(** The ball after each operation of a sequence, in order.  An operation
    that raises leaves the ball as it was at the raise. *)
Fixpoint trace (ops : list ball_op) (b : Ball.t) : list Ball.t :=
  match ops with
  | [] => []
  | o :: rest => exec (do_op o) b :: trace rest (exec (do_op o) b)
  end.

(** The operation calls [reset] on this ball: it is [reset], or an [update]
    in which a goal is scored. *)
Definition calls_reset (o : ball_op) (b : Ball.t) : bool :=
  match o with
  | DoBounce _ _ => false
  | DoReset _ _ => true
  | DoUpdate l r u =>
      let b' := advanced l r b in
      (Rect.right (Ball.rect b') <? 0)%Z || (Rect.left (Ball.rect b') >? WIDTH)%Z
  end.

(** The paddles as [main] creates them. *)
Definition main_left_paddle : Paddle.t :=
  Paddle.mk (Rect.mk 32 250 12 100) PADDLE_SPEED.
Definition main_right_paddle : Paddle.t :=
  Paddle.mk (Rect.mk 756 250 12 100) AI_PADDLE_SPEED.

(** A ball about to leave the field on the left, moving straight left. *)
Definition leaving_left : Ball.t := Ball.mk (Rect.mk (-20) 294 12 12) (-6) 0 6.

(** A ball that has just passed the right paddle, moving straight right. *)
Definition leaving_right : Ball.t := Ball.mk (Rect.mk 810 294 12 12) 6 0 6.

(** Balls level with the bottom and with the top of the left paddle. *)
Definition low_hit : Ball.t := Ball.mk (Rect.mk 40 344 12 12) (-6) 0 6.
Definition high_hit : Ball.t := Ball.mk (Rect.mk 40 244 12 12) (-6) 0 6.

(** A paddle taller than the field. *)
Definition tall_paddle : Paddle.t := Paddle.mk (Rect.mk 32 0 12 700) PADDLE_SPEED.

(** A ball in mid-field at the height of the paddles' centres. *)
Definition mid_field : Ball.t := Ball.mk (Rect.mk 394 294 12 12) (-6) 0 6.

(** The standard deviation as the specification words it: from a
    horizontal distance to the paddle and the ball's speed. *)
Definition sigma_as_specified (distance ball_speed : R) : R :=
  Rmin 80.0 (8.0 + distance / 20.0 + ball_speed * 1.2).

(** The horizontal distance from the ball to a paddle, centre to centre. *)
Definition distance_to_paddle (ball : Ball.t) (paddle : Paddle.t) : R :=
  IZR (Rect.centerx (Paddle.rect paddle) - Rect.centerx (Ball.rect ball)).

(** A controller whose target lies far below its paddle. *)
Definition chasing : AIPaddleController.t := AIPaddleController.mk 120 0 500 0.15.

(** The rectangle of the ball as [main] creates it. *)
Definition main_ball_rect : Rect.t := Rect.mk 394 294 12 12.

(** A ball launched from the centre toward the right at 60 degrees: its
    horizontal velocity is half its speed. *)
Definition steep_launch : Ball.t :=
  Ball.mk main_ball_rect
          (cos (Ball.launch_angle (41 / 42)) * BALL_SPEED_INITIAL * 1)
          (sin (Ball.launch_angle (41 / 42)) * BALL_SPEED_INITIAL)
          BALL_SPEED_INITIAL.


(** The ball after a whole sequence of operations. *)
Definition run_ops (ops : list ball_op) (b : Ball.t) : Ball.t :=
  fold_left (fun b o => exec (do_op o) b) ops b.

(** A sequence of paddle bounces, each with its paddle and side. *)
Definition bounces (hits : list (Paddle.t * bool)) : list ball_op :=
  map (fun hit => DoBounce (fst hit) (snd hit)) hits.

(** Two rectangles whose horizontal extents do not overlap. *)
Definition apart (a p : Rect.t) : Prop :=
  (Z.max (Rect.x a) (Rect.x a + Rect.w a)
   <= Z.min (Rect.x p) (Rect.x p + Rect.w p))%Z
  \/ (Z.max (Rect.x p) (Rect.x p + Rect.w p)
      <= Z.min (Rect.x a) (Rect.x a + Rect.w a))%Z.


(** The column, size and speed cap of a paddle. *)
Definition paddle_frame (p : Paddle.t) : Z * Z * Z * Z :=
  (Rect.x (Paddle.rect p), Rect.w (Paddle.rect p), Rect.h (Paddle.rect p),
   Paddle.speed p).

(** A world with the ball of [leaving_left] or of an edge hit in it. *)
Definition world_with (b : Ball.t) : Game.World :=
  Game.mkWorld main_left_paddle main_right_paddle b
               AIPaddleController.__init__ 0 0.

(** A ball lying flush against the left paddle after an edge hit: it moves
    less than a pixel per frame to the right. *)
Definition edge_hit : Ball.t := Ball.mk (Rect.mk 44 344 12 12) 0.5 6 6.35.

(** A slow ball lying on the top wall, and one on the bottom wall. *)
Definition on_top_wall : Ball.t := Ball.mk (Rect.mk 394 0 12 12) 6 0.5 6.
Definition on_bottom_wall : Ball.t := Ball.mk (Rect.mk 394 588 12 12) 6 0.5 6.

(** A controller whose target lies a little above the centre, and a paddle
    resting on the top of the field. *)
Definition drifting : AIPaddleController.t := AIPaddleController.mk 120 0 100 0.15.
Definition top_paddle : Paddle.t := Paddle.mk (Rect.mk 32 3 12 100) PADDLE_SPEED.

(** ** On C ints

    The closed forms of the methods on C ints, proved equal to the methods
    by the lemmas [cclamp_run], [cmove_run], [creset_run], [cbounce_run],
    [cadvance_run], [cupdate_run] and [cai_update_run] below. *)

Definition in_range (z : Z) : Prop := (INT_MIN <= z <= INT_MAX)%Z.

(** [CPaddle.clamp_to_screen] and [CPaddle.move]. *)
Definition cclamped_y (y h : Z) : Z :=
  let y2 := if (y <? 0)%Z then 0%Z else y in
  if (wrap (y2 + h) >? HEIGHT)%Z then wrap (HEIGHT - h) else y2.

Definition cclamped (p : Paddle.t) : Paddle.t :=
  Paddle.mk (Rect.mk (Rect.x (Paddle.rect p))
                     (cclamped_y (Rect.y (Paddle.rect p)) (Rect.h (Paddle.rect p)))
                     (Rect.w (Paddle.rect p)) (Rect.h (Paddle.rect p)))
            (Paddle.speed p).

Definition cmoved (dy : R) (p : Paddle.t) : (exn + unit) * Paddle.t :=
  let y1 := (Rect.y (Paddle.rect p) + py_int dy)%Z in
  if in_int y1 then
    (inr tt,
     Paddle.mk (Rect.mk (Rect.x (Paddle.rect p))
                        (cclamped_y y1 (Rect.h (Paddle.rect p)))
                        (Rect.w (Paddle.rect p)) (Rect.h (Paddle.rect p)))
               (Paddle.speed p))
  else (inl TypeError, p).

(** [CBall.reset]. *)
Definition cserved (direction : Z) (u : R) (b : Ball.t) : Ball.t :=
  Ball.mk (CRect.set_center ((WIDTH / 2)%Z, (HEIGHT / 2)%Z) (Ball.rect b))
          (cos (Ball.launch_angle u) * BALL_SPEED_INITIAL * IZR direction)
          (sin (Ball.launch_angle u) * BALL_SPEED_INITIAL)
          BALL_SPEED_INITIAL.

(** [CBall._bounce_off_paddle], when the paddle's height is not zero. *)
Definition cflush (paddle : Paddle.t) (is_right : bool) (r : Rect.t) : Rect.t :=
  if is_right then CRect.set_right (CRect.left (Paddle.rect paddle)) r
  else CRect.set_left (CRect.right (Paddle.rect paddle)) r.

Definition cimpact_offset (paddle : Paddle.t) (r : Rect.t) : R :=
  Ball.clamp_offset
    (IZR (CRect.centery r - CRect.centery (Paddle.rect paddle))
     / (IZR (CRect.height (Paddle.rect paddle)) / 2)).

Definition cbounced (paddle : Paddle.t) (is_right : bool) (b : Ball.t) : Ball.t :=
  let r := cflush paddle is_right (Ball.rect b) in
  let angle := Ball.bounce_angle (cimpact_offset paddle r) in
  let direction := if is_right then (-1)%Z else 1%Z in
  Ball.mk r
          (cos angle * ramped (Ball.speed b) * IZR direction)
          (sin angle * ramped (Ball.speed b))
          (ramped (Ball.speed b)).

(** [CBall.update], step by step. *)
Definition placed (x y : Z) (b : Ball.t) : Ball.t :=
  Ball.mk (Rect.mk x y (Rect.w (Ball.rect b)) (Rect.h (Ball.rect b)))
          (Ball.vx b) (Ball.vy b) (Ball.speed b).

Definition cwalled (b : Ball.t) : Ball.t :=
  if (CRect.top (Ball.rect b) <=? 0)%Z then
    Ball.mk (CRect.set_top 0 (Ball.rect b))
            (Ball.vx b) (Ball.vy b * -1) (Ball.speed b)
  else if (CRect.bottom (Ball.rect b) >=? HEIGHT)%Z then
    Ball.mk (CRect.set_bottom HEIGHT (Ball.rect b))
            (Ball.vx b) (Ball.vy b * -1) (Ball.speed b)
  else b.

Definition chits_left (left : Paddle.t) (b : Ball.t) : bool :=
  CRect.colliderect (Ball.rect b) (Paddle.rect left) && Rltb (Ball.vx b) 0.

Definition chits_right (right : Paddle.t) (b : Ball.t) : bool :=
  CRect.colliderect (Ball.rect b) (Paddle.rect right) && Rgtb (Ball.vx b) 0.

Definition cpaddled (left right : Paddle.t) (b : Ball.t) : Ball.t :=
  if chits_left left b then cbounced left false b
  else if chits_right right b then cbounced right true b
  else b.

(** Where the first two statements of [update] take the ball. *)
Definition next_x (b : Ball.t) : Z := (Rect.x (Ball.rect b) + py_int (Ball.vx b))%Z.
Definition next_y (b : Ball.t) : Z := (Rect.y (Ball.rect b) + py_int (Ball.vy b))%Z.

Definition cadvanced (left right : Paddle.t) (b : Ball.t)
  : (exn + unit) * Ball.t :=
  if in_int (next_x b) then
    if in_int (next_y b) then
      (inr tt, cpaddled left right (cwalled (placed (next_x b) (next_y b) b)))
    else (inl TypeError, placed (next_x b) (Rect.y (Ball.rect b)) b)
  else (inl TypeError, b).

Definition cscored (u : R) (b : Ball.t) : (Z * Z) * Ball.t :=
  if (CRect.right (Ball.rect b) <? 0)%Z then ((0%Z, 1%Z), cserved (-1) u b)
  else if (CRect.left (Ball.rect b) >? WIDTH)%Z
       then ((1%Z, 0%Z), cserved 1 u b)
  else ((0%Z, 0%Z), b).

(** [CAIPaddleController.update]: the controller after the reaction step. *)
Definition cretargeted (now : Z) (z : R) (ball : Ball.t)
           (a : AIPaddleController.t) : AIPaddleController.t :=
  if (now - AIPaddleController.last_update_time a
      >=? AIPaddleController.update_interval_ms a)%Z
  then
    let a1 := AIPaddleController.set_last_update_time now a in
    if Rgtb (Ball.vx ball) 0 then
      AIPaddleController.set_target_center_y
        (IZR (CRect.centery (Ball.rect ball))
         + gauss 0.0 (CAIPaddleController.aim_sigma ball) z)
        a1
    else
      AIPaddleController.set_target_center_y
        ((1 - AIPaddleController.center_bias a1)
         * AIPaddleController.target_center_y a1
         + AIPaddleController.center_bias a1 * (IZR HEIGHT / 2 + gauss 0.0 25.0 z))
        a1
  else a.

Definition cpursuit_step (a : AIPaddleController.t) (p : Paddle.t) : R :=
  AIPaddleController.limited_step
    p
    (AIPaddleController.target_center_y a
     - IZR (CRect.centery (Paddle.rect p))).

(** A paddle with a speed cap above the AI speed constant, a paddle above
    the field, and controllers aiming 7 and 5.9 pixels below the centre. *)
Definition quick_paddle : Paddle.t := Paddle.mk (Rect.mk 756 250 12 100) 7.
Definition stray_paddle : Paddle.t :=
  Paddle.mk (Rect.mk 756 (-1000) 12 100) AI_PADDLE_SPEED.
Definition aiming_7_below : AIPaddleController.t :=
  AIPaddleController.mk 120 0 307 0.15.
Definition aiming_5_9_below : AIPaddleController.t :=
  AIPaddleController.mk 120 0 305.9 0.15.

(** A ball with a horizontal velocity beyond the range of a C int. *)
Definition runaway : Ball.t := Ball.mk (Rect.mk 394 294 12 12) 3000000000 0 6.

(** A slow ball on the top wall that has passed the right goal line. *)
Definition on_top_wall_past_goal : Ball.t :=
  Ball.mk (Rect.mk 810 0 12 12) 6 0.5 6.

(** Rectangles far from the ends of the range of a C int: every coordinate
    within [2^28] of zero, and what a frame can make of such a rectangle. *)
Definition modest (r : Rect.t) : Prop :=
  (Z.abs (Rect.x r) <= 268435456 /\ Z.abs (Rect.y r) <= 268435456
   /\ Z.abs (Rect.w r) <= 268435456 /\ Z.abs (Rect.h r) <= 268435456)%Z.

Definition roomy (r : Rect.t) : Prop :=
  (Z.abs (Rect.x r) <= 536870912 /\ Z.abs (Rect.y r) <= 536870912
   /\ Z.abs (Rect.w r) <= 268435456 /\ Z.abs (Rect.h r) <= 268435456)%Z.

(* ================================================================== *)
(** * Properties *)

(** ** Numerics *)

Lemma Rltb_true (a b : R) : Rltb a b = true <-> a < b.
Proof. unfold Rltb; destruct (Rlt_dec a b); split; intros; try easy. Qed.

Lemma Rltb_false (a b : R) : Rltb a b = false <-> b <= a.
Proof.
  unfold Rltb; destruct (Rlt_dec a b); split; intros; try easy; lra.
Qed.

Lemma Int_part_IZR (z : Z) : Int_part (IZR z) = z.
Proof. symmetry; apply Int_part_spec; lra. Qed.

Lemma py_int_IZR (z : Z) : py_int (IZR z) = z.
Proof.
  unfold py_int; destruct (Rle_dec 0 (IZR z)).
  - apply Int_part_IZR.
  - rewrite <- opp_IZR, Int_part_IZR; lia.
Qed.

(** Truncation keeps the sign and never grows the magnitude. *)
Lemma py_int_nonneg (r : R) : 0 <= r -> 0 <= IZR (py_int r) <= r.
Proof.
  intros Hr; unfold py_int; destruct (Rle_dec 0 r); [|lra].
  destruct (base_Int_part r) as [Hle Hgt]; split; [|exact Hle].
  apply IZR_le.
  assert (Hlt : IZR (-1) < IZR (Int_part r)) by (simpl; lra).
  apply lt_IZR in Hlt; lia.
Qed.

Lemma py_int_neg (r : R) : r < 0 -> r <= IZR (py_int r) <= 0.
Proof.
  intros Hr; unfold py_int; destruct (Rle_dec 0 r); [lra|].
  destruct (base_Int_part (- r)) as [Hle Hgt]; rewrite opp_IZR; split; [lra|].
  assert (Hlt : IZR (-1) < IZR (Int_part (- r))) by (simpl; lra).
  apply lt_IZR in Hlt.
  assert (H0 : (0 <= Int_part (- r))%Z) by lia.
  apply IZR_le in H0; lra.
Qed.

Lemma py_int_half : py_int 0.5 = 0%Z.
Proof.
  unfold py_int; destruct (Rle_dec 0 0.5); [|lra].
  symmetry; apply Int_part_spec; lra.
Qed.

(** ** Paddle *)

Ltac unfold_rect :=
  cbv beta iota zeta delta
    [bind modify get ret raise exec outcome fst snd
     Rect.left Rect.top Rect.right Rect.bottom Rect.height
     Rect.centerx Rect.centery
     Rect.set_x Rect.set_y Rect.set_left Rect.set_top Rect.set_right
     Rect.set_bottom Rect.set_center
     Rect.x Rect.y Rect.w Rect.h
     Paddle.rect Paddle.speed Paddle.with_rect
     Ball.rect Ball.vx Ball.vy Ball.speed
     Ball.with_rect Ball.set_vx Ball.set_vy Ball.set_speed].

Lemma clamp_run (p : Paddle.t) :
  Paddle.clamp_to_screen p = (inr tt, clamped p).
Proof.
  destruct p as [[x y w h] s].
  unfold Paddle.clamp_to_screen, clamped, clamped_y; unfold_rect.
  destruct (y <? 0)%Z; unfold_rect.
  - destruct (0 + h >? HEIGHT)%Z; reflexivity.
  - destruct (y + h >? HEIGHT)%Z; reflexivity.
Qed.

Lemma move_run (dy : R) (p : Paddle.t) :
  Paddle.move dy p = (inr tt, moved dy p).
Proof.
  unfold Paddle.move; unfold bind at 1, modify at 1.
  rewrite clamp_run; destruct p as [[x y w h] s]; reflexivity.
Qed.

Lemma clamped_y_within (y h : Z) :
  (h <= HEIGHT)%Z ->
  (0 <= clamped_y y h /\ clamped_y y h + h <= HEIGHT)%Z.
Proof.
  intros Hh; unfold clamped_y.
  destruct (y <? 0)%Z eqn:E1;
    [ apply Z.ltb_lt in E1 | apply Z.ltb_ge in E1 ].
  - destruct (0 + h >? HEIGHT)%Z eqn:E2; [lia|].
    rewrite Z.gtb_ltb in E2; apply Z.ltb_ge in E2; lia.
  - destruct (y + h >? HEIGHT)%Z eqn:E2; [lia|].
    rewrite Z.gtb_ltb in E2; apply Z.ltb_ge in E2; lia.
Qed.

(** A paddle within the field is left where it is. *)
Lemma clamped_y_id (y h : Z) :
  (0 <= y)%Z -> (y + h <= HEIGHT)%Z -> clamped_y y h = y.
Proof.
  intros H0 H1; unfold clamped_y.
  destruct (y <? 0)%Z eqn:E1; [apply Z.ltb_lt in E1; lia|].
  destruct (y + h >? HEIGHT)%Z eqn:E2; [|reflexivity].
  rewrite Z.gtb_ltb in E2; apply Z.ltb_lt in E2; lia.
Qed.

(** Clamping a paddle that started within the field never lengthens the
    step it has just taken. *)
Lemma clamped_y_step (y h d : Z) :
  (0 <= y)%Z -> (y + h <= HEIGHT)%Z ->
  (Z.abs (clamped_y (y + d) h - y) <= Z.abs d)%Z.
Proof.
  intros H0 H1; unfold clamped_y.
  destruct (y + d <? 0)%Z eqn:E1;
    [ apply Z.ltb_lt in E1 | apply Z.ltb_ge in E1 ].
  - destruct (0 + h >? HEIGHT)%Z eqn:E2; rewrite Z.gtb_ltb in E2;
      [apply Z.ltb_lt in E2 | apply Z.ltb_ge in E2]; lia.
  - destruct (y + d + h >? HEIGHT)%Z eqn:E2; rewrite Z.gtb_ltb in E2;
      [apply Z.ltb_lt in E2 | apply Z.ltb_ge in E2]; lia.
Qed.

(** ** Ball: the methods and their closed forms *)

Lemma reset_run (direction : Z) (u : R) (b : Ball.t) :
  Ball.reset direction u b = (inr tt, served direction u b).
Proof. reflexivity. Qed.

Lemma half_height_zero (z : Z) : IZR z / 2 = 0 <-> z = 0%Z.
Proof.
  split; intros H.
  - apply eq_IZR; lra.
  - subst; lra.
Qed.

Lemma bounce_run (paddle : Paddle.t) (is_right : bool) (b : Ball.t) :
  Rect.height (Paddle.rect paddle) <> 0%Z ->
  Ball._bounce_off_paddle paddle is_right b = (inr tt, bounced paddle is_right b).
Proof.
  intros Hh.
  unfold Ball._bounce_off_paddle, bounced, impact_offset, flush, ramped, py_div.
  destruct (Req_dec_T (IZR (Rect.height (Paddle.rect paddle)) / 2) 0) as [E|E].
  - apply half_height_zero in E; contradiction.
  - destruct is_right; reflexivity.
Qed.

Lemma bounce_raises (paddle : Paddle.t) (is_right : bool) (b : Ball.t) :
  Rect.height (Paddle.rect paddle) = 0%Z ->
  Ball._bounce_off_paddle paddle is_right b
  = (inl ZeroDivisionError,
     Ball.with_rect (flush paddle is_right) b).
Proof.
  intros Hh.
  unfold Ball._bounce_off_paddle, flush, py_div.
  destruct (Req_dec_T (IZR (Rect.height (Paddle.rect paddle)) / 2) 0) as [E|E].
  - destruct is_right; reflexivity.
  - exfalso; apply E, half_height_zero, Hh.
Qed.

Lemma colliderect_height (a b : Rect.t) :
  Rect.colliderect a b = true -> Rect.height b <> 0%Z.
Proof.
  unfold Rect.colliderect, Rect.height.
  destruct (Rect.h b =? 0)%Z eqn:E.
  - rewrite !orb_true_r; discriminate.
  - intros _; apply Z.eqb_neq, E.
Qed.

Lemma advance_run (left right : Paddle.t) (b : Ball.t) :
  Ball.advance left right b = (inr tt, advanced left right b).
Proof.
  unfold Ball.advance, advanced, paddled.
  unfold bind at 1, modify at 1.
  unfold bind at 1, modify at 1.
  unfold bind at 1, get at 1.
  fold (stepped b).
  set (b1 := Ball.with_rect _ (Ball.with_rect _ b)).
  assert (Hb1 : b1 = stepped b) by (destruct b as [[x y w h] vx vy s]; reflexivity).
  rewrite Hb1; clear b1 Hb1.
  assert (Hw : forall k : unit -> M Ball.t unit,
             bind (if (Rect.top (Ball.rect (stepped b)) <=? 0)%Z then
                     modify (Ball.with_rect (Rect.set_top 0)) ;;
                     modify (fun self => Ball.set_vy (Ball.vy self * -1) self)
                   else if (Rect.bottom (Ball.rect (stepped b)) >=? HEIGHT)%Z then
                     modify (Ball.with_rect (Rect.set_bottom HEIGHT)) ;;
                     modify (fun self => Ball.set_vy (Ball.vy self * -1) self)
                   else ret tt) k (stepped b)
             = k tt (walled (stepped b))).
  { intros k; unfold walled.
    destruct (Rect.top (Ball.rect (stepped b)) <=? 0)%Z; [reflexivity|].
    destruct (Rect.bottom (Ball.rect (stepped b)) >=? HEIGHT)%Z; reflexivity. }
  rewrite Hw; clear Hw.
  unfold bind at 1, get at 1.
  fold (hits_left left (walled (stepped b))).
  fold (hits_right right (walled (stepped b))).
  destruct (hits_left left (walled (stepped b))) eqn:EL.
  - apply bounce_run.
    unfold hits_left in EL; apply andb_prop in EL as [EL _].
    eapply colliderect_height, EL.
  - destruct (hits_right right (walled (stepped b))) eqn:ER; [|reflexivity].
    apply bounce_run.
    unfold hits_right in ER; apply andb_prop in ER as [ER _].
    eapply colliderect_height, ER.
Qed.

Lemma scoring_run (u : R) (b : Ball.t) :
  Ball.scoring u b = (inr (fst (scored u b)), snd (scored u b)).
Proof.
  unfold Ball.scoring, scored; unfold bind at 1, get at 1.
  destruct (Rect.right (Ball.rect b) <? 0)%Z; [reflexivity|].
  destruct (Rect.left (Ball.rect b) >? WIDTH)%Z; reflexivity.
Qed.

Lemma update_run (left right : Paddle.t) (u : R) (b : Ball.t) :
  Ball.update left right u b
  = (inr (fst (scored u (advanced left right b))),
     snd (scored u (advanced left right b))).
Proof.
  unfold Ball.update, bind; rewrite advance_run; apply scoring_run.
Qed.

(** ** Angles and velocities *)

Lemma launch_angle_range (u : R) :
  0 <= u <= 1 ->
  - (0.35 * PI) <= Ball.launch_angle u <= 0.35 * PI.
Proof.
  intros Hu; unfold Ball.launch_angle, uniform.
  pose proof PI_RGT_0; nra.
Qed.


Lemma clamp_offset_range (o : R) : -1 <= Ball.clamp_offset o <= 1.
Proof.
  unfold Ball.clamp_offset, Rmax, Rmin.
  destruct (Rle_dec 1.0 o); destruct (Rle_dec _ _); lra.
Qed.

Lemma bounce_angle_range (o : R) :
  -1 <= o <= 1 ->
  - (0.45 * PI) <= Ball.bounce_angle o <= 0.45 * PI.
Proof.
  intros Ho; unfold Ball.bounce_angle; pose proof PI_RGT_0; nra.
Qed.

Lemma cos_bounce_angle_pos (o : R) :
  -1 <= o <= 1 -> 0 < cos (Ball.bounce_angle o).
Proof.
  intros Ho; pose proof (bounce_angle_range o Ho); pose proof PI_RGT_0.
  apply cos_gt_0; lra.
Qed.

(** A velocity built as [cos * speed * direction, sin * speed] with a
    direction of magnitude 1 has the speed as its magnitude. *)
Lemma polar_magnitude (a s : R) (d : Z) :
  d = 1%Z \/ d = (-1)%Z ->
  0 <= s ->
  sqrt (cos a * s * IZR d * (cos a * s * IZR d) + sin a * s * (sin a * s)) = s.
Proof.
  intros Hd Hs.
  assert (Hd2 : IZR d * IZR d = 1) by (destruct Hd; subst; simpl; lra).
  pose proof (sin2_cos2 a) as Hsc; unfold Rsqr in Hsc.
  replace (cos a * s * IZR d * (cos a * s * IZR d) + sin a * s * (sin a * s))
    with (s * s * (cos a * cos a * (IZR d * IZR d) + sin a * sin a)) by ring.
  rewrite Hd2, Rmult_1_r, (Rplus_comm (cos a * cos a)), Hsc, Rmult_1_r.
  apply sqrt_square, Hs.
Qed.

Lemma ramped_bounds (s : R) :
  BALL_SPEED_INITIAL <= s <= BALL_SPEED_MAX ->
  s <= ramped s /\ BALL_SPEED_INITIAL < ramped s <= BALL_SPEED_MAX.
Proof.
  unfold ramped, BALL_SPEED_INITIAL, BALL_SPEED_MAX, BALL_SPEED_INCREMENT, Rmin.
  intros Hs; destruct (Rle_dec _ _); lra.
Qed.

Lemma ramped_nonneg (s : R) : 0 <= s -> 0 < ramped s.
Proof.
  unfold ramped, BALL_SPEED_MAX, BALL_SPEED_INCREMENT, Rmin.
  intros Hs; destruct (Rle_dec _ _); lra.
Qed.

Lemma served_consistent (d : Z) (u : R) (b : Ball.t) :
  d = 1%Z \/ d = (-1)%Z -> consistent (served d u b).
Proof.
  intros Hd; unfold consistent, magnitude, served; cbn [Ball.vx Ball.vy Ball.speed].
  apply polar_magnitude; [exact Hd | unfold BALL_SPEED_INITIAL; lra].
Qed.

Lemma bounced_consistent (paddle : Paddle.t) (is_right : bool) (b : Ball.t) :
  0 <= Ball.speed b -> consistent (bounced paddle is_right b).
Proof.
  intros Hs; unfold consistent, magnitude, bounced; cbn [Ball.vx Ball.vy Ball.speed].
  apply polar_magnitude.
  - destruct is_right; auto.
  - left; apply ramped_nonneg, Hs.
Qed.

Lemma consistent_speed_nonneg (b : Ball.t) : consistent b -> 0 <= Ball.speed b.
Proof. unfold consistent, magnitude; intros <-; apply sqrt_pos. Qed.

Lemma stepped_velocity (b : Ball.t) :
  Ball.vx (stepped b) = Ball.vx b /\ Ball.vy (stepped b) = Ball.vy b
  /\ Ball.speed (stepped b) = Ball.speed b.
Proof. repeat split. Qed.

Lemma walled_velocity (b : Ball.t) :
  Ball.vx (walled b) = Ball.vx b
  /\ (Ball.vy (walled b) = Ball.vy b \/ Ball.vy (walled b) = - Ball.vy b)
  /\ Ball.speed (walled b) = Ball.speed b.
Proof.
  unfold walled.
  destruct (Rect.top (Ball.rect b) <=? 0)%Z;
    [|destruct (Rect.bottom (Ball.rect b) >=? HEIGHT)%Z];
    cbn [Ball.vx Ball.vy Ball.speed]; repeat split; auto; right; ring.
Qed.

Lemma walled_consistent (b : Ball.t) : consistent b -> consistent (walled b).
Proof.
  unfold consistent, magnitude; intros Hb.
  destruct (walled_velocity b) as (Hx & Hy & Hs).
  rewrite Hx, Hs, <- Hb; f_equal.
  destruct Hy as [-> | ->]; ring.
Qed.

(** What [advanced] does to the velocity: it keeps it up to the sign of
    [vy], or it is a paddle bounce of a ball with the same speed. *)
Lemma advanced_cases (left right : Paddle.t) (b : Ball.t) :
  let b1 := walled (stepped b) in
  (advanced left right b = b1)
  \/ (hits_left left b1 = true /\ advanced left right b = bounced left false b1)
  \/ (hits_left left b1 = false /\ hits_right right b1 = true
      /\ advanced left right b = bounced right true b1).
Proof.
  intros b1; unfold advanced, paddled; fold b1.
  destruct (hits_left left b1); [right; left; auto|].
  destruct (hits_right right b1); [right; right; auto | left; auto].
Qed.

Lemma walled_stepped_speed (b : Ball.t) :
  Ball.speed (walled (stepped b)) = Ball.speed b.
Proof. destruct (walled_velocity (stepped b)) as (_ & _ & ->); reflexivity. Qed.

Lemma advanced_consistent (left right : Paddle.t) (b : Ball.t) :
  consistent b -> consistent (advanced left right b).
Proof.
  intros Hb.
  assert (H1 : consistent (walled (stepped b))).
  { apply walled_consistent; exact Hb. }
  destruct (advanced_cases left right b) as [-> | [[_ ->] | (_ & _ & ->)]]; auto;
    apply bounced_consistent, consistent_speed_nonneg, H1.
Qed.

Lemma advanced_speed (left right : Paddle.t) (b : Ball.t) :
  Ball.speed (advanced left right b) = Ball.speed b
  \/ Ball.speed (advanced left right b) = ramped (Ball.speed b).
Proof.
  destruct (advanced_cases left right b) as [-> | [[_ ->] | (_ & _ & ->)]];
    [left | right | right]; cbn [bounced Ball.speed];
    rewrite walled_stepped_speed; reflexivity.
Qed.

Lemma scored_cases (u : R) (b : Ball.t) :
  ((Rect.right (Ball.rect b) < 0)%Z /\ scored u b = ((0%Z, 1%Z), served (-1) u b))
  \/ ((0 <= Rect.right (Ball.rect b))%Z /\ (WIDTH < Rect.left (Ball.rect b))%Z
      /\ scored u b = ((1%Z, 0%Z), served 1 u b))
  \/ ((0 <= Rect.right (Ball.rect b))%Z /\ (Rect.left (Ball.rect b) <= WIDTH)%Z
      /\ scored u b = ((0%Z, 0%Z), b)).
Proof.
  unfold scored.
  destruct (Rect.right (Ball.rect b) <? 0)%Z eqn:E1;
    [apply Z.ltb_lt in E1; left; auto | apply Z.ltb_ge in E1; right].
  destruct (Rect.left (Ball.rect b) >? WIDTH)%Z eqn:E2; rewrite Z.gtb_ltb in E2;
    [apply Z.ltb_lt in E2; left; auto | apply Z.ltb_ge in E2; right; auto].
Qed.

(** ** Ball: one operation at a time *)

Lemma exec_update (left right : Paddle.t) (u : R) (b : Ball.t) :
  exec (Ball.update left right u) b = snd (scored u (advanced left right b)).
Proof. unfold exec; rewrite update_run; reflexivity. Qed.


Lemma exec_do_update (left right : Paddle.t) (u : R) (b : Ball.t) :
  exec (do_op (DoUpdate left right u)) b = exec (Ball.update left right u) b.
Proof.
  unfold exec, do_op, bind; rewrite update_run; reflexivity.
Qed.

Lemma exec_bounce (paddle : Paddle.t) (is_right : bool) (b : Ball.t) :
  (Rect.height (Paddle.rect paddle) <> 0%Z
   /\ exec (Ball._bounce_off_paddle paddle is_right) b = bounced paddle is_right b)
  \/ (Rect.height (Paddle.rect paddle) = 0%Z
      /\ exec (Ball._bounce_off_paddle paddle is_right) b
         = Ball.with_rect (flush paddle is_right) b).
Proof.
  unfold exec.
  destruct (Z.eq_dec (Rect.height (Paddle.rect paddle)) 0) as [E|E].
  - right; split; [exact E|]; rewrite bounce_raises by exact E; reflexivity.
  - left; split; [exact E|]; rewrite bounce_run by exact E; reflexivity.
Qed.

Lemma served_speed_bounded (d : Z) (u : R) (b : Ball.t) :
  speed_bounded (served d u b).
Proof.
  unfold speed_bounded, served, BALL_SPEED_INITIAL, BALL_SPEED_MAX;
    cbn [Ball.speed]; lra.
Qed.

Lemma advanced_speed_bounded (left right : Paddle.t) (b : Ball.t) :
  speed_bounded b ->
  speed_bounded (advanced left right b)
  /\ Ball.speed b <= Ball.speed (advanced left right b).
Proof.
  unfold speed_bounded; intros Hb.
  destruct (ramped_bounds _ Hb) as [H1 H2].
  destruct (advanced_speed left right b) as [-> | ->]; lra.
Qed.

Lemma op_speed (o : ball_op) (b : Ball.t) :
  speed_bounded b ->
  speed_bounded (exec (do_op o) b)
  /\ (calls_reset o b = true /\ Ball.speed (exec (do_op o) b) = BALL_SPEED_INITIAL
      \/ calls_reset o b = false /\ Ball.speed b <= Ball.speed (exec (do_op o) b)).
Proof.
  intros Hb; destruct o as [p r | d u | l r u].
  - cbn [calls_reset do_op].
    destruct (exec_bounce p r b) as [[_ ->] | [_ ->]].
    + destruct (ramped_bounds _ Hb) as [H1 H2].
      unfold speed_bounded, bounced; cbn [Ball.speed]; split; [lra | right; auto].
    + split; [exact Hb | right; split; [reflexivity | apply Rle_refl]].
  - cbn [do_op calls_reset]; unfold exec; rewrite reset_run; cbn [snd].
    split; [apply served_speed_bounded | left; auto].
  - rewrite exec_do_update, exec_update; cbn [calls_reset].
    destruct (advanced_speed_bounded l r b Hb) as [H1 H2].
    destruct (scored_cases u (advanced l r b))
      as [[E ->] | [(E1 & E2 & ->) | (E1 & E2 & ->)]]; cbn [snd].
    + split; [apply served_speed_bounded | left; split; [|reflexivity]].
      apply Z.ltb_lt in E; rewrite E; reflexivity.
    + split; [apply served_speed_bounded | left; split; [|reflexivity]].
      apply Z.ltb_lt in E2; rewrite Z.gtb_ltb, E2; apply orb_true_r.
    + split; [exact H1 | right; split; [|exact H2]].
      apply Z.ltb_ge in E1, E2; rewrite Z.gtb_ltb, E1, E2; reflexivity.
Qed.

Lemma trace_speed_bounded (ops : list ball_op) (b : Ball.t) :
  speed_bounded b -> Forall speed_bounded (trace ops b).
Proof.
  revert b; induction ops as [|o ops IH]; intros b Hb; cbn [trace].
  - constructor.
  - destruct (op_speed o b Hb) as [H _]; constructor; [exact H | apply IH, H].
Qed.

(** ** The claims about the ball *)

(** C2.  Starting from a ball constructed with speed [BALL_SPEED_INITIAL],
    the speed scalar stays between [BALL_SPEED_INITIAL] and [BALL_SPEED_MAX]
    after every operation of every sequence of bounces, resets and updates.
    A paddle bounce that completes sets the speed to the old speed plus the
    increment, capped at [BALL_SPEED_MAX]; [reset] sets it to
    [BALL_SPEED_INITIAL]; and an operation that does not call [reset] never
    lowers the speed. *)
Theorem speed_stays_within_bounds :
  (forall (rect : Rect.t) (u : R) (direction : Z) (ops : list ball_op),
      exists b0,
        Ball.__init__ rect BALL_SPEED_INITIAL u direction = inr b0
        /\ Forall speed_bounded (b0 :: trace ops b0))
  /\ (forall (paddle : Paddle.t) (is_right : bool) (b : Ball.t),
         outcome (Ball._bounce_off_paddle paddle is_right) b = inr tt ->
         Ball.speed (exec (Ball._bounce_off_paddle paddle is_right) b)
         = Rmin BALL_SPEED_MAX (Ball.speed b + BALL_SPEED_INCREMENT))
  /\ (forall (direction : Z) (u : R) (b : Ball.t),
         Ball.speed (exec (Ball.reset direction u) b) = BALL_SPEED_INITIAL)
  /\ (forall (o : ball_op) (b : Ball.t),
         speed_bounded b ->
         calls_reset o b = false ->
         Ball.speed b <= Ball.speed (exec (do_op o) b)).
Proof.
  repeat split.
  - intros rect u direction ops; eexists; split; [reflexivity|].
    assert (H0 : speed_bounded
                   (Ball.mk rect
                      (cos (Ball.launch_angle u) * BALL_SPEED_INITIAL * IZR direction)
                      (sin (Ball.launch_angle u) * BALL_SPEED_INITIAL)
                      BALL_SPEED_INITIAL)).
    { unfold speed_bounded, BALL_SPEED_INITIAL, BALL_SPEED_MAX;
        cbn [Ball.speed]; lra. }
    constructor; [exact H0 | apply trace_speed_bounded, H0].
  - intros paddle is_right b Hret.
    destruct (Z.eq_dec (Rect.height (Paddle.rect paddle)) 0) as [E|E].
    + unfold outcome in Hret; rewrite bounce_raises in Hret by exact E.
      discriminate.
    + unfold exec; rewrite bounce_run by exact E; reflexivity.
  - intros o b Hb Hno.
    destruct (op_speed o b Hb) as [_ [[Hyes _] | [_ Hle]]];
      [congruence | exact Hle].
Qed.

Lemma speed_stays_within_bounds_witness :
  let b := mid_field in
  Ball.speed (exec (Ball._bounce_off_paddle main_left_paddle false) b)
  = Rmin BALL_SPEED_MAX (Ball.speed b + BALL_SPEED_INCREMENT)
  /\ Ball.speed b <= Ball.speed (exec (do_op (DoBounce main_left_paddle false)) b).
Proof.
  destruct speed_stays_within_bounds as (_ & Hbounce & _ & Hmono).
  split.
  - apply Hbounce.
    unfold outcome; rewrite bounce_run; [reflexivity | discriminate].
  - apply Hmono; [|reflexivity].
    unfold speed_bounded, mid_field, BALL_SPEED_INITIAL, BALL_SPEED_MAX;
      cbn [Ball.speed]; lra.
Defined.

Lemma update_goal_left (left right : Paddle.t) (u : R) (b : Ball.t) :
  (Rect.right (Ball.rect (advanced left right b)) < 0)%Z ->
  Ball.update left right u b
  = (inr (0%Z, 1%Z), served (-1) u (advanced left right b)).
Proof.
  intros H; rewrite update_run.
  destruct (scored_cases u (advanced left right b))
    as [[_ ->] | [(E & _) | (E & _)]]; [reflexivity | lia | lia].
Qed.


Lemma update_no_goal (left right : Paddle.t) (u : R) (b : Ball.t) :
  (0 <= Rect.right (Ball.rect (advanced left right b)))%Z ->
  (Rect.left (Ball.rect (advanced left right b)) <= WIDTH)%Z ->
  Ball.update left right u b = (inr (0%Z, 0%Z), advanced left right b).
Proof.
  intros H1 H2; rewrite update_run.
  destruct (scored_cases u (advanced left right b))
    as [[E _] | [(_ & E & _) | (_ & _ & ->)]]; [lia | lia | reflexivity].
Qed.


(** The ball [leaving_left] reaches the scoring step of [update] six pixels
    further left, untouched by walls and paddles. *)
Lemma leaving_left_advanced :
  advanced main_left_paddle main_right_paddle leaving_left
  = Ball.mk (Rect.mk (-26) 294 12 12) (-6) 0 6.
Proof.
  unfold advanced.
  assert (Hs : stepped leaving_left = Ball.mk (Rect.mk (-26) 294 12 12) (-6) 0 6).
  { unfold stepped, leaving_left; cbn [Ball.rect Ball.vx Ball.vy Ball.speed
                                        Rect.x Rect.y Rect.w Rect.h].
    rewrite !py_int_IZR; reflexivity. }
  rewrite Hs; reflexivity.
Qed.





(** C3.  In real arithmetic the magnitude of the velocity equals the speed
    scalar after every [reset] (called, as [update] does, with direction
    [+1] or [-1]), after every paddle bounce of a ball whose speed scalar is
    not negative, and hence after every [update] of a ball for which the two
    were equal before: walls only negate [vy], and bounce and reset rebuild
    [vx] and [vy] as [cos angle * speed] and [sin angle * speed]. *)
Theorem velocity_magnitude_is_speed :
  (forall (direction : Z) (u : R) (b : Ball.t),
      direction = 1%Z \/ direction = (-1)%Z ->
      magnitude (exec (Ball.reset direction u) b)
      = Ball.speed (exec (Ball.reset direction u) b))
  /\ (forall (paddle : Paddle.t) (is_right : bool) (b : Ball.t),
         0 <= Ball.speed b ->
         outcome (Ball._bounce_off_paddle paddle is_right) b = inr tt ->
         magnitude (exec (Ball._bounce_off_paddle paddle is_right) b)
         = Ball.speed (exec (Ball._bounce_off_paddle paddle is_right) b))
  /\ (forall (left right : Paddle.t) (u : R) (b : Ball.t),
         magnitude b = Ball.speed b ->
         magnitude (exec (Ball.update left right u) b)
         = Ball.speed (exec (Ball.update left right u) b)).
Proof.
  repeat split.
  - intros direction u b Hd; apply (served_consistent direction u b Hd).
  - intros paddle is_right b Hs Hret.
    destruct (exec_bounce paddle is_right b) as [[_ ->] | [E _]].
    + apply bounced_consistent, Hs.
    + unfold outcome in Hret; rewrite bounce_raises in Hret by exact E.
      discriminate.
  - intros left right u b Hb; rewrite exec_update.
    pose proof (advanced_consistent left right b Hb) as Ha.
    destruct (scored_cases u (advanced left right b))
      as [[_ ->] | [(_ & _ & ->) | (_ & _ & ->)]]; cbn [snd];
      [apply served_consistent; auto | apply served_consistent; auto | exact Ha].
Qed.

Lemma mid_field_consistent : consistent mid_field.
Proof.
  unfold consistent, magnitude, mid_field; cbn [Ball.vx Ball.vy Ball.speed].
  replace (-6 * -6 + 0 * 0) with (6 * 6) by ring.
  apply sqrt_square; lra.
Qed.

Lemma velocity_magnitude_is_speed_witness :
  consistent (exec (Ball.reset 1 0.5) mid_field)
  /\ consistent (exec (Ball._bounce_off_paddle main_left_paddle false) mid_field)
  /\ consistent (exec (Ball.update main_left_paddle main_right_paddle 0.5)
                      mid_field).
Proof.
  destruct velocity_magnitude_is_speed as (Hreset & Hbounce & Hupdate).
  split; [|split].
  - apply (Hreset 1%Z 0.5 mid_field); left; reflexivity.
  - apply Hbounce.
    + unfold mid_field; cbn [Ball.speed]; lra.
    + unfold outcome; rewrite bounce_run; [reflexivity | discriminate].
  - apply Hupdate, mid_field_consistent.
Defined.

Lemma mid_field_advanced :
  advanced main_left_paddle main_right_paddle mid_field
  = Ball.mk (Rect.mk 388 294 12 12) (-6) 0 6.
Proof.
  unfold advanced.
  assert (Hs : stepped mid_field = Ball.mk (Rect.mk 388 294 12 12) (-6) 0 6).
  { unfold stepped, mid_field; cbn [Ball.rect Ball.vx Ball.vy Ball.speed
                                     Rect.x Rect.y Rect.w Rect.h].
    rewrite !py_int_IZR; reflexivity. }
  rewrite Hs; reflexivity.
Qed.

Lemma flush_centery (paddle : Paddle.t) (is_right : bool) (r : Rect.t) :
  Rect.centery (flush paddle is_right r) = Rect.centery r.
Proof. destruct is_right; reflexivity. Qed.

Lemma clamp_offset_high (o : R) : 1 <= o -> Ball.clamp_offset o = 1.
Proof.
  intros Ho; unfold Ball.clamp_offset, Rmax, Rmin.
  destruct (Rle_dec 1.0 o); destruct (Rle_dec _ _); lra.
Qed.

Lemma clamp_offset_low (o : R) : o <= -1 -> Ball.clamp_offset o = -1.
Proof.
  intros Ho; unfold Ball.clamp_offset, Rmax, Rmin.
  destruct (Rle_dec 1.0 o); destruct (Rle_dec _ _); lra.
Qed.

Lemma clamp_offset_zero : Ball.clamp_offset 0 = 0.
Proof.
  unfold Ball.clamp_offset, Rmax, Rmin.
  destruct (Rle_dec 1.0 0); destruct (Rle_dec _ _); lra.
Qed.

(** C5.  A ball whose vertical centre equals the paddle's, bounced off the
    left paddle, leaves with [vx > 0] and [vy = 0].  A bounce with impact
    offset [+1] or [-1] leaves at the angle [0.45 * PI] or [-0.45 * PI] from
    the horizontal, and no bounce leaves at a larger angle.  (The paddle's
    height is not zero and the ball's speed scalar is not negative.) *)
Theorem dead_center_bounce_is_horizontal :
  (forall (paddle : Paddle.t) (b : Ball.t),
      Rect.height (Paddle.rect paddle) <> 0%Z ->
      0 <= Ball.speed b ->
      Rect.centery (Ball.rect b) = Rect.centery (Paddle.rect paddle) ->
      outcome (Ball._bounce_off_paddle paddle false) b = inr tt
      /\ 0 < Ball.vx (exec (Ball._bounce_off_paddle paddle false) b)
      /\ Ball.vy (exec (Ball._bounce_off_paddle paddle false) b) = 0)
  /\ (forall (paddle : Paddle.t) (is_right : bool) (b : Ball.t),
         Rect.height (Paddle.rect paddle) <> 0%Z ->
         let offset :=
           IZR (Rect.centery (Ball.rect b) - Rect.centery (Paddle.rect paddle))
           / (IZR (Rect.height (Paddle.rect paddle)) / 2) in
         let b' := exec (Ball._bounce_off_paddle paddle is_right) b in
         let direction := IZR (if is_right then -1 else 1) in
         (offset = 1 ->
          Ball.vx b' = cos (0.45 * PI) * Ball.speed b' * direction
          /\ Ball.vy b' = sin (0.45 * PI) * Ball.speed b')
         /\ (offset = -1 ->
             Ball.vx b' = cos (- (0.45 * PI)) * Ball.speed b' * direction
             /\ Ball.vy b' = sin (- (0.45 * PI)) * Ball.speed b')
         /\ (exists angle : R,
               - (0.45 * PI) <= angle <= 0.45 * PI
               /\ Ball.vx b' = cos angle * Ball.speed b' * direction
               /\ Ball.vy b' = sin angle * Ball.speed b')).
Proof.
  split.
  - intros paddle b Hh Hs Hc.
    unfold outcome, exec; rewrite bounce_run by exact Hh; cbn [fst snd].
    split; [reflexivity|].
    unfold bounced, impact_offset; cbn [Ball.vx Ball.vy].
    rewrite flush_centery, Hc, Z.sub_diag.
    replace (0 / (IZR (Rect.height (Paddle.rect paddle)) / 2)) with 0
      by (unfold Rdiv; ring).
    rewrite clamp_offset_zero.
    unfold Ball.bounce_angle; rewrite Rmult_0_l, cos_0, sin_0; simpl IZR.
    pose proof (ramped_nonneg _ Hs); split; lra.
  - intros paddle is_right b Hh offset b' direction.
    subst b'; unfold exec; rewrite bounce_run by exact Hh; cbn [snd].
    unfold bounced, impact_offset; cbn [Ball.vx Ball.vy Ball.speed].
    rewrite flush_centery; fold offset; fold direction.
    split; [|split].
    + intros ->; rewrite clamp_offset_high by lra.
      unfold Ball.bounce_angle; rewrite Rmult_1_l; auto.
    + intros ->; rewrite clamp_offset_low by lra.
      unfold Ball.bounce_angle.
      replace (-1 * (0.45 * PI)) with (- (0.45 * PI)) by ring; auto.
    + exists (Ball.bounce_angle (Ball.clamp_offset offset)); split; [|auto].
      apply bounce_angle_range, clamp_offset_range.
Qed.

Lemma dead_center_bounce_is_horizontal_witness :
  (outcome (Ball._bounce_off_paddle main_left_paddle false) mid_field = inr tt
   /\ 0 < Ball.vx (exec (Ball._bounce_off_paddle main_left_paddle false) mid_field)
   /\ Ball.vy (exec (Ball._bounce_off_paddle main_left_paddle false) mid_field) = 0)
  /\ (let b' := exec (Ball._bounce_off_paddle main_left_paddle false) low_hit in
      Ball.vx b' = cos (0.45 * PI) * Ball.speed b' * 1
      /\ Ball.vy b' = sin (0.45 * PI) * Ball.speed b')
  /\ (let b' := exec (Ball._bounce_off_paddle main_left_paddle false) high_hit in
      Ball.vx b' = cos (- (0.45 * PI)) * Ball.speed b' * 1
      /\ Ball.vy b' = sin (- (0.45 * PI)) * Ball.speed b').
Proof.
  destruct dead_center_bounce_is_horizontal as [Hdead Hmax].
  assert (Hh : Rect.height (Paddle.rect main_left_paddle) <> 0%Z) by discriminate.
  split; [|split].
  - apply Hdead; [exact Hh | | reflexivity].
    unfold mid_field; cbn [Ball.speed]; lra.
  - apply (Hmax main_left_paddle false low_hit Hh).
    unfold low_hit, main_left_paddle, Rect.centery, Rect.height;
      cbn [Ball.rect Paddle.rect Rect.y Rect.h Z.shiftr]; simpl; lra.
  - apply (Hmax main_left_paddle false high_hit Hh).
    unfold high_hit, main_left_paddle, Rect.centery, Rect.height;
      cbn [Ball.rect Paddle.rect Rect.y Rect.h Z.shiftr]; simpl; lra.
Defined.

(** ** The constructors *)

(** C10, as stated, fails: a paddle with a negative width and taller than
    the field, and a ball with a speed above [BALL_SPEED_MAX] on an empty
    rectangle, are constructed like any other; no constructor raises. *)
Lemma misconfigured_entities_are_constructed :
  Paddle.__init__ (Rect.mk 32 0 (-12) 700) 0
  = inr (Paddle.mk (Rect.mk 32 0 (-12) 700) 0)
  /\ (exists b, Ball.__init__ (Rect.mk 0 0 0 0) 20.0 0.5 1 = inr b
                /\ Ball.speed b = 20.0 /\ BALL_SPEED_MAX < Ball.speed b).
Proof.
  split; [reflexivity|].
  eexists; split; [reflexivity|]; cbn [Ball.speed]; unfold BALL_SPEED_MAX.
  split; [reflexivity | lra].
Qed.

(** C10, amended.  The constructors validate nothing: for every rectangle
    and speed, whether or not they meet the preconditions, [Paddle] and
    [Ball] are constructed without an error and hold the values given; the
    entities of [main] are constructed as well. *)
Theorem constructors_validate_nothing :
  (forall (rect : Rect.t) (speed : Z),
      Paddle.__init__ rect speed = inr (Paddle.mk rect speed))
  /\ (forall (rect : Rect.t) (speed u : R) (direction : Z),
         Ball.__init__ rect speed u direction
         = inr (Ball.mk rect
                        (cos (Ball.launch_angle u) * speed * IZR direction)
                        (sin (Ball.launch_angle u) * speed)
                        speed))
  /\ (forall (u : R) (direction : Z),
         exists w, Game.setup u direction = inr w).
Proof.
  repeat split.
  intros u direction; eexists; reflexivity.
Qed.

(** ** AIPaddleController *)

Lemma ai_update_run (now : Z) (z : R) (ball : Ball.t)
      (a : AIPaddleController.t) (p : Paddle.t) :
  AIPaddleController.update now z ball (a, p)
  = (inr tt,
     (retargeted now z ball a,
      moved (pursuit_step (retargeted now z ball a) p) p)).
Proof.
  unfold AIPaddleController.update, retargeted, pursuit_step.
  unfold bind at 1, get at 1; cbn [fst snd].
  destruct (now - AIPaddleController.last_update_time a
            >=? AIPaddleController.update_interval_ms a)%Z.
  - destruct (Rgtb (Ball.vx ball) 0);
      unfold bind, get, AIPaddleController.on_self, AIPaddleController.on_paddle,
        modify; cbn [fst snd]; rewrite move_run; reflexivity.
  - unfold bind, get, ret, AIPaddleController.on_paddle; cbn [fst snd].
    rewrite move_run; reflexivity.
Qed.


Lemma retargeted_interval (now : Z) (z : R) (ball : Ball.t)
      (a : AIPaddleController.t) :
  AIPaddleController.update_interval_ms (retargeted now z ball a)
  = AIPaddleController.update_interval_ms a.
Proof.
  unfold retargeted.
  destruct (_ >=? _)%Z; [|reflexivity].
  destruct (Rgtb (Ball.vx ball) 0); reflexivity.
Qed.

Lemma limited_step_cases (p : Paddle.t) (dy : R) :
  (Rabs dy <= IZR (Paddle.speed p) /\ AIPaddleController.limited_step p dy = dy)
  \/ (IZR (Paddle.speed p) < Rabs dy /\ 0 < dy
      /\ AIPaddleController.limited_step p dy = IZR AI_PADDLE_SPEED)
  \/ (IZR (Paddle.speed p) < Rabs dy /\ dy <= 0
      /\ AIPaddleController.limited_step p dy = IZR (- AI_PADDLE_SPEED)).
Proof.
  unfold AIPaddleController.limited_step, Rgtb.
  destruct (Rltb (IZR (Paddle.speed p)) (Rabs dy)) eqn:E1.
  - apply Rltb_true in E1; right.
    destruct (Rltb 0 dy) eqn:E2;
      [apply Rltb_true in E2; left | apply Rltb_false in E2; right]; auto.
  - apply Rltb_false in E1; left; auto.
Qed.

(** The truncated step is at most the AI speed constant when the paddle's
    own speed cap is. *)
Lemma limited_step_bound (p : Paddle.t) (dy : R) :
  (Paddle.speed p <= AI_PADDLE_SPEED)%Z ->
  (Z.abs (py_int (AIPaddleController.limited_step p dy)) <= AI_PADDLE_SPEED)%Z.
Proof.
  intros Hs.
  destruct (limited_step_cases p dy) as [[H ->] | [(_ & _ & ->) | (_ & _ & ->)]].
  - apply IZR_le in Hs.
    assert (Hd : Rabs dy <= IZR AI_PADDLE_SPEED) by lra.
    apply le_IZR; rewrite abs_IZR.
    destruct (Rle_dec 0 dy) as [Hp | Hn].
    + pose proof (py_int_nonneg dy Hp).
      rewrite Rabs_pos_eq in Hd |- * by lra; lra.
    + assert (Hn' : dy < 0) by lra; pose proof (py_int_neg dy Hn').
      rewrite Rabs_left1 by lra; rewrite Rabs_left in Hd by lra; lra.
  - rewrite py_int_IZR; unfold AI_PADDLE_SPEED; lia.
  - rewrite py_int_IZR; unfold AI_PADDLE_SPEED; lia.
Qed.

Lemma launch_angle_sixty : Ball.launch_angle (41 / 42) = PI / 3.
Proof. unfold Ball.launch_angle, uniform; lra. Qed.

Lemma steep_launch_vx : Ball.vx steep_launch = 3.
Proof.
  unfold steep_launch; cbn [Ball.vx].
  rewrite launch_angle_sixty, cos_PI3; unfold BALL_SPEED_INITIAL; lra.
Qed.

Lemma steep_launch_sigma : AIPaddleController.aim_sigma steep_launch = 31.6.
Proof.
  unfold AIPaddleController.aim_sigma; rewrite steep_launch_vx.
  change (IZR (Z.max 1 (WIDTH - Rect.centerx (Ball.rect steep_launch))))
    with 400.
  rewrite Rabs_pos_eq by lra.
  unfold Rmax, Rmin; destruct (Rle_dec 1.0 3); [|lra].
  destruct (Rle_dec _ _); lra.
Qed.

Lemma aim_sigma_monotone (b1 b2 : Ball.t) :
  (Rect.centerx (Ball.rect b2) <= Rect.centerx (Ball.rect b1))%Z ->
  Rabs (Ball.vx b1) <= Rabs (Ball.vx b2) ->
  AIPaddleController.aim_sigma b1 <= AIPaddleController.aim_sigma b2.
Proof.
  intros Hc Hv; unfold AIPaddleController.aim_sigma.
  assert (Hd : IZR (Z.max 1 (WIDTH - Rect.centerx (Ball.rect b1)))
               <= IZR (Z.max 1 (WIDTH - Rect.centerx (Ball.rect b2))))
    by (apply IZR_le; lia).
  assert (Hs : Rmax 1.0 (Rabs (Ball.vx b1)) <= Rmax 1.0 (Rabs (Ball.vx b2))).
  { unfold Rmax; destruct (Rle_dec _ _); destruct (Rle_dec _ _); lra. }
  unfold Rmin; destruct (Rle_dec _ _); destruct (Rle_dec _ _); lra.
Qed.

(** C7, as stated, fails: for a ball launched from the centre at 60 degrees
    the code's standard deviation is 31.6, while the formula on the distance
    to the paddle and the ball's speed gives 33.3 (and 35.2 on the distance
    to the right edge of the field); the target the controller stores is
    the one built from 31.6. *)
Lemma aim_error_is_not_the_specified_formula :
  let b := steep_launch in
  let s' := exec (AIPaddleController.update 120 1 b)
                 (AIPaddleController.__init__, main_right_paddle) in
  AIPaddleController.aim_sigma b = 31.6
  /\ sigma_as_specified (distance_to_paddle b main_right_paddle) (Ball.speed b)
     = 33.3
  /\ sigma_as_specified (IZR (WIDTH - Rect.centerx (Ball.rect b))) (Ball.speed b)
     = 35.2
  /\ AIPaddleController.target_center_y (fst s')
     = IZR (Rect.centery (Ball.rect b)) + gauss 0 31.6 1
  /\ AIPaddleController.target_center_y (fst s')
     <> IZR (Rect.centery (Ball.rect b))
        + gauss 0 (sigma_as_specified (distance_to_paddle b main_right_paddle)
                                      (Ball.speed b)) 1.
Proof.
  cbv zeta.
  assert (H1 : sigma_as_specified
                 (distance_to_paddle steep_launch main_right_paddle)
                 (Ball.speed steep_launch) = 33.3).
  { unfold sigma_as_specified.
    change (distance_to_paddle steep_launch main_right_paddle) with 362.
    change (Ball.speed steep_launch) with 6.0.
    unfold Rmin; destruct (Rle_dec _ _); lra. }
  assert (H2 : AIPaddleController.target_center_y
                 (fst (exec (AIPaddleController.update 120 1 steep_launch)
                            (AIPaddleController.__init__, main_right_paddle)))
               = IZR (Rect.centery (Ball.rect steep_launch)) + gauss 0 31.6 1).
  { unfold exec; rewrite ai_update_run; cbn [fst snd].
    unfold retargeted.
    change (120 - AIPaddleController.last_update_time AIPaddleController.__init__
            >=? AIPaddleController.update_interval_ms AIPaddleController.__init__)%Z
      with true; cbv iota.
    assert (Hv : Rgtb (Ball.vx steep_launch) 0 = true)
      by (apply Rltb_true; rewrite steep_launch_vx; lra).
    rewrite Hv, steep_launch_sigma; cbn [AIPaddleController.target_center_y
                                          AIPaddleController.set_target_center_y].
    unfold gauss; lra. }
  split; [apply steep_launch_sigma | split; [exact H1 | split; [|split]]].
  - unfold sigma_as_specified.
    change (IZR (WIDTH - Rect.centerx (Ball.rect steep_launch))) with 400.
    change (Ball.speed steep_launch) with 6.0.
    unfold Rmin; destruct (Rle_dec _ _); lra.
  - exact H2.
  - rewrite H2, H1; unfold gauss; lra.
Qed.

(** C7, amended.  On every target recompute while the ball approaches
    ([vx > 0]) the noise standard deviation is
    [min(80, 8 + d / 20 + v * 1.2)], where [d = max(1, WIDTH - centerx)] is
    the horizontal distance from the ball's centre to the right edge of the
    field and [v = max(1, |vx|)] the ball's horizontal speed; it does not
    decrease when the ball is farther or horizontally faster; and the new
    target is the ball's vertical centre plus the draw
    [random.gauss(0, sigma)], that is the standard normal draw scaled by
    [sigma]. *)
Theorem aim_error_grows_with_distance_and_speed :
  (forall (now : Z) (z : R) (ball : Ball.t)
          (a : AIPaddleController.t) (p : Paddle.t),
      (now - AIPaddleController.last_update_time a
       >= AIPaddleController.update_interval_ms a)%Z ->
      0 < Ball.vx ball ->
      let s' := exec (AIPaddleController.update now z ball) (a, p) in
      let sigma :=
        Rmin 80 (8 + IZR (Z.max 1 (WIDTH - Rect.centerx (Ball.rect ball))) / 20
                 + Rmax 1 (Rabs (Ball.vx ball)) * 1.2) in
      AIPaddleController.aim_sigma ball = sigma
      /\ AIPaddleController.target_center_y (fst s')
         = IZR (Rect.centery (Ball.rect ball)) + gauss 0 sigma z
      /\ gauss 0 sigma z = z * sigma
      /\ AIPaddleController.last_update_time (fst s') = now)
  /\ (forall b1 b2 : Ball.t,
         (Rect.centerx (Ball.rect b2) <= Rect.centerx (Ball.rect b1))%Z ->
         Rabs (Ball.vx b1) <= Rabs (Ball.vx b2) ->
         AIPaddleController.aim_sigma b1 <= AIPaddleController.aim_sigma b2).
Proof.
  split; [|exact aim_sigma_monotone].
  intros now z ball a p Hdue Hvx; cbv zeta.
  assert (Hsig : AIPaddleController.aim_sigma ball
                 = Rmin 80 (8 + IZR (Z.max 1 (WIDTH - Rect.centerx (Ball.rect ball)))
                                / 20
                            + Rmax 1 (Rabs (Ball.vx ball)) * 1.2)).
  { unfold AIPaddleController.aim_sigma.
    replace 80.0 with 80 by lra; replace 8.0 with 8 by lra;
      replace 20.0 with 20 by lra; replace 1.0 with 1 by lra; reflexivity. }
  rewrite <- Hsig.
  unfold exec; rewrite ai_update_run; cbn [fst snd].
  unfold retargeted.
  assert (Hd : (now - AIPaddleController.last_update_time a
                >=? AIPaddleController.update_interval_ms a)%Z = true)
    by (rewrite Z.geb_leb; apply Z.leb_le; lia).
  assert (Hv : Rgtb (Ball.vx ball) 0 = true) by (apply Rltb_true, Hvx).
  rewrite Hd, Hv.
  cbn [AIPaddleController.target_center_y AIPaddleController.last_update_time
       AIPaddleController.set_target_center_y
       AIPaddleController.set_last_update_time].
  repeat split.
  - unfold gauss; lra.
  - unfold gauss; lra.
Qed.

Lemma aim_error_grows_with_distance_and_speed_witness :
  (AIPaddleController.target_center_y
     (fst (exec (AIPaddleController.update 120 1 steep_launch)
                (AIPaddleController.__init__, main_right_paddle)))
   = IZR (Rect.centery (Ball.rect steep_launch))
     + gauss 0 (Rmin 80 (8 + IZR (Z.max 1 (WIDTH - Rect.centerx
                                                      (Ball.rect steep_launch)))
                             / 20
                         + Rmax 1 (Rabs (Ball.vx steep_launch)) * 1.2)) 1)
  /\ AIPaddleController.aim_sigma leaving_right
     <= AIPaddleController.aim_sigma mid_field.
Proof.
  destruct aim_error_grows_with_distance_and_speed as [Hre Hmono].
  split.
  - apply (Hre 120%Z 1 steep_launch AIPaddleController.__init__ main_right_paddle).
    + cbn; discriminate.
    + rewrite steep_launch_vx; lra.
  - apply Hmono.
    + cbn; discriminate.
    + cbn [mid_field leaving_right Ball.vx].
      rewrite Rabs_pos_eq by lra; rewrite Rabs_left by lra; lra.
Defined.

(** ** The game loop

    The hypotheses the theorems above put on paddles and ball hold of the
    entities of [main] at every frame, and no frame raises. *)


Lemma frame_run (i : Game.Frame) (w : Game.World) :
  exists (left' : Paddle.t) (dy : R),
    (left' = Game.left_paddle w \/ left' = moved dy (Game.left_paddle w))
    /\ let upd := Ball.update left' (Game.right_paddle w) (Game.serve_draw i) in
       let ball' := exec upd (Game.ball w) in
       exists (l r : Z),
         outcome upd (Game.ball w) = inr (l, r)
         /\ Game.frame i w
            = (inr tt,
               Game.mkWorld
                 left'
                 (snd (exec (AIPaddleController.update
                               (Game.ticks i) (Game.aim_draw i) ball')
                            (Game.ai w, Game.right_paddle w)))
                 ball'
                 (fst (exec (AIPaddleController.update
                               (Game.ticks i) (Game.aim_draw i) ball')
                            (Game.ai w, Game.right_paddle w)))
                 (Game.score_left w + l) (Game.score_right w + r)).
Proof.
  unfold Game.frame.
  set (dy := (if Game.key_s i
              then ((if Game.key_w i then 0 - PADDLE_SPEED else 0) + PADDLE_SPEED)
              else (if Game.key_w i then 0 - PADDLE_SPEED else 0))%Z).
  destruct (negb (dy =? 0)%Z).
  - exists (moved (IZR dy) (Game.left_paddle w)), (IZR dy); split; [right; auto|].
    cbv zeta; unfold outcome, exec.
    unfold bind at 1, Game.on_left_paddle at 1; rewrite move_run.
    unfold bind at 1, get at 1; cbn [Game.left_paddle Game.right_paddle].
    unfold bind at 1, Game.on_ball at 1; cbn [Game.ball].
    rewrite update_run; cbn [fst snd].
    match goal with
    | |- context [inr (fst ?sc) = _] =>
        exists (fst (fst sc)), (snd (fst sc));
        split; [rewrite <- surjective_pairing; reflexivity|]
    end.
    unfold bind, Game.add_scores, modify, get, Game.on_ai;
      cbn [Game.ai Game.right_paddle Game.ball Game.left_paddle
           Game.score_left Game.score_right].
    rewrite ai_update_run; reflexivity.
  - exists (Game.left_paddle w), 0; split; [left; auto|].
    cbv zeta; unfold outcome, exec.
    unfold bind at 1, ret at 1.
    unfold bind at 1, get at 1.
    unfold bind at 1, Game.on_ball at 1.
    rewrite update_run; cbn [fst snd].
    match goal with
    | |- context [inr (fst ?sc) = _] =>
        exists (fst (fst sc)), (snd (fst sc));
        split; [rewrite <- surjective_pairing; reflexivity|]
    end.
    unfold bind, Game.add_scores, modify, get, Game.on_ai;
      cbn [Game.ai Game.right_paddle Game.ball Game.left_paddle
           Game.score_left Game.score_right].
    rewrite ai_update_run; destruct w; reflexivity.
Qed.





(* ================================================================== *)
(** * Further properties of the code *)

(** ** Numerics *)

Lemma py_int_small (r : R) : Rabs r < 1 -> py_int r = 0%Z.
Proof.
  intros H; unfold py_int; destruct (Rle_dec 0 r) as [Hp | Hn].
  - rewrite Rabs_pos_eq in H by exact Hp.
    symmetry; apply Int_part_spec; simpl; lra.
  - rewrite Rabs_left in H by lra.
    assert (E : Int_part (- r) = 0%Z)
      by (symmetry; apply Int_part_spec; simpl; lra).
    rewrite E; reflexivity.
Qed.

Lemma py_int_abs_le (r : R) (k : Z) :
  Rabs r <= IZR k -> (Z.abs (py_int r) <= k)%Z.
Proof.
  intros H; apply le_IZR; rewrite abs_IZR.
  destruct (Rle_dec 0 r) as [Hp | Hn].
  - pose proof (py_int_nonneg r Hp).
    rewrite Rabs_pos_eq in H |- * by lra; lra.
  - assert (Hn' : r < 0) by lra; pose proof (py_int_neg r Hn').
    rewrite Rabs_left1 by lra; rewrite Rabs_left in H by lra; lra.
Qed.


Lemma PI_upper_bound : PI < 3.1496.
Proof.
  destruct (PI_2_3_7_ineq 1) as [_ H].
  unfold sum_f_R0, tg_alt, PI_2_3_7_tg, Ratan_seq in H.
  simpl in H; lra.
Qed.

Lemma cos_max_deflection : 0 < cos (0.45 * PI) /\ cos (0.45 * PI) * 6.35 < 1.
Proof.
  pose proof PI_upper_bound; pose proof PI_RGT_0.
  assert (E : cos (0.45 * PI) = sin (0.05 * PI))
    by (rewrite <- sin_shift; f_equal; lra).
  rewrite E.
  assert (0 < sin (0.05 * PI)) by (apply sin_gt_0; lra).
  assert (sin (0.05 * PI) < 0.05 * PI) by (apply sin_lt_x; lra).
  lra.
Qed.

Lemma shiftr_1_div (z : Z) : Z.shiftr z 1 = (z / 2)%Z.
Proof. rewrite Z.shiftr_div_pow2 by lia; reflexivity. Qed.

(** ** Ball.reset *)

(** X1.  [reset] puts the centre of the ball at the centre of the field,
    whatever its size, keeps its size and sets its speed to the initial
    speed; so does an [update] that returns a score. *)
Theorem reset_recentres_the_ball :
  (forall (direction : Z) (u : R) (b : Ball.t),
      let b' := exec (Ball.reset direction u) b in
      Rect.centerx (Ball.rect b') = (WIDTH / 2)%Z
      /\ Rect.centery (Ball.rect b') = (HEIGHT / 2)%Z
      /\ Rect.w (Ball.rect b') = Rect.w (Ball.rect b)
      /\ Rect.h (Ball.rect b') = Rect.h (Ball.rect b)
      /\ Ball.speed b' = BALL_SPEED_INITIAL)
  /\ (forall (left right : Paddle.t) (u : R) (b : Ball.t) (l r : Z),
         outcome (Ball.update left right u) b = inr (l, r) ->
         (l, r) <> (0, 0)%Z ->
         let b' := exec (Ball.update left right u) b in
         Rect.centerx (Ball.rect b') = (WIDTH / 2)%Z
         /\ Rect.centery (Ball.rect b') = (HEIGHT / 2)%Z
         /\ Ball.speed b' = BALL_SPEED_INITIAL).
Proof.
  assert (Hserved : forall d u b,
             Rect.centerx (Ball.rect (served d u b)) = (WIDTH / 2)%Z
             /\ Rect.centery (Ball.rect (served d u b)) = (HEIGHT / 2)%Z).
  { intros d u b; unfold served, Rect.centerx, Rect.centery, Rect.set_center;
      cbn [Ball.rect Rect.x Rect.y Rect.w Rect.h fst snd]; lia. }
  split.
  - intros direction u b; cbv zeta; unfold exec; rewrite reset_run; cbn [snd].
    destruct (Hserved direction u b) as [Hx Hy].
    repeat split; assumption.
  - intros left right u b l r Hout Hgoal; cbv zeta.
    unfold outcome in Hout; unfold exec; rewrite update_run in Hout |- *.
    cbn [fst snd] in Hout |- *.
    destruct (scored_cases u (advanced left right b))
      as [[_ E] | [(_ & _ & E) | (_ & _ & E)]]; rewrite E in Hout |- *;
      cbn [fst snd] in Hout |- *.
    + destruct (Hserved (-1)%Z u (advanced left right b)); auto.
    + destruct (Hserved 1%Z u (advanced left right b)); auto.
    + congruence.
Qed.

Lemma reset_recentres_the_ball_witness :
  let b' := exec (Ball.update main_left_paddle main_right_paddle 0.5)
                 leaving_left in
  Rect.centerx (Ball.rect b') = (WIDTH / 2)%Z
  /\ Rect.centery (Ball.rect b') = (HEIGHT / 2)%Z
  /\ Ball.speed b' = BALL_SPEED_INITIAL.
Proof.
  destruct reset_recentres_the_ball as [_ H].
  apply (H main_left_paddle main_right_paddle 0.5 leaving_left 0%Z 1%Z).
  - unfold outcome; rewrite update_goal_left; [reflexivity|].
    rewrite leaving_left_advanced; reflexivity.
  - discriminate.
Defined.

(** ** Ball.update and the walls *)

Lemma walled_within (b : Ball.t) :
  (Rect.h (Ball.rect b) <= HEIGHT)%Z ->
  (0 <= Rect.top (Ball.rect (walled b)))%Z
  /\ (Rect.bottom (Ball.rect (walled b)) <= HEIGHT)%Z.
Proof.
  intros Hh; unfold walled, Rect.top, Rect.bottom.
  destruct (Rect.y (Ball.rect b) <=? 0)%Z eqn:E1;
    [apply Z.leb_le in E1 | apply Z.leb_gt in E1].
  - cbn [Ball.rect Rect.set_top Rect.set_y Rect.y Rect.h]; lia.
  - destruct (Rect.y (Ball.rect b) + Rect.h (Ball.rect b) >=? HEIGHT)%Z eqn:E2;
      rewrite Z.geb_leb in E2;
      [apply Z.leb_le in E2 | apply Z.leb_gt in E2].
    + unfold Rect.set_bottom; cbn [Ball.rect Rect.set_y Rect.y Rect.h]; lia.
    + lia.
Qed.

Lemma paddled_vertical (left right : Paddle.t) (b : Ball.t) :
  Rect.y (Ball.rect (paddled left right b)) = Rect.y (Ball.rect b)
  /\ Rect.h (Ball.rect (paddled left right b)) = Rect.h (Ball.rect b)
  /\ Rect.w (Ball.rect (paddled left right b)) = Rect.w (Ball.rect b).
Proof.
  unfold paddled.
  destruct (hits_left left b); [repeat split|].
  destruct (hits_right right b); repeat split.
Qed.

(** ** Ball._bounce_off_paddle *)

(** X4.  Whatever the impact point, a bounce sends the ball away from the
    paddle: after bouncing off the left paddle the ball moves right and its
    left edge is the paddle's right edge; after bouncing off the right
    paddle it moves left and its right edge is the paddle's left edge.  Its
    vertical position and its size are unchanged.  (The paddle's height is
    not zero and the ball's speed scalar is not negative.) *)
Theorem bounce_sends_the_ball_away
        (paddle : Paddle.t) (is_right : bool) (b : Ball.t) :
  Rect.height (Paddle.rect paddle) <> 0%Z ->
  0 <= Ball.speed b ->
  let b' := exec (Ball._bounce_off_paddle paddle is_right) b in
  (if is_right
   then Ball.vx b' < 0
        /\ Rect.right (Ball.rect b') = Rect.left (Paddle.rect paddle)
   else 0 < Ball.vx b'
        /\ Rect.left (Ball.rect b') = Rect.right (Paddle.rect paddle))
  /\ Rect.y (Ball.rect b') = Rect.y (Ball.rect b)
  /\ Rect.w (Ball.rect b') = Rect.w (Ball.rect b)
  /\ Rect.h (Ball.rect b') = Rect.h (Ball.rect b).
Proof.
  intros Hh Hs; cbv zeta; unfold exec; rewrite bounce_run by exact Hh; cbn [snd].
  pose proof (ramped_nonneg _ Hs) as Hr.
  pose proof (cos_bounce_angle_pos
                _ (clamp_offset_range
                     (IZR (Rect.centery (flush paddle is_right (Ball.rect b))
                           - Rect.centery (Paddle.rect paddle))
                      / (IZR (Rect.height (Paddle.rect paddle)) / 2)))) as Hc.
  fold (impact_offset paddle (flush paddle is_right (Ball.rect b))) in Hc.
  unfold bounced; cbn [Ball.vx Ball.rect].
  set (c := cos (Ball.bounce_angle
                   (impact_offset paddle (flush paddle is_right (Ball.rect b)))))
    in *.
  clearbody c.
  destruct is_right; cbn [flush]; simpl IZR;
    unfold Rect.right, Rect.left, Rect.set_right, Rect.set_left, Rect.set_x;
    cbn [Rect.x Rect.y Rect.w Rect.h].
  - repeat split; [nra | lia].
  - repeat split; nra.
Qed.

Lemma bounce_sends_the_ball_away_witness :
  let b' := exec (Ball._bounce_off_paddle main_left_paddle false) low_hit in
  (0 < Ball.vx b'
   /\ Rect.left (Ball.rect b') = Rect.right (Paddle.rect main_left_paddle))
  /\ Rect.y (Ball.rect b') = Rect.y (Ball.rect low_hit)
  /\ Rect.w (Ball.rect b') = Rect.w (Ball.rect low_hit)
  /\ Rect.h (Ball.rect b') = Rect.h (Ball.rect low_hit).
Proof.
  apply (bounce_sends_the_ball_away main_left_paddle false low_hit).
  - discriminate.
  - cbn [low_hit Ball.speed]; lra.
Defined.



Lemma ramped_again (s : R) (k : nat) :
  Rmin BALL_SPEED_MAX (ramped s + INR k * BALL_SPEED_INCREMENT)
  = Rmin BALL_SPEED_MAX (s + INR (S k) * BALL_SPEED_INCREMENT).
Proof.
  rewrite S_INR; pose proof (pos_INR k) as Hk.
  unfold ramped, BALL_SPEED_MAX, BALL_SPEED_INCREMENT, Rmin.
  repeat destruct (Rle_dec _ _); nra.
Qed.

Lemma run_bounces_speed (hits : list (Paddle.t * bool)) (b : Ball.t) :
  Forall (fun hit => Rect.height (Paddle.rect (fst hit)) <> 0%Z) hits ->
  Ball.speed b <= BALL_SPEED_MAX ->
  Ball.speed (run_ops (bounces hits) b)
  = Rmin BALL_SPEED_MAX
         (Ball.speed b + INR (length hits) * BALL_SPEED_INCREMENT).
Proof.
  intros Hh; revert b; induction Hh as [|[p side] hits Hp _ IH]; intros b Hb.
  - cbn [bounces map run_ops fold_left length INR].
    unfold Rmin; destruct (Rle_dec _ _); lra.
  - cbn [bounces map run_ops fold_left do_op fst snd length].
    fold (bounces hits); fold (run_ops (bounces hits)).
    cbn [fst] in Hp.
    unfold exec at 2; rewrite bounce_run by exact Hp; cbn [snd].
    rewrite IH.
    + cbn [bounced Ball.speed]; apply ramped_again.
    + cbn [bounced Ball.speed]; unfold ramped; apply Rmin_l.
Qed.

(** X6.  After any number [n] of completed paddle bounces the speed scalar
    is [min(BALL_SPEED_MAX, speed + n * BALL_SPEED_INCREMENT)], whatever the
    paddles and the impact points; from the initial speed it has reached
    [BALL_SPEED_MAX] after 18 bounces and stays there. *)
Theorem speed_after_n_bounces (hits : list (Paddle.t * bool)) (b : Ball.t) :
  Forall (fun hit => Rect.height (Paddle.rect (fst hit)) <> 0%Z) hits ->
  Ball.speed b <= BALL_SPEED_MAX ->
  Ball.speed (run_ops (bounces hits) b)
  = Rmin BALL_SPEED_MAX
         (Ball.speed b + INR (length hits) * BALL_SPEED_INCREMENT)
  /\ (BALL_SPEED_INITIAL <= Ball.speed b ->
      (18 <= length hits)%nat ->
      Ball.speed (run_ops (bounces hits) b) = BALL_SPEED_MAX).
Proof.
  intros Hh Hb; rewrite (run_bounces_speed hits b Hh Hb); split; [reflexivity|].
  intros Hi Hn; apply le_INR in Hn.
  rewrite (INR_IZR_INZ 18) in Hn; change (Z.of_nat 18) with 18%Z in Hn.
  unfold BALL_SPEED_INITIAL, BALL_SPEED_MAX, BALL_SPEED_INCREMENT in *.
  unfold Rmin; destruct (Rle_dec _ _); nra.
Qed.

Lemma speed_after_n_bounces_witness :
  Ball.speed (run_ops (bounces [(main_left_paddle, false);
                                (main_right_paddle, true)])
                      mid_field)
  = Rmin BALL_SPEED_MAX (Ball.speed mid_field + INR 2 * BALL_SPEED_INCREMENT)
  /\ Ball.speed (run_ops (bounces (repeat (main_left_paddle, false) 18))
                         mid_field)
     = BALL_SPEED_MAX.
Proof.
  assert (Hs : Ball.speed mid_field <= BALL_SPEED_MAX)
    by (unfold BALL_SPEED_MAX; cbn [mid_field Ball.speed]; lra).
  split.
  - apply (speed_after_n_bounces
             [(main_left_paddle, false); (main_right_paddle, true)] mid_field);
      [|exact Hs].
    repeat constructor; discriminate.
  - apply (speed_after_n_bounces (repeat (main_left_paddle, false) 18) mid_field).
    + apply Forall_forall; intros hit Hin; apply repeat_spec in Hin; subst.
      discriminate.
    + exact Hs.
    + unfold BALL_SPEED_INITIAL; cbn [mid_field Ball.speed]; lra.
    + rewrite repeat_length; apply le_n.
Defined.

(** X7.  A hit at or beyond the edge of the paddle (impact offset of
    magnitude 1 or more) of a ball at the initial speed or slower leaves the
    ball with a horizontal velocity of less than one pixel per frame, not
    zero: [int] of it is 0, so [update] no longer advances the ball
    horizontally. *)
Theorem edge_hit_at_serve_speed_stalls
        (paddle : Paddle.t) (is_right : bool) (b : Ball.t) :
  Rect.height (Paddle.rect paddle) <> 0%Z ->
  0 <= Ball.speed b <= BALL_SPEED_INITIAL ->
  1 <= Rabs (IZR (Rect.centery (Ball.rect b)
                  - Rect.centery (Paddle.rect paddle))
             / (IZR (Rect.height (Paddle.rect paddle)) / 2)) ->
  let b' := exec (Ball._bounce_off_paddle paddle is_right) b in
  Ball.vx b' <> 0
  /\ Rabs (Ball.vx b') < 1
  /\ py_int (Ball.vx b') = 0%Z.
Proof.
  intros Hh [Hs0 Hs1] Ho; cbv zeta.
  unfold exec; rewrite bounce_run by exact Hh; cbn [snd].
  unfold bounced, impact_offset; cbn [Ball.vx]; rewrite flush_centery.
  set (o := IZR _ / _) in *.
  assert (Hcos : cos (Ball.bounce_angle (Ball.clamp_offset o))
                 = cos (0.45 * PI)).
  { unfold Rabs in Ho; destruct (Rcase_abs o).
    - rewrite clamp_offset_low by lra; unfold Ball.bounce_angle.
      replace (-1 * (0.45 * PI)) with (- (0.45 * PI)) by ring.
      apply cos_neg.
    - rewrite clamp_offset_high by lra; unfold Ball.bounce_angle.
      rewrite Rmult_1_l; reflexivity. }
  rewrite Hcos; destruct cos_max_deflection as [Hc0 Hc1].
  assert (Hr : 0 < ramped (Ball.speed b) <= 6.35).
  { unfold ramped, BALL_SPEED_MAX, BALL_SPEED_INCREMENT, BALL_SPEED_INITIAL,
      Rmin in *; destruct (Rle_dec _ _); lra. }
  assert (Hv : 0 < cos (0.45 * PI) * ramped (Ball.speed b) < 1) by nra.
  assert (Habs : Rabs (cos (0.45 * PI) * ramped (Ball.speed b)
                       * IZR (if is_right then -1 else 1)) < 1).
  { destruct is_right; simpl IZR.
    - rewrite Rabs_left by nra; nra.
    - rewrite Rabs_pos_eq by nra; nra. }
  split; [|split; [exact Habs | apply py_int_small, Habs]].
  destruct is_right; simpl IZR; nra.
Qed.

Lemma edge_hit_at_serve_speed_stalls_witness :
  let b' := exec (Ball._bounce_off_paddle main_left_paddle false) low_hit in
  Ball.vx b' <> 0 /\ Rabs (Ball.vx b') < 1 /\ py_int (Ball.vx b') = 0%Z.
Proof.
  apply (edge_hit_at_serve_speed_stalls main_left_paddle false low_hit).
  - discriminate.
  - unfold BALL_SPEED_INITIAL; cbn [low_hit Ball.speed]; lra.
  - change (IZR (Rect.centery (Ball.rect low_hit)
                 - Rect.centery (Paddle.rect main_left_paddle))) with 50.
    change (IZR (Rect.height (Paddle.rect main_left_paddle))) with 100.
    rewrite Rabs_pos_eq; lra.
Defined.

(** ** The game loop, continued *)

Lemma apart_no_collision (a p : Rect.t) :
  apart a p -> Rect.colliderect a p = false.
Proof.
  intros H; unfold Rect.colliderect.
  destruct (_ || _ || _ || _); [reflexivity|].
  destruct H as [H | H].
  - replace (Z.max (Rect.x a) (Rect.x a + Rect.w a)
             >? Z.min (Rect.x p) (Rect.x p + Rect.w p))%Z with false;
      [rewrite andb_false_r; reflexivity|].
    symmetry; rewrite Z.gtb_ltb; apply Z.ltb_ge, H.
  - replace (Z.min (Rect.x a) (Rect.x a + Rect.w a)
             <? Z.max (Rect.x p) (Rect.x p + Rect.w p))%Z with false;
      [reflexivity|].
    symmetry; apply Z.ltb_ge, H.
Qed.

Lemma walled_horizontal (b : Ball.t) :
  Rect.x (Ball.rect (walled b)) = Rect.x (Ball.rect b)
  /\ Rect.w (Ball.rect (walled b)) = Rect.w (Ball.rect b)
  /\ Rect.h (Ball.rect (walled b)) = Rect.h (Ball.rect b).
Proof.
  unfold walled.
  destruct (_ <=? _)%Z; [repeat split|]; destruct (_ >=? _)%Z; repeat split.
Qed.

Lemma update_keeps_size (left right : Paddle.t) (u : R) (b : Ball.t) :
  Rect.w (Ball.rect (exec (Ball.update left right u) b)) = Rect.w (Ball.rect b)
  /\ Rect.h (Ball.rect (exec (Ball.update left right u) b))
     = Rect.h (Ball.rect b).
Proof.
  rewrite exec_update.
  assert (Ha : Rect.w (Ball.rect (advanced left right b)) = Rect.w (Ball.rect b)
               /\ Rect.h (Ball.rect (advanced left right b))
                  = Rect.h (Ball.rect b)).
  { unfold advanced.
    destruct (paddled_vertical left right (walled (stepped b))) as (_ & -> & ->).
    destruct (walled_horizontal (stepped b)) as (_ & -> & ->).
    split; reflexivity. }
  destruct (scored_cases u (advanced left right b))
    as [[_ ->] | [(_ & _ & ->) | (_ & _ & ->)]]; cbn [snd]; exact Ha.
Qed.

Lemma update_deltas (left right : Paddle.t) (u : R) (b : Ball.t) :
  outcome (Ball.update left right u) b = inr (0, 0)%Z
  \/ outcome (Ball.update left right u) b = inr (0, 1)%Z
  \/ outcome (Ball.update left right u) b = inr (1, 0)%Z.
Proof.
  unfold outcome; rewrite update_run; cbn [fst].
  destruct (scored_cases u (advanced left right b))
    as [[_ ->] | [(_ & _ & ->) | (_ & _ & ->)]]; cbn [fst]; auto.
Qed.



Lemma ai_update_paddle (now : Z) (z : R) (ball : Ball.t)
      (a : AIPaddleController.t) (p : Paddle.t) :
  exists dy, snd (exec (AIPaddleController.update now z ball) (a, p)) = moved dy p.
Proof. unfold exec; rewrite ai_update_run; eexists; reflexivity. Qed.






Lemma frame_keeps_frames (i : Game.Frame) (w : Game.World) :
  let w' := exec (Game.frame i) w in
  paddle_frame (Game.left_paddle w') = paddle_frame (Game.left_paddle w)
  /\ paddle_frame (Game.right_paddle w') = paddle_frame (Game.right_paddle w)
  /\ Rect.w (Ball.rect (Game.ball w')) = Rect.w (Ball.rect (Game.ball w))
  /\ Rect.h (Ball.rect (Game.ball w')) = Rect.h (Ball.rect (Game.ball w))
  /\ (Game.score_left w <= Game.score_left w')%Z
  /\ (Game.score_right w <= Game.score_right w')%Z
  /\ (Game.score_left w' + Game.score_right w'
      <= Game.score_left w + Game.score_right w + 1)%Z.
Proof.
  cbv zeta.
  destruct (frame_run i w) as (left' & dy & Hleft & l & r & Hout & Hrun).
  destruct (ai_update_paddle (Game.ticks i) (Game.aim_draw i)
                             (exec (Ball.update left' (Game.right_paddle w)
                                                (Game.serve_draw i))
                                   (Game.ball w))
                             (Game.ai w) (Game.right_paddle w)) as [dy' Hai].
  rewrite Hai in Hrun; unfold exec at 1 2 3 4 5 6 7 8; rewrite Hrun; cbn [snd].
  cbn [Game.left_paddle Game.right_paddle Game.ball
       Game.score_left Game.score_right].
  destruct (update_keeps_size left' (Game.right_paddle w) (Game.serve_draw i)
                              (Game.ball w)) as [Hw Hh].
  assert (Hlr : (l, r) = (0, 0)%Z \/ (l, r) = (0, 1)%Z \/ (l, r) = (1, 0)%Z).
  { destruct (update_deltas left' (Game.right_paddle w) (Game.serve_draw i)
                            (Game.ball w)) as [E | [E | E]];
      rewrite E in Hout; injection Hout as El Er; rewrite <- El, <- Er; auto. }
  split; [destruct Hleft as [-> | ->]; reflexivity|].
  split; [reflexivity|].
  split; [exact Hw|]; split; [exact Hh|].
  destruct Hlr as [E | [E | E]]; injection E as -> ->; lia.
Qed.

(** X9.  No frame of the game moves a paddle sideways or changes its size
    or its speed cap, and none changes the size of the ball: after any
    number of frames they are what they were. *)
Theorem paddles_keep_their_column (frames : list Game.Frame) (w : Game.World) :
  let w' := snd (Game.run frames w) in
  paddle_frame (Game.left_paddle w') = paddle_frame (Game.left_paddle w)
  /\ paddle_frame (Game.right_paddle w') = paddle_frame (Game.right_paddle w)
  /\ Rect.w (Ball.rect (Game.ball w')) = Rect.w (Ball.rect (Game.ball w))
  /\ Rect.h (Ball.rect (Game.ball w')) = Rect.h (Ball.rect (Game.ball w)).
Proof.
  revert w; induction frames as [|i frames IH]; intros w; cbv zeta.
  - cbn [Game.run snd]; repeat split.
  - cbn [Game.run].
    pose proof (frame_keeps_frames i w) as Hf; cbv zeta in Hf.
    unfold exec in Hf.
    destruct (Game.frame i w) as [[e | []] w1]; cbn [snd] in Hf |- *;
      destruct Hf as (H1 & H2 & H3 & H4 & _); [auto|].
    specialize (IH w1); cbv zeta in IH; destruct IH as (I1 & I2 & I3 & I4).
    repeat split; congruence.
Qed.

(** X10.  Scores only count up, by at most one goal per frame: after any
    number of frames neither score has decreased, and their sum has grown by
    at most the number of frames played. *)
Theorem scores_count_goals (frames : list Game.Frame) (w : Game.World) :
  let w' := snd (Game.run frames w) in
  (Game.score_left w <= Game.score_left w')%Z
  /\ (Game.score_right w <= Game.score_right w')%Z
  /\ (Game.score_left w' + Game.score_right w'
      <= Game.score_left w + Game.score_right w + Z.of_nat (length frames))%Z.
Proof.
  revert w; induction frames as [|i frames IH]; intros w; cbv zeta.
  - cbn [Game.run snd length]; lia.
  - cbn [Game.run].
    pose proof (frame_keeps_frames i w) as Hf; cbv zeta in Hf.
    unfold exec in Hf.
    destruct (Game.frame i w) as [[e | []] w1]; cbn [snd] in Hf |- *;
      destruct Hf as (_ & _ & _ & _ & H5 & H6 & H7);
      [cbn [length]; lia|].
    specialize (IH w1); cbv zeta in IH; destruct IH as (I1 & I2 & I3).
    cbn [length]; lia.
Qed.

Lemma frame_left_paddle (i : Game.Frame) (w : Game.World) :
  Game.left_paddle (exec (Game.frame i) w)
  = match Game.key_w i, Game.key_s i with
    | true, false => moved (IZR (- PADDLE_SPEED)) (Game.left_paddle w)
    | false, true => moved (IZR PADDLE_SPEED) (Game.left_paddle w)
    | _, _ => Game.left_paddle w
    end.
Proof.
  unfold exec, Game.frame.
  destruct (Game.key_w i), (Game.key_s i);
    cbn [negb Z.eqb Z.add Z.sub Z.opp PADDLE_SPEED Z.pos_sub Pos.compare
         Pos.compare_cont Z.succ_double Z.pred_double Z.double];
    unfold bind at 1;
    [ unfold ret at 1 | unfold Game.on_left_paddle at 1; rewrite move_run
    | unfold Game.on_left_paddle at 1; rewrite move_run | unfold ret at 1 ];
    unfold bind at 1, get at 1;
    unfold bind at 1, Game.on_ball at 1; rewrite update_run;
    unfold bind, Game.add_scores, modify, get, Game.on_ai;
    cbn [Game.ai Game.right_paddle Game.ball Game.left_paddle
         Game.score_left Game.score_right fst snd];
    rewrite ai_update_run; reflexivity.
Qed.

(** X11.  W and S pressed together cancel, like no key at all: the left
    paddle stays where it is.  W alone moves a paddle that is within the
    field up by [PADDLE_SPEED], stopping at the top; S alone moves it down by
    [PADDLE_SPEED], stopping at the bottom. *)
Theorem opposite_keys_cancel (i : Game.Frame) (w : Game.World) :
  let p := Game.left_paddle w in
  let p' := Game.left_paddle (exec (Game.frame i) w) in
  (Game.key_w i = Game.key_s i -> p' = p)
  /\ (within_field p ->
      Game.key_w i = true -> Game.key_s i = false ->
      Rect.y (Paddle.rect p')
      = Z.max 0 (Rect.y (Paddle.rect p) - PADDLE_SPEED))
  /\ (within_field p ->
      Game.key_w i = false -> Game.key_s i = true ->
      Rect.y (Paddle.rect p')
      = Z.min (HEIGHT - Rect.h (Paddle.rect p))
              (Rect.y (Paddle.rect p) + PADDLE_SPEED)).
Proof.
  cbv zeta; rewrite frame_left_paddle; split; [|split].
  - intros E; rewrite E; destruct (Game.key_s i); reflexivity.
  - intros [H0 H1] -> ->; unfold Rect.top, Rect.bottom in H0, H1.
    unfold moved, moved_y; cbn [Paddle.rect Rect.y]; rewrite py_int_IZR.
    unfold clamped_y, PADDLE_SPEED in *.
    destruct (_ <? 0)%Z eqn:E1; [apply Z.ltb_lt in E1 | apply Z.ltb_ge in E1];
      destruct (_ >? HEIGHT)%Z eqn:E2; rewrite Z.gtb_ltb in E2;
      (apply Z.ltb_lt in E2 || apply Z.ltb_ge in E2); lia.
  - intros [H0 H1] -> ->; unfold Rect.top, Rect.bottom in H0, H1.
    unfold moved, moved_y; cbn [Paddle.rect Rect.y]; rewrite py_int_IZR.
    unfold clamped_y, PADDLE_SPEED in *.
    destruct (_ <? 0)%Z eqn:E1; [apply Z.ltb_lt in E1 | apply Z.ltb_ge in E1];
      destruct (_ >? HEIGHT)%Z eqn:E2; rewrite Z.gtb_ltb in E2;
      (apply Z.ltb_lt in E2 || apply Z.ltb_ge in E2); lia.
Qed.

Lemma opposite_keys_cancel_witness :
  Game.left_paddle (exec (Game.frame (Game.mkFrame true true 0.5 16 0))
                         (world_with mid_field))
  = main_left_paddle
  /\ Rect.y (Paddle.rect
               (Game.left_paddle
                  (exec (Game.frame (Game.mkFrame true false 0.5 16 0))
                        (Game.mkWorld top_paddle main_right_paddle mid_field
                                      AIPaddleController.__init__ 0 0))))
     = Z.max 0 (3 - PADDLE_SPEED)
  /\ Rect.y (Paddle.rect
               (Game.left_paddle
                  (exec (Game.frame (Game.mkFrame false true 0.5 16 0))
                        (world_with mid_field))))
     = Z.min (HEIGHT - 100) (250 + PADDLE_SPEED).
Proof.
  split; [|split].
  - apply (opposite_keys_cancel (Game.mkFrame true true 0.5 16 0)
                                (world_with mid_field)); reflexivity.
  - apply (opposite_keys_cancel
             (Game.mkFrame true false 0.5 16 0)
             (Game.mkWorld top_paddle main_right_paddle mid_field
                           AIPaddleController.__init__ 0 0));
      try reflexivity.
    unfold within_field, HEIGHT; cbn; lia.
  - apply (opposite_keys_cancel (Game.mkFrame false true 0.5 16 0)
                                (world_with mid_field));
      try reflexivity.
    unfold within_field, HEIGHT; cbn; lia.
Defined.

(** ** AIPaddleController, continued *)

Lemma retargeted_receding (now : Z) (z : R) (ball : Ball.t)
      (a : AIPaddleController.t) :
  (now - AIPaddleController.last_update_time a
   >= AIPaddleController.update_interval_ms a)%Z ->
  Ball.vx ball <= 0 ->
  AIPaddleController.target_center_y (retargeted now z ball a)
  = (1 - AIPaddleController.center_bias a) * AIPaddleController.target_center_y a
    + AIPaddleController.center_bias a * (IZR HEIGHT / 2 + gauss 0 25 z).
Proof.
  intros Hdue Hvx; unfold retargeted.
  assert (Hd : (now - AIPaddleController.last_update_time a
                >=? AIPaddleController.update_interval_ms a)%Z = true)
    by (rewrite Z.geb_leb; apply Z.leb_le; lia).
  assert (Hv : Rgtb (Ball.vx ball) 0 = false) by (apply Rltb_false, Hvx).
  rewrite Hd, Hv.
  cbn [AIPaddleController.target_center_y AIPaddleController.center_bias
       AIPaddleController.set_target_center_y
       AIPaddleController.set_last_update_time].
  unfold gauss; lra.
Qed.

(** X13.  On a recompute while the ball recedes ([vx <= 0]) the target is
    pulled toward the vertical centre of the field: its offset from the
    centre is multiplied by [1 - center_bias], and the noise enters scaled by
    [center_bias].  With a bias between 0 and 1 and a zero draw the target is
    never farther from the centre than before. *)
Theorem ai_drifts_back_to_the_centre
        (now : Z) (z : R) (ball : Ball.t)
        (a : AIPaddleController.t) (p : Paddle.t) :
  (now - AIPaddleController.last_update_time a
   >= AIPaddleController.update_interval_ms a)%Z ->
  Ball.vx ball <= 0 ->
  let a' := fst (exec (AIPaddleController.update now z ball) (a, p)) in
  let centre := IZR HEIGHT / 2 in
  AIPaddleController.target_center_y a' - centre
  = (1 - AIPaddleController.center_bias a)
    * (AIPaddleController.target_center_y a - centre)
    + AIPaddleController.center_bias a * (z * 25)
  /\ AIPaddleController.last_update_time a' = now
  /\ (0 <= AIPaddleController.center_bias a <= 1 ->
      z = 0 ->
      Rabs (AIPaddleController.target_center_y a' - centre)
      <= Rabs (AIPaddleController.target_center_y a - centre)).
Proof.
  intros Hdue Hvx; cbv zeta.
  unfold exec; rewrite ai_update_run; cbn [fst snd].
  pose proof (retargeted_receding now z ball a Hdue Hvx) as Ht.
  assert (Hlast : AIPaddleController.last_update_time (retargeted now z ball a)
                  = now).
  { unfold retargeted.
    assert (Hd : (now - AIPaddleController.last_update_time a
                  >=? AIPaddleController.update_interval_ms a)%Z = true)
      by (rewrite Z.geb_leb; apply Z.leb_le; lia).
    rewrite Hd; destruct (Rgtb (Ball.vx ball) 0); reflexivity. }
  assert (Heq : AIPaddleController.target_center_y (retargeted now z ball a)
                - IZR HEIGHT / 2
                = (1 - AIPaddleController.center_bias a)
                  * (AIPaddleController.target_center_y a - IZR HEIGHT / 2)
                  + AIPaddleController.center_bias a * (z * 25)).
  { rewrite Ht; unfold gauss; lra. }
  split; [exact Heq | split; [exact Hlast|]].
  intros Hb ->; rewrite Heq, Rmult_0_l, Rmult_0_r, Rplus_0_r, Rabs_mult.
  rewrite (Rabs_pos_eq (1 - _)) by lra.
  pose proof (Rabs_pos (AIPaddleController.target_center_y a - IZR HEIGHT / 2)).
  nra.
Qed.

Lemma ai_drifts_back_to_the_centre_witness :
  let a' := fst (exec (AIPaddleController.update 120 0 mid_field)
                      (drifting, main_right_paddle)) in
  AIPaddleController.target_center_y a' - IZR HEIGHT / 2
  = (1 - 0.15) * (100 - IZR HEIGHT / 2) + 0.15 * (0 * 25)
  /\ AIPaddleController.last_update_time a' = 120%Z
  /\ Rabs (AIPaddleController.target_center_y a' - IZR HEIGHT / 2)
     <= Rabs (100 - IZR HEIGHT / 2).
Proof.
  destruct (ai_drifts_back_to_the_centre 120 0 mid_field drifting
                                         main_right_paddle)
    as (H1 & H2 & H3).
  - cbn; discriminate.
  - cbn [mid_field Ball.vx]; lra.
  - split; [exact H1 | split; [exact H2|]].
    apply H3; [|reflexivity].
    cbn [drifting AIPaddleController.center_bias]; lra.
Defined.





(** X15.  The standard deviation of the aiming error is never below 9.25
    nor above 80, whatever the ball's position and velocity. *)
Theorem aim_sigma_range (ball : Ball.t) :
  9.25 <= AIPaddleController.aim_sigma ball <= 80.
Proof.
  unfold AIPaddleController.aim_sigma.
  assert (Hd : 1 <= IZR (Z.max 1 (WIDTH - Rect.centerx (Ball.rect ball))))
    by (apply IZR_le; lia).
  assert (Hv : 1 <= Rmax 1.0 (Rabs (Ball.vx ball)))
    by (unfold Rmax; destruct (Rle_dec _ _); lra).
  unfold Rmin; destruct (Rle_dec _ _); lra.
Qed.

(** ** Horizontal progress *)

Lemma PI_lower_bound : 3.14 < PI.
Proof.
  destruct (PI_2_3_7_ineq 1) as [H _].
  unfold sum_f_R0, tg_alt, PI_2_3_7_tg, Ratan_seq in H.
  simpl in H; lra.
Qed.

Lemma sin_cubic_lower (x : R) : 0 <= x <= 1 -> x - x * x * x / 6 <= sin x.
Proof.
  intros Hx; pose proof PI_lower_bound.
  destruct (SIN x) as [H1 _]; try lra.
  unfold sin_lb, sin_approx, sin_term, sum_f_R0 in H1; simpl in H1.
  assert (0 <= x * x * x * x * x) by (repeat apply Rmult_le_pos; lra).
  assert (x * x * x * x * x * x * x <= x * x * x * x * x)
    by (assert (x * x <= 1) by nra; nra).
  lra.
Qed.

Lemma cos_even_decreasing (a m : R) :
  0 <= m <= PI -> - m <= a <= m -> cos m <= cos a.
Proof.
  intros Hm Ha; destruct (Rle_dec 0 a) as [Hp | Hn].
  - apply cos_decr_1; lra.
  - rewrite <- (cos_neg a); apply cos_decr_1; lra.
Qed.

Lemma cos_launch_lower : 0.39 < cos (0.35 * PI).
Proof.
  pose proof PI_upper_bound; pose proof PI_lower_bound.
  replace (0.35 * PI) with (2 * (0.175 * PI)) by lra.
  rewrite cos_2a_sin.
  assert (0 < sin (0.175 * PI)) by (apply sin_gt_0; lra).
  assert (sin (0.175 * PI) < 0.175 * PI) by (apply sin_lt_x; lra).
  nra.
Qed.

Lemma cos_deflection_lower : 0.15 < cos (0.45 * PI).
Proof.
  pose proof PI_upper_bound; pose proof PI_lower_bound.
  assert (E : cos (0.45 * PI) = sin (0.05 * PI))
    by (rewrite <- sin_shift; f_equal; lra).
  rewrite E.
  assert (Hx : 0 <= 0.05 * PI <= 1) by lra.
  pose proof (sin_cubic_lower _ Hx).
  assert (0.05 * PI * (0.05 * PI) * (0.05 * PI) <= 0.16 * 0.16 * 0.16).
  { assert (0.05 * PI * (0.05 * PI) <= 0.16 * 0.16) by nra. nra. }
  lra.
Qed.

(** Truncation toward zero keeps at least the whole pixels. *)
Lemma py_int_at_least (r : R) (k : Z) :
  (0 <= k)%Z -> IZR k <= Rabs r -> (k <= Z.abs (py_int r))%Z.
Proof.
  intros Hk Hr; unfold py_int; destruct (Rle_dec 0 r) as [Hp | Hn].
  - rewrite Rabs_pos_eq in Hr by exact Hp.
    destruct (base_Int_part r) as [_ Hgt].
    assert (Hlt : IZR (k - 1) < IZR (Int_part r)) by (rewrite minus_IZR; lra).
    apply lt_IZR in Hlt; lia.
  - rewrite Rabs_left in Hr by lra.
    destruct (base_Int_part (- r)) as [_ Hgt].
    assert (Hlt : IZR (k - 1) < IZR (Int_part (- r)))
      by (rewrite minus_IZR; lra).
    apply lt_IZR in Hlt; lia.
Qed.

(** X16.  A served ball always advances: after [reset] called with
    direction [+1] or [-1] and any draw of the launch angle, the horizontal
    velocity has magnitude above 2.3 and at most 6, so the next [update]
    moves the ball between 2 and 6 pixels sideways. *)
Theorem serve_always_advances (direction : Z) (u : R) (b : Ball.t) :
  direction = 1%Z \/ direction = (-1)%Z ->
  0 <= u <= 1 ->
  let vx := Ball.vx (exec (Ball.reset direction u) b) in
  2.3 < Rabs vx <= 6
  /\ (2 <= Z.abs (py_int vx) <= 6)%Z.
Proof.
  intros Hd Hu; cbv zeta; unfold exec; rewrite reset_run; cbn [snd].
  unfold served; cbn [Ball.vx].
  pose proof (launch_angle_range u Hu) as Ha.
  pose proof PI_upper_bound; pose proof PI_lower_bound.
  assert (Hc : 0.39 < cos (Ball.launch_angle u) <= 1).
  { split; [|apply COS_bound].
    eapply Rlt_le_trans; [apply cos_launch_lower|].
    apply cos_even_decreasing; lra. }
  assert (Habs : Rabs (cos (Ball.launch_angle u) * BALL_SPEED_INITIAL
                       * IZR direction)
                 = cos (Ball.launch_angle u) * 6).
  { unfold BALL_SPEED_INITIAL; destruct Hd as [-> | ->]; simpl IZR.
    - rewrite Rabs_pos_eq by nra; lra.
    - rewrite Rabs_left by nra; lra. }
  split; [rewrite Habs; lra|].
  split.
  - apply py_int_at_least; [lia | rewrite Habs; lra].
  - apply py_int_abs_le; rewrite Habs; lra.
Qed.

Lemma serve_always_advances_witness :
  let vx := Ball.vx (exec (Ball.reset (-1) 0.5) leaving_left) in
  2.3 < Rabs vx <= 6 /\ (2 <= Z.abs (py_int vx) <= 6)%Z.
Proof.
  apply (serve_always_advances (-1) 0.5 leaving_left); [right; reflexivity | lra].
Defined.

(** X17.  From the second bounce of a rally on the ball cannot stall: a
    completed bounce of a ball whose speed is at least
    [BALL_SPEED_INITIAL + BALL_SPEED_INCREMENT] leaves it with a horizontal
    velocity of magnitude above 1, whatever the impact point, so the next
    [update] moves it at least a pixel sideways. *)
Theorem later_bounces_never_stall
        (paddle : Paddle.t) (is_right : bool) (b : Ball.t) :
  Rect.height (Paddle.rect paddle) <> 0%Z ->
  BALL_SPEED_INITIAL + BALL_SPEED_INCREMENT <= Ball.speed b ->
  let vx := Ball.vx (exec (Ball._bounce_off_paddle paddle is_right) b) in
  1 < Rabs vx /\ (1 <= Z.abs (py_int vx))%Z.
Proof.
  intros Hh Hs; cbv zeta.
  unfold exec; rewrite bounce_run by exact Hh; cbn [snd].
  unfold bounced; cbn [Ball.vx].
  set (angle := Ball.bounce_angle _).
  pose proof PI_upper_bound; pose proof PI_lower_bound.
  assert (Ha : - (0.45 * PI) <= angle <= 0.45 * PI)
    by (apply bounce_angle_range, clamp_offset_range).
  assert (Hc : 0.15 < cos angle).
  { eapply Rlt_le_trans; [apply cos_deflection_lower|].
    apply cos_even_decreasing; lra. }
  assert (Hr : 6.7 <= ramped (Ball.speed b)).
  { unfold ramped, BALL_SPEED_MAX, BALL_SPEED_INCREMENT, BALL_SPEED_INITIAL,
      Rmin in *; destruct (Rle_dec _ _); lra. }
  assert (Habs : 1 < Rabs (cos angle * ramped (Ball.speed b)
                           * IZR (if is_right then -1 else 1))).
  { destruct is_right; simpl IZR.
    - rewrite Rabs_left by nra; nra.
    - rewrite Rabs_pos_eq by nra; nra. }
  split; [exact Habs | apply py_int_at_least; [lia | lra]].
Qed.

Lemma later_bounces_never_stall_witness :
  let vx := Ball.vx (exec (Ball._bounce_off_paddle main_left_paddle false)
                          edge_hit) in
  1 < Rabs vx /\ (1 <= Z.abs (py_int vx))%Z.
Proof.
  apply (later_bounces_never_stall main_left_paddle false edge_hit).
  - discriminate.
  - unfold BALL_SPEED_INITIAL, BALL_SPEED_INCREMENT;
      cbn [edge_hit Ball.speed]; lra.
Defined.

(** X18.  A goal is never followed by another goal in the next frame: the
    [update] after a [reset] of a ball of the size [main] gives it, with
    paddles in the columns [main] gives them, touches no paddle and returns
    no score, whatever the draws and the paddles' heights. *)
Theorem serve_is_not_followed_by_a_goal
        (left right : Paddle.t) (direction : Z) (u u' : R) (b : Ball.t) :
  direction = 1%Z \/ direction = (-1)%Z ->
  Rect.w (Ball.rect b) = BALL_SIZE ->
  Rect.x (Paddle.rect left) = 32%Z ->
  Rect.w (Paddle.rect left) = PADDLE_WIDTH ->
  Rect.x (Paddle.rect right) = (WIDTH - 32 - PADDLE_WIDTH)%Z ->
  Rect.w (Paddle.rect right) = PADDLE_WIDTH ->
  let served_ball := exec (Ball.reset direction u) b in
  outcome (Ball.update left right u') served_ball = inr (0, 0)%Z
  /\ Ball.vx (exec (Ball.update left right u') served_ball)
     = Ball.vx served_ball
  /\ Ball.speed (exec (Ball.update left right u') served_ball)
     = BALL_SPEED_INITIAL.
Proof.
  intros Hd Hw Hlx Hlw Hrx Hrw; cbv zeta.
  assert (Hres : exec (Ball.reset direction u) b = served direction u b)
    by (unfold exec; rewrite reset_run; reflexivity).
  rewrite Hres; clear Hres.
  set (s := served direction u b).
  assert (Hsx : Rect.x (Ball.rect s) = 394%Z /\ Rect.w (Ball.rect s) = 12%Z).
  { unfold s, served, Rect.set_center; cbn [Ball.rect Rect.x Rect.w fst].
    rewrite Hw; split; reflexivity. }
  destruct Hsx as [Hsx Hsw].
  assert (Hv : Rabs (Ball.vx s) <= IZR 6).
  { unfold s, served, BALL_SPEED_INITIAL; cbn [Ball.vx].
    pose proof (COS_bound (Ball.launch_angle u)).
    apply Rabs_le; destruct Hd as [-> | ->]; simpl IZR; lra. }
  apply py_int_abs_le in Hv.
  assert (Hx : Rect.x (Ball.rect (walled (stepped s)))
               = (394 + py_int (Ball.vx s))%Z
               /\ Rect.w (Ball.rect (walled (stepped s))) = 12%Z).
  { destruct (walled_horizontal (stepped s)) as (-> & -> & _).
    unfold stepped; cbn [Ball.rect Rect.x Rect.w]; rewrite Hsx, Hsw; auto. }
  destruct Hx as [Hx Hw'].
  assert (Hadv : advanced left right s = walled (stepped s)).
  { unfold advanced, paddled, hits_left, hits_right.
    rewrite (apart_no_collision (Ball.rect (walled (stepped s)))
                                (Paddle.rect left)).
    - rewrite (apart_no_collision (Ball.rect (walled (stepped s)))
                                  (Paddle.rect right)); [reflexivity|].
      unfold apart; rewrite Hx, Hw', Hrx, Hrw; unfold WIDTH, PADDLE_WIDTH; lia.
    - unfold apart; rewrite Hx, Hw', Hlx, Hlw; unfold PADDLE_WIDTH; lia. }
  assert (Hupd : Ball.update left right u' s
                 = (inr (0, 0)%Z, walled (stepped s))).
  { rewrite <- Hadv; apply update_no_goal; rewrite Hadv;
      unfold Rect.right, Rect.left; rewrite Hx, ?Hw'; unfold WIDTH; lia. }
  unfold outcome, exec; rewrite Hupd; cbn [fst snd].
  split; [reflexivity|].
  destruct (walled_velocity (stepped s)) as (Evx & _ & Esp).
  rewrite Evx, Esp; split; reflexivity.
Qed.

Lemma serve_is_not_followed_by_a_goal_witness :
  let served_ball := exec (Ball.reset (-1) 0.5) leaving_left in
  outcome (Ball.update main_left_paddle main_right_paddle 0.5) served_ball
  = inr (0, 0)%Z
  /\ Ball.vx (exec (Ball.update main_left_paddle main_right_paddle 0.5)
                   served_ball)
     = Ball.vx served_ball
  /\ Ball.speed (exec (Ball.update main_left_paddle main_right_paddle 0.5)
                      served_ball)
     = BALL_SPEED_INITIAL.
Proof.
  apply (serve_is_not_followed_by_a_goal
           main_left_paddle main_right_paddle (-1) 0.5 0.5 leaving_left);
    try reflexivity.
  right; reflexivity.
Defined.

(* ================================================================== *)
(** * Properties on C ints *)

(** ** Wrap-around *)

Lemma in_int_true (z : Z) : in_int z = true <-> in_range z.
Proof.
  unfold in_int, in_range; rewrite andb_true_iff, !Z.leb_le; tauto.
Qed.

Lemma in_int_false (z : Z) :
  in_int z = false <-> (z < INT_MIN \/ INT_MAX < z)%Z.
Proof.
  unfold in_int; rewrite andb_false_iff, !Z.leb_gt; tauto.
Qed.

Lemma wrap_range (z : Z) : in_range (wrap z).
Proof.
  unfold in_range, wrap, INT_MIN, INT_MAX.
  pose proof (Z.mod_pos_bound (z + 2147483648) 4294967296 ltac:(lia)); lia.
Qed.

Lemma wrap_id (z : Z) : in_range z -> wrap z = z.
Proof.
  unfold in_range, wrap, INT_MIN, INT_MAX; intros Hz.
  rewrite Z.mod_small by lia; lia.
Qed.

(** Wrapping forgets multiples of [2^32] only. *)
Lemma wrap_shift (z k : Z) : wrap (z + k * 4294967296) = wrap z.
Proof.
  unfold wrap.
  replace (z + k * 4294967296 + 2147483648)%Z
    with (z + 2147483648 + k * 4294967296)%Z by lia.
  rewrite Z.mod_add by lia; reflexivity.
Qed.

Lemma wrap_spec (z : Z) : exists k, wrap z = (z + k * 4294967296)%Z.
Proof.
  exists (- ((z + 2147483648) / 4294967296))%Z; unfold wrap.
  pose proof (Z.div_mod (z + 2147483648) 4294967296 ltac:(lia)); lia.
Qed.

Lemma wrap_wrap_add (a b : Z) : wrap (wrap a + b) = wrap (a + b).
Proof.
  destruct (wrap_spec a) as [k ->].
  replace (a + k * 4294967296 + b)%Z with (a + b + k * 4294967296)%Z by lia.
  apply wrap_shift.
Qed.

(** ** Paddle on C ints *)

Lemma cclamp_run (p : Paddle.t) :
  CPaddle.clamp_to_screen p = (inr tt, cclamped p).
Proof.
  destruct p as [[x y w h] s].
  unfold CPaddle.clamp_to_screen, cclamped, cclamped_y; unfold_rect.
  unfold CRect.top, CRect.bottom, CRect.set_top, CRect.set_bottom; unfold_rect.
  destruct (y <? 0)%Z; unfold_rect.
  - destruct (wrap (0 + h) >? HEIGHT)%Z; reflexivity.
  - destruct (wrap (y + h) >? HEIGHT)%Z; reflexivity.
Qed.

Lemma cmove_run (dy : R) (p : Paddle.t) : CPaddle.move dy p = cmoved dy p.
Proof.
  unfold CPaddle.move, cmoved; unfold bind at 1, get at 1.
  unfold bind at 1, CPaddle.on_rect, CRect.assign_y.
  destruct (in_int (Rect.y (Paddle.rect p) + py_int dy)).
  - unfold modify at 1; rewrite cclamp_run; reflexivity.
  - unfold raise; destruct p as [r s]; reflexivity.
Qed.

(** Within the range of a C int the clamps are the ideal clamps. *)
Lemma cclamped_y_ideal (y h : Z) :
  in_range y -> in_range h -> (y + h <= INT_MAX)%Z ->
  cclamped_y y h = clamped_y y h.
Proof.
  unfold in_range, INT_MIN, INT_MAX; intros Hy Hh Hyh.
  unfold cclamped_y, clamped_y, HEIGHT.
  destruct (y <? 0)%Z eqn:E1;
    [apply Z.ltb_lt in E1 | apply Z.ltb_ge in E1].
  - rewrite (wrap_id (0 + h))
      by (unfold in_range, INT_MIN, INT_MAX; lia).
    destruct (0 + h >? 600)%Z eqn:E2; [|reflexivity].
    rewrite Z.gtb_ltb in E2; apply Z.ltb_lt in E2.
    apply wrap_id; unfold in_range, INT_MIN, INT_MAX; lia.
  - rewrite (wrap_id (y + h))
      by (unfold in_range, INT_MIN, INT_MAX; lia).
    destruct (y + h >? 600)%Z eqn:E2; [|reflexivity].
    rewrite Z.gtb_ltb in E2; apply Z.ltb_lt in E2.
    apply wrap_id; unfold in_range, INT_MIN, INT_MAX; lia.
Qed.

Lemma valid_fields (r : Rect.t) :
  CRect.valid r ->
  in_range (Rect.x r) /\ in_range (Rect.y r)
  /\ in_range (Rect.w r) /\ in_range (Rect.h r).
Proof.
  intros (Hx & Hy & Hw & Hh); rewrite !in_int_true in *; auto.
Qed.

(** What [CPaddle.move] does when the step stays within the range of a C
    int, bottom edge included: the ideal move. *)
Lemma cmove_in_range (dy : R) (p : Paddle.t) :
  CRect.valid (Paddle.rect p) ->
  in_range (Rect.y (Paddle.rect p) + py_int dy) ->
  (Rect.y (Paddle.rect p) + py_int dy + Rect.h (Paddle.rect p) <= INT_MAX)%Z ->
  CPaddle.move dy p = (inr tt, moved dy p).
Proof.
  intros Hv Hy Hb; destruct (valid_fields _ Hv) as (_ & _ & _ & Hh).
  rewrite cmove_run; unfold cmoved, moved, moved_y.
  apply in_int_true in Hy as Hy'; rewrite Hy'.
  rewrite cclamped_y_ideal by assumption; reflexivity.
Qed.

Lemma cmove_out_of_range (dy : R) (p : Paddle.t) :
  in_int (Rect.y (Paddle.rect p) + py_int dy) = false ->
  CPaddle.move dy p = (inl TypeError, p).
Proof. intros H; rewrite cmove_run; unfold cmoved; rewrite H; reflexivity. Qed.

Lemma main_left_paddle_valid : CRect.valid (Paddle.rect main_left_paddle).
Proof. repeat split. Qed.

Lemma main_right_paddle_valid : CRect.valid (Paddle.rect main_right_paddle).
Proof. repeat split. Qed.

Lemma py_int_spec (dy : R) :
  (0 <= dy -> 0 <= IZR (py_int dy) <= dy /\ dy < IZR (py_int dy) + 1)
  /\ (dy < 0 -> dy <= IZR (py_int dy) <= 0 /\ IZR (py_int dy) - 1 < dy).
Proof.
  split; intros H.
  - split; [apply py_int_nonneg, H|].
    unfold py_int; destruct (Rle_dec 0 dy); [|lra].
    destruct (base_Int_part dy); lra.
  - split; [apply py_int_neg, H|].
    unfold py_int; destruct (Rle_dec 0 dy); [lra|].
    destruct (base_Int_part (- dy)); rewrite opp_IZR; lra.
Qed.

(** C8, as stated, fails three times: [move] adds [int(delta)], so half a
    pixel moves nothing; a paddle taller than the field is not within the
    field after the clamps; and a delta that takes the position out of the
    range of a C int makes [move] raise [TypeError]. *)
Lemma move_by_half_a_pixel_moves_nothing :
  IZR (Rect.y (Paddle.rect (exec (CPaddle.move 0.5) main_left_paddle)))
  <> IZR (Rect.y (Paddle.rect main_left_paddle)) + 0.5
  /\ ~ within_field (exec (CPaddle.move 0) tall_paddle)
  /\ CPaddle.move 3000000000 main_left_paddle = (inl TypeError, main_left_paddle).
Proof.
  split; [|split].
  - unfold exec; rewrite cmove_run; unfold cmoved.
    cbn [main_left_paddle Paddle.rect Paddle.speed Rect.x Rect.y Rect.w Rect.h].
    rewrite py_int_half.
    change (in_int (250 + 0)) with true; cbv iota; cbn [snd Paddle.rect Rect.y].
    change (cclamped_y (250 + 0) 100) with 250%Z; lra.
  - unfold exec; rewrite cmove_run; unfold cmoved.
    cbn [tall_paddle Paddle.rect Paddle.speed Rect.x Rect.y Rect.w Rect.h].
    rewrite py_int_IZR.
    change (in_int (0 + 0)) with true; cbv iota; cbn [snd].
    change (cclamped_y (0 + 0) 700) with (-100)%Z.
    unfold within_field, Rect.top, Rect.bottom; cbn [Paddle.rect Rect.y Rect.h].
    lia.
  - apply cmove_out_of_range.
    cbn [main_left_paddle Paddle.rect Rect.y]; rewrite py_int_IZR; reflexivity.
Qed.

(** C8, amended.  For a delta that keeps the position, bottom edge
    included, within the range of a C int, [move(delta)] returns nothing and
    changes only the vertical position: it adds [int(delta)], that is [delta]
    truncated toward zero, and then clamps; the truncated step is kept as it
    is when it leaves the paddle within the field, and the rectangle of a
    paddle no taller than the field lies within [[0, HEIGHT]] afterwards.
    For a delta that takes the position out of the range of a C int, [move]
    raises [TypeError] and changes nothing. *)
Theorem move_truncates_then_clamps (dy : R) (p : Paddle.t) :
  CRect.valid (Paddle.rect p) ->
  let r := Paddle.rect p in
  let y1 := (Rect.y r + py_int dy)%Z in
  let y' := clamped_y y1 (Rect.h r) in
  (in_range y1 ->
   (y1 + Rect.h r <= INT_MAX)%Z ->
   CPaddle.move dy p
   = (inr tt, Paddle.mk (Rect.mk (Rect.x r) y' (Rect.w r) (Rect.h r))
                        (Paddle.speed p))
   /\ ((0 <= y1)%Z -> (y1 + Rect.h r <= HEIGHT)%Z -> y' = y1)
   /\ ((Rect.h r <= HEIGHT)%Z -> (0 <= y' /\ y' + Rect.h r <= HEIGHT)%Z))
  /\ (~ in_range y1 -> CPaddle.move dy p = (inl TypeError, p))
  /\ ((0 <= dy -> 0 <= IZR (py_int dy) <= dy /\ dy < IZR (py_int dy) + 1)
      /\ (dy < 0 -> dy <= IZR (py_int dy) <= 0 /\ IZR (py_int dy) - 1 < dy)).
Proof.
  intros Hv; cbv zeta; split; [|split; [|apply py_int_spec]].
  - intros Hy Hb; split; [apply (cmove_in_range dy p Hv Hy Hb) | split].
    + apply clamped_y_id.
    + apply clamped_y_within.
  - intros Hy; apply cmove_out_of_range.
    destruct (in_int _) eqn:E; [|reflexivity].
    apply in_int_true in E; contradiction.
Qed.

Lemma move_truncates_then_clamps_witness :
  (CPaddle.move 7 main_left_paddle
   = (inr tt, Paddle.mk (Rect.mk 32 (clamped_y (250 + py_int 7) 100) 12 100)
                        PADDLE_SPEED)
   /\ clamped_y (250 + py_int 7) 100 = (250 + py_int 7)%Z
   /\ (0 <= clamped_y (250 + py_int 7) 100
       /\ clamped_y (250 + py_int 7) 100 + 100 <= HEIGHT)%Z)
  /\ CPaddle.move 3000000000 main_left_paddle = (inl TypeError, main_left_paddle)
  /\ (0 <= IZR (py_int 0.5) <= 0.5 /\ 0.5 < IZR (py_int 0.5) + 1)
  /\ (-0.5 <= IZR (py_int (-0.5)) <= 0 /\ IZR (py_int (-0.5)) - 1 < -0.5).
Proof.
  destruct (move_truncates_then_clamps 7 main_left_paddle
                                       main_left_paddle_valid)
    as (Hin & _ & _).
  destruct (move_truncates_then_clamps 3000000000 main_left_paddle
                                       main_left_paddle_valid)
    as (_ & Hout & _).
  destruct (move_truncates_then_clamps 0.5 main_left_paddle
                                       main_left_paddle_valid)
    as (_ & _ & Hpos & _).
  destruct (move_truncates_then_clamps (-0.5) main_left_paddle
                                       main_left_paddle_valid)
    as (_ & _ & _ & Hneg).
  cbn [main_left_paddle Paddle.rect Paddle.speed Rect.x Rect.y Rect.w Rect.h]
    in Hin, Hout.
  split; [|split; [|split; [apply Hpos; lra | apply Hneg; lra]]].
  - destruct Hin as (Hrun & Hkeep & Hwithin).
    + rewrite py_int_IZR; unfold in_range, INT_MIN, INT_MAX; lia.
    + rewrite py_int_IZR; unfold INT_MAX; lia.
    + split; [exact Hrun | split].
      * apply Hkeep; rewrite py_int_IZR; unfold HEIGHT; lia.
      * apply Hwithin; unfold HEIGHT; lia.
  - apply Hout; rewrite py_int_IZR; unfold in_range, INT_MIN, INT_MAX; lia.
Defined.

(** C9, as stated, fails: [move(3000000000)] raises [TypeError], and
    [move(2147483298)] returns with the paddle of [main] at
    [y = 2147483548], far below the field: its bottom edge has wrapped
    around to [-2147483648], so the clamp did not fire. *)
Lemma move_beyond_the_int_range_fails :
  outcome (CPaddle.move 3000000000) main_left_paddle = inl TypeError
  /\ CPaddle.move 2147483298 main_left_paddle
     = (inr tt, Paddle.mk (Rect.mk 32 2147483548 12 100) PADDLE_SPEED)
  /\ CRect.bottom (Rect.mk 32 2147483548 12 100) = (-2147483648)%Z
  /\ (HEIGHT < CRect.top (Rect.mk 32 2147483548 12 100))%Z.
Proof.
  split; [|split; [|split; reflexivity]].
  - unfold outcome; rewrite cmove_out_of_range; [reflexivity|].
    cbn [main_left_paddle Paddle.rect Rect.y]; rewrite py_int_IZR; reflexivity.
  - rewrite cmove_run; unfold cmoved.
    cbn [main_left_paddle Paddle.rect Paddle.speed Rect.x Rect.y Rect.w Rect.h].
    rewrite py_int_IZR; reflexivity.
Qed.

(** C9, amended.  For a paddle no taller than the field and a delta that
    keeps the position, bottom edge included, within the range of a C int,
    [move] returns without raising and leaves the rectangle within the
    vertical bounds: top at least 0 and bottom at most [HEIGHT]; so does
    [clamp_to_screen] itself.  For a delta that takes the position out of
    the range of a C int, [move] raises [TypeError] and leaves the paddle
    where it was. *)
Theorem paddle_stays_within_field (dy : R) (p : Paddle.t) :
  CRect.valid (Paddle.rect p) ->
  (CRect.height (Paddle.rect p) <= HEIGHT)%Z ->
  let y1 := (Rect.y (Paddle.rect p) + py_int dy)%Z in
  (in_range y1 ->
   (y1 + Rect.h (Paddle.rect p) <= INT_MAX)%Z ->
   outcome (CPaddle.move dy) p = inr tt
   /\ (0 <= CRect.top (Paddle.rect (exec (CPaddle.move dy) p)))%Z
   /\ (CRect.bottom (Paddle.rect (exec (CPaddle.move dy) p)) <= HEIGHT)%Z
   /\ within_field (exec (CPaddle.move dy) p))
  /\ (~ in_range y1 ->
      outcome (CPaddle.move dy) p = inl TypeError
      /\ exec (CPaddle.move dy) p = p)
  /\ ((Rect.y (Paddle.rect p) + Rect.h (Paddle.rect p) <= INT_MAX)%Z ->
      outcome CPaddle.clamp_to_screen p = inr tt
      /\ within_field (exec CPaddle.clamp_to_screen p)).
Proof.
  intros Hv Hh; cbv zeta; unfold CRect.height in Hh.
  destruct (valid_fields _ Hv) as (_ & Hy0 & _ & Hhr).
  split; [|split].
  - intros Hy Hb; unfold outcome, exec.
    rewrite (cmove_in_range dy p Hv Hy Hb); cbn [fst snd].
    pose proof (clamped_y_within (Rect.y (Paddle.rect p) + py_int dy) _ Hh)
      as [H0 H1].
    split; [reflexivity|].
    unfold CRect.top, CRect.bottom, within_field, Rect.top, Rect.bottom,
      moved, moved_y; cbn [Paddle.rect Rect.y Rect.h].
    rewrite wrap_id
      by (unfold in_range, INT_MIN, INT_MAX, HEIGHT in *; lia).
    auto.
  - intros Hy; unfold outcome, exec; rewrite cmove_out_of_range; [auto|].
    destruct (in_int _) eqn:E; [|reflexivity].
    apply in_int_true in E; contradiction.
  - intros Hb; unfold outcome, exec; rewrite cclamp_run; cbn [fst snd].
    split; [reflexivity|].
    unfold within_field, Rect.top, Rect.bottom, cclamped;
      cbn [Paddle.rect Rect.y Rect.h].
    rewrite cclamped_y_ideal by assumption.
    apply clamped_y_within, Hh.
Qed.

Lemma paddle_stays_within_field_witness :
  (outcome (CPaddle.move (-10000)) main_left_paddle = inr tt
   /\ (0 <= CRect.top (Paddle.rect (exec (CPaddle.move (-10000))
                                         main_left_paddle)))%Z
   /\ (CRect.bottom (Paddle.rect (exec (CPaddle.move (-10000))
                                       main_left_paddle)) <= HEIGHT)%Z
   /\ within_field (exec (CPaddle.move (-10000)) main_left_paddle))
  /\ (outcome (CPaddle.move 3000000000) main_left_paddle = inl TypeError
      /\ exec (CPaddle.move 3000000000) main_left_paddle = main_left_paddle)
  /\ (outcome CPaddle.clamp_to_screen main_left_paddle = inr tt
      /\ within_field (exec CPaddle.clamp_to_screen main_left_paddle)).
Proof.
  assert (Hh : (CRect.height (Paddle.rect main_left_paddle) <= HEIGHT)%Z)
    by (unfold HEIGHT; cbn; lia).
  destruct (paddle_stays_within_field (-10000) main_left_paddle
                                      main_left_paddle_valid Hh)
    as (Hin & _ & Hclamp).
  destruct (paddle_stays_within_field 3000000000 main_left_paddle
                                      main_left_paddle_valid Hh)
    as (_ & Hout & _).
  cbn [main_left_paddle Paddle.rect Rect.y Rect.h] in Hin, Hout, Hclamp.
  split; [|split].
  - apply Hin; rewrite py_int_IZR; unfold in_range, INT_MIN, INT_MAX; lia.
  - apply Hout; rewrite py_int_IZR; unfold in_range, INT_MIN, INT_MAX; lia.
  - apply Hclamp; unfold INT_MAX; lia.
Defined.

(** ** Ball on C ints *)

Lemma creset_run (direction : Z) (u : R) (b : Ball.t) :
  CBall.reset direction u b = (inr tt, cserved direction u b).
Proof. reflexivity. Qed.

Lemma cbounce_run (paddle : Paddle.t) (is_right : bool) (b : Ball.t) :
  CRect.height (Paddle.rect paddle) <> 0%Z ->
  CBall._bounce_off_paddle paddle is_right b
  = (inr tt, cbounced paddle is_right b).
Proof.
  intros Hh.
  unfold CBall._bounce_off_paddle, cbounced, cimpact_offset, cflush, ramped,
    py_div.
  destruct (Req_dec_T (IZR (CRect.height (Paddle.rect paddle)) / 2) 0) as [E|E].
  - apply half_height_zero in E; contradiction.
  - destruct is_right; reflexivity.
Qed.

Lemma ccolliderect_height (a b : Rect.t) :
  CRect.colliderect a b = true -> CRect.height b <> 0%Z.
Proof.
  unfold CRect.colliderect, CRect.height.
  destruct (Rect.h b =? 0)%Z eqn:E.
  - rewrite !orb_true_r; discriminate.
  - intros _; apply Z.eqb_neq, E.
Qed.

Lemma cwalls_run (b : Ball.t) (k : unit -> M Ball.t unit) :
  bind (if (CRect.top (Ball.rect b) <=? 0)%Z then
          modify (Ball.with_rect (CRect.set_top 0)) ;;
          modify (fun self => Ball.set_vy (Ball.vy self * -1) self)
        else if (CRect.bottom (Ball.rect b) >=? HEIGHT)%Z then
          modify (Ball.with_rect (CRect.set_bottom HEIGHT)) ;;
          modify (fun self => Ball.set_vy (Ball.vy self * -1) self)
        else ret tt) k b
  = k tt (cwalled b).
Proof.
  unfold cwalled.
  destruct (CRect.top (Ball.rect b) <=? 0)%Z; [reflexivity|].
  destruct (CRect.bottom (Ball.rect b) >=? HEIGHT)%Z; reflexivity.
Qed.

Lemma cpaddles_run (left right : Paddle.t) (b : Ball.t) :
  (if CRect.colliderect (Ball.rect b) (Paddle.rect left) && Rltb (Ball.vx b) 0
   then CBall._bounce_off_paddle left false
   else if CRect.colliderect (Ball.rect b) (Paddle.rect right)
           && Rgtb (Ball.vx b) 0
   then CBall._bounce_off_paddle right true
   else ret tt) b
  = (inr tt, cpaddled left right b).
Proof.
  unfold cpaddled; fold (chits_left left b); fold (chits_right right b).
  destruct (chits_left left b) eqn:EL.
  - apply cbounce_run.
    unfold chits_left in EL; apply andb_prop in EL as [EL _].
    eapply ccolliderect_height, EL.
  - destruct (chits_right right b) eqn:ER; [|reflexivity].
    apply cbounce_run.
    unfold chits_right in ER; apply andb_prop in ER as [ER _].
    eapply ccolliderect_height, ER.
Qed.

Lemma cadvance_run (left right : Paddle.t) (b : Ball.t) :
  CBall.advance left right b = cadvanced left right b.
Proof.
  unfold CBall.advance, cadvanced, next_x, next_y.
  unfold bind at 1, get at 1.
  unfold bind at 1, CBall.on_rect at 1, CRect.assign_x.
  destruct (in_int (Rect.x (Ball.rect b) + py_int (Ball.vx b))).
  - unfold modify at 1.
    unfold bind at 1, get at 1.
    unfold bind at 1, CBall.on_rect at 1, CRect.assign_y.
    cbn [Ball.rect Ball.vx Ball.vy Ball.speed Rect.set_x Rect.x Rect.y
         Rect.w Rect.h].
    destruct (in_int (Rect.y (Ball.rect b) + py_int (Ball.vy b))).
    + unfold modify at 1.
      unfold bind at 1, get at 1.
      cbn [Rect.set_y Rect.x Rect.y Rect.w Rect.h].
      fold (placed (Rect.x (Ball.rect b) + py_int (Ball.vx b))
                   (Rect.y (Ball.rect b) + py_int (Ball.vy b)) b).
      rewrite cwalls_run.
      unfold bind at 1, get at 1.
      apply cpaddles_run.
    + unfold raise; reflexivity.
  - unfold raise; destruct b as [r vx vy s]; reflexivity.
Qed.

Lemma cscoring_run (u : R) (b : Ball.t) :
  CBall.scoring u b = (inr (fst (cscored u b)), snd (cscored u b)).
Proof.
  unfold CBall.scoring, cscored; unfold bind at 1, get at 1.
  destruct (CRect.right (Ball.rect b) <? 0)%Z; [reflexivity|].
  destruct (CRect.left (Ball.rect b) >? WIDTH)%Z; reflexivity.
Qed.

Lemma cupdate_run (left right : Paddle.t) (u : R) (b : Ball.t) :
  CBall.update left right u b
  = match cadvanced left right b with
    | (inr _, b1) => (inr (fst (cscored u b1)), snd (cscored u b1))
    | (inl e, b1) => (inl e, b1)
    end.
Proof.
  unfold CBall.update, bind; rewrite cadvance_run.
  destruct (cadvanced left right b) as [[e | []] b1]; [reflexivity|].
  apply cscoring_run.
Qed.

Lemma cscored_cases (u : R) (b : Ball.t) :
  ((CRect.right (Ball.rect b) < 0)%Z
   /\ cscored u b = ((0%Z, 1%Z), cserved (-1) u b))
  \/ ((0 <= CRect.right (Ball.rect b))%Z /\ (WIDTH < CRect.left (Ball.rect b))%Z
      /\ cscored u b = ((1%Z, 0%Z), cserved 1 u b))
  \/ ((0 <= CRect.right (Ball.rect b))%Z /\ (CRect.left (Ball.rect b) <= WIDTH)%Z
      /\ cscored u b = ((0%Z, 0%Z), b)).
Proof.
  unfold cscored.
  destruct (CRect.right (Ball.rect b) <? 0)%Z eqn:E1;
    [apply Z.ltb_lt in E1; left; auto | apply Z.ltb_ge in E1; right].
  destruct (CRect.left (Ball.rect b) >? WIDTH)%Z eqn:E2; rewrite Z.gtb_ltb in E2;
    [apply Z.ltb_lt in E2; left; auto | apply Z.ltb_ge in E2; right; auto].
Qed.

(** When [CBall.update] raises and when it returns. *)
Lemma cadvanced_outcome (left right : Paddle.t) (b : Ball.t) :
  (in_int (next_x b) && in_int (next_y b) = true
   /\ cadvanced left right b
      = (inr tt, cpaddled left right (cwalled (placed (next_x b) (next_y b) b))))
  \/ (in_int (next_x b) && in_int (next_y b) = false
      /\ fst (cadvanced left right b) = inl TypeError).
Proof.
  unfold cadvanced.
  destruct (in_int (next_x b)); [|right; auto].
  destruct (in_int (next_y b)); [left | right]; auto.
Qed.

(** C4.  [update] returns a pair of score deltas exactly when the position
    it moves the ball to fits C ints, and raises [TypeError] otherwise.
    Whenever it returns, each delta is 0 or 1, they are never both 1, and
    both are 0 when, at the scoring step, the ball has crossed neither goal
    boundary. *)
Theorem score_deltas_are_exclusive (left right : Paddle.t) (u : R) (b : Ball.t) :
  (in_range (Rect.x (Ball.rect b) + py_int (Ball.vx b)) ->
   in_range (Rect.y (Ball.rect b) + py_int (Ball.vy b)) ->
   exists score_left score_right : Z,
     outcome (CBall.update left right u) b = inr (score_left, score_right))
  /\ (~ (in_range (Rect.x (Ball.rect b) + py_int (Ball.vx b))
         /\ in_range (Rect.y (Ball.rect b) + py_int (Ball.vy b))) ->
      outcome (CBall.update left right u) b = inl TypeError)
  /\ (forall score_left score_right : Z,
         outcome (CBall.update left right u) b = inr (score_left, score_right) ->
         (score_left = 0 \/ score_left = 1)%Z
         /\ (score_right = 0 \/ score_right = 1)%Z
         /\ ~ (score_left = 1 /\ score_right = 1)%Z
         /\ (let b1 := exec (CBall.advance left right) b in
             (0 <= CRect.right (Ball.rect b1))%Z ->
             (CRect.left (Ball.rect b1) <= WIDTH)%Z ->
             (score_left = 0 /\ score_right = 0)%Z)).
Proof.
  fold (next_x b); fold (next_y b).
  unfold outcome, exec; rewrite cupdate_run, cadvance_run.
  destruct (cadvanced_outcome left right b) as [[Hin ->] | [Hout Hfst]].
  - apply andb_prop in Hin as [Hx Hy]; apply in_int_true in Hx, Hy.
    cbn [fst snd]; split; [|split].
    + intros _ _.
      destruct (fst (cscored u (cpaddled left right
                                  (cwalled (placed (next_x b) (next_y b) b)))))
        as [l r]; eauto.
    + intros Hno; exfalso; apply Hno; auto.
    + intros sl sr Hret; injection Hret as Hret.
      destruct (cscored_cases
                  u (cpaddled left right
                       (cwalled (placed (next_x b) (next_y b) b))))
        as [[E1 E] | [(E1 & E2 & E) | (E1 & E2 & E)]];
        rewrite E in Hret; cbn [fst] in Hret; injection Hret as <- <-;
        repeat split; auto; try lia.
  - destruct (cadvanced left right b) as [[e | []] b1]; cbn [fst] in Hfst;
      [|discriminate].
    injection Hfst as ->; cbn [fst]; split; [|split].
    + intros Hx Hy; apply in_int_true in Hx, Hy; rewrite Hx, Hy in Hout.
      discriminate.
    + reflexivity.
    + intros sl sr Hret; discriminate.
Qed.

Lemma mid_field_cadvanced :
  cadvanced main_left_paddle main_right_paddle mid_field
  = (inr tt, Ball.mk (Rect.mk 388 294 12 12) (-6) 0 6).
Proof.
  unfold cadvanced, next_x, next_y, mid_field;
    cbn [Ball.rect Ball.vx Ball.vy Rect.x Rect.y].
  rewrite !py_int_IZR; reflexivity.
Qed.

Lemma score_deltas_are_exclusive_witness :
  outcome (CBall.update main_left_paddle main_right_paddle 0.5) mid_field
  = inr (0%Z, 0%Z)
  /\ outcome (CBall.update main_left_paddle main_right_paddle 0.5) runaway
     = inl TypeError.
Proof.
  destruct (score_deltas_are_exclusive
              main_left_paddle main_right_paddle 0.5 mid_field)
    as (Hret & _ & Hpair).
  destruct (score_deltas_are_exclusive
              main_left_paddle main_right_paddle 0.5 runaway)
    as (_ & Hraise & _).
  split.
  - destruct Hret as (sl & sr & Hout).
    + cbn [mid_field Ball.rect Ball.vx Rect.x]; rewrite py_int_IZR.
      unfold in_range, INT_MIN, INT_MAX; lia.
    + cbn [mid_field Ball.rect Ball.vy Rect.y]; rewrite py_int_IZR.
      unfold in_range, INT_MIN, INT_MAX; lia.
    + rewrite Hout.
      destruct (Hpair sl sr Hout) as (_ & _ & _ & Hnone).
      destruct Hnone as [-> ->]; [| |reflexivity];
        unfold exec; rewrite cadvance_run, mid_field_cadvanced;
        cbn [snd Ball.rect]; unfold WIDTH; cbn; lia.
  - apply Hraise; intros [Hx _]; revert Hx.
    cbn [runaway Ball.rect Ball.vx Rect.x]; rewrite py_int_IZR.
    unfold in_range, INT_MIN, INT_MAX; lia.
Defined.

Lemma cwalled_within (b : Ball.t) :
  in_range (Rect.y (Ball.rect b)) -> in_range (Rect.h (Ball.rect b)) ->
  (Rect.y (Ball.rect b) + Rect.h (Ball.rect b) <= INT_MAX)%Z ->
  (Rect.h (Ball.rect b) <= HEIGHT)%Z ->
  (0 <= Rect.y (Ball.rect (cwalled b)))%Z
  /\ (Rect.y (Ball.rect (cwalled b)) + Rect.h (Ball.rect (cwalled b))
      <= HEIGHT)%Z
  /\ Rect.h (Ball.rect (cwalled b)) = Rect.h (Ball.rect b).
Proof.
  unfold in_range, INT_MIN, INT_MAX, HEIGHT; intros Hy Hh Hb Hle.
  unfold cwalled, CRect.top, CRect.bottom, CRect.set_top, CRect.set_bottom,
    Rect.set_y, HEIGHT.
  destruct (Rect.y (Ball.rect b) <=? 0)%Z eqn:E1;
    [apply Z.leb_le in E1 | apply Z.leb_gt in E1].
  - cbn [Ball.rect Rect.y Rect.h]; lia.
  - rewrite (wrap_id (Rect.y (Ball.rect b) + Rect.h (Ball.rect b)))
      by (unfold in_range, INT_MIN, INT_MAX; lia).
    destruct (_ >=? 600)%Z eqn:E2; rewrite Z.geb_leb in E2;
      [apply Z.leb_le in E2 | apply Z.leb_gt in E2].
    + cbn [Ball.rect Rect.y Rect.h].
      rewrite wrap_id by (unfold in_range, INT_MIN, INT_MAX; lia); lia.
    + lia.
Qed.

Lemma cpaddled_vertical (left right : Paddle.t) (b : Ball.t) :
  Rect.y (Ball.rect (cpaddled left right b)) = Rect.y (Ball.rect b)
  /\ Rect.h (Ball.rect (cpaddled left right b)) = Rect.h (Ball.rect b).
Proof.
  unfold cpaddled.
  destruct (chits_left left b); [split; reflexivity|].
  destruct (chits_right right b); split; reflexivity.
Qed.

Lemma cserved_within (d : Z) (u : R) (b : Ball.t) :
  in_range (Rect.h (Ball.rect b)) -> (Rect.h (Ball.rect b) <= HEIGHT)%Z ->
  (0 <= Rect.y (Ball.rect (cserved d u b)))%Z
  /\ (Rect.y (Ball.rect (cserved d u b)) + Rect.h (Ball.rect (cserved d u b))
      <= HEIGHT)%Z.
Proof.
  unfold in_range, INT_MIN, INT_MAX, HEIGHT; intros Hh Hle.
  unfold cserved, CRect.set_center; cbn [Ball.rect Rect.y Rect.h snd].
  rewrite shiftr_1_div; unfold HEIGHT; change (600 / 2)%Z with 300%Z.
  pose proof (Z.div_mod (Rect.h (Ball.rect b)) 2 ltac:(lia)).
  pose proof (Z.mod_pos_bound (Rect.h (Ball.rect b)) 2 ltac:(lia)).
  rewrite wrap_id by (unfold in_range, INT_MIN, INT_MAX; lia); lia.
Qed.

(** X2.  After every [update] of a ball no taller than the field that
    moves it within the range of a C int, bottom edge included, the ball
    lies between the top and the bottom of the field, whether it bounced,
    scored or just moved. *)
Theorem ball_stays_between_the_walls
        (left right : Paddle.t) (u : R) (b : Ball.t) :
  CRect.valid (Ball.rect b) ->
  (CRect.height (Ball.rect b) <= HEIGHT)%Z ->
  in_range (Rect.x (Ball.rect b) + py_int (Ball.vx b)) ->
  in_range (Rect.y (Ball.rect b) + py_int (Ball.vy b)) ->
  (Rect.y (Ball.rect b) + py_int (Ball.vy b) + Rect.h (Ball.rect b)
   <= INT_MAX)%Z ->
  let b' := exec (CBall.update left right u) b in
  (exists l r : Z, outcome (CBall.update left right u) b = inr (l, r))
  /\ (0 <= Rect.y (Ball.rect b'))%Z
  /\ (Rect.y (Ball.rect b') + Rect.h (Ball.rect b') <= HEIGHT)%Z
  /\ (0 <= CRect.top (Ball.rect b'))%Z
  /\ (CRect.bottom (Ball.rect b') <= HEIGHT)%Z.
Proof.
  intros Hv Hh Hx Hy Hb; cbv zeta; unfold CRect.height in Hh.
  destruct (valid_fields _ Hv) as (_ & _ & _ & Hhr).
  fold (next_x b) in Hx; fold (next_y b) in Hy, Hb.
  unfold outcome, exec; rewrite cupdate_run.
  destruct (cadvanced_outcome left right b) as [[_ ->] | [Hout _]];
    [|apply in_int_true in Hx, Hy; rewrite Hx, Hy in Hout; discriminate].
  set (b1 := cpaddled left right (cwalled (placed (next_x b) (next_y b) b))).
  cbn [fst snd].
  assert (H1 : (0 <= Rect.y (Ball.rect b1))%Z
               /\ (Rect.y (Ball.rect b1) + Rect.h (Ball.rect b1) <= HEIGHT)%Z
               /\ Rect.h (Ball.rect b1) = Rect.h (Ball.rect b)).
  { unfold b1.
    destruct (cpaddled_vertical left right
                (cwalled (placed (next_x b) (next_y b) b))) as [-> ->].
    apply (cwalled_within (placed (next_x b) (next_y b) b)); assumption. }
  destruct H1 as (H0 & H1 & H2).
  assert (Hfinal : (0 <= Rect.y (Ball.rect (snd (cscored u b1))))%Z
                   /\ (Rect.y (Ball.rect (snd (cscored u b1)))
                       + Rect.h (Ball.rect (snd (cscored u b1))) <= HEIGHT)%Z).
  { destruct (cscored_cases u b1)
      as [[_ ->] | [(_ & _ & ->) | (_ & _ & ->)]]; cbn [snd];
      [apply cserved_within | apply cserved_within | auto];
      rewrite H2; assumption. }
  destruct Hfinal as [F0 F1].
  split; [destruct (fst (cscored u b1)) as [l r]; eauto|].
  split; [exact F0 | split; [exact F1 | split; [exact F0|]]].
  unfold CRect.bottom; rewrite wrap_id; [exact F1|].
  unfold in_range, INT_MIN, INT_MAX, HEIGHT in *.
  assert (Hh' : Rect.h (Ball.rect (snd (cscored u b1))) = Rect.h (Ball.rect b)).
  { destruct (cscored_cases u b1)
      as [[_ ->] | [(_ & _ & ->) | (_ & _ & ->)]]; cbn [snd]; exact H2. }
  lia.
Qed.

Lemma on_top_wall_valid : CRect.valid (Ball.rect on_top_wall).
Proof. repeat split. Qed.

Lemma ball_stays_between_the_walls_witness :
  let b' := exec (CBall.update main_left_paddle main_right_paddle 0.5)
                 on_top_wall in
  (exists l r : Z,
      outcome (CBall.update main_left_paddle main_right_paddle 0.5) on_top_wall
      = inr (l, r))
  /\ (0 <= Rect.y (Ball.rect b'))%Z
  /\ (Rect.y (Ball.rect b') + Rect.h (Ball.rect b') <= HEIGHT)%Z
  /\ (0 <= CRect.top (Ball.rect b'))%Z
  /\ (CRect.bottom (Ball.rect b') <= HEIGHT)%Z.
Proof.
  apply (ball_stays_between_the_walls
           main_left_paddle main_right_paddle 0.5 on_top_wall on_top_wall_valid).
  - unfold HEIGHT; cbn; lia.
  - cbn [on_top_wall Ball.rect Ball.vx Rect.x]; rewrite py_int_IZR.
    unfold in_range, INT_MIN, INT_MAX; lia.
  - cbn [on_top_wall Ball.rect Ball.vy Rect.y].
    rewrite py_int_half; unfold in_range, INT_MIN, INT_MAX; lia.
  - cbn [on_top_wall Ball.rect Ball.vy Rect.y Rect.h].
    rewrite py_int_half; unfold INT_MAX; lia.
Defined.

(** X3.  A ball lying on the top wall with less than one pixel per frame of
    vertical velocity stays on the wall and has its vertical velocity
    negated by [update], whichever way it pointed: the truncated step is
    zero, and the test [top <= 0] holds again.  The same happens on the
    bottom wall.  (After the horizontal step, which fits a C int, the ball
    overlaps no paddle and has crossed no goal line.) *)
Theorem slow_ball_sticks_to_the_wall
        (left right : Paddle.t) (u : R) (b : Ball.t) :
  CRect.valid (Ball.rect b) ->
  Rabs (Ball.vy b) < 1 ->
  let x' := (Rect.x (Ball.rect b) + py_int (Ball.vx b))%Z in
  let r' := Rect.mk x' (Rect.y (Ball.rect b))
                    (Rect.w (Ball.rect b)) (Rect.h (Ball.rect b)) in
  in_range x' ->
  CRect.colliderect r' (Paddle.rect left) = false ->
  CRect.colliderect r' (Paddle.rect right) = false ->
  (0 <= CRect.right r')%Z ->
  (CRect.left r' <= WIDTH)%Z ->
  (CRect.top (Ball.rect b) = 0%Z
   \/ (0 < CRect.top (Ball.rect b))%Z
      /\ CRect.bottom (Ball.rect b) = HEIGHT) ->
  CBall.update left right u b
  = (inr (0, 0)%Z, Ball.mk r' (Ball.vx b) (- Ball.vy b) (Ball.speed b)).
Proof.
  intros Hv Hvy x' r' Hx Hl Hr Hg0 Hg1 Hwall.
  destruct (valid_fields _ Hv) as (_ & Hy & _ & _).
  rewrite cupdate_run; unfold cadvanced.
  assert (Enx : next_x b = x') by reflexivity.
  assert (Eny : next_y b = Rect.y (Ball.rect b))
    by (unfold next_y; rewrite (py_int_small _ Hvy); lia).
  rewrite Enx, Eny.
  apply in_int_true in Hx as Hx'; apply in_int_true in Hy as Hy'.
  rewrite Hx', Hy'.
  assert (Hw : cwalled (placed x' (Rect.y (Ball.rect b)) b)
               = Ball.mk r' (Ball.vx b) (- Ball.vy b) (Ball.speed b)).
  { unfold cwalled, placed, CRect.top, CRect.bottom, CRect.set_top,
      CRect.set_bottom, Rect.set_y;
      cbn [Ball.rect Ball.vx Ball.vy Ball.speed Rect.x Rect.y Rect.w Rect.h].
    unfold CRect.top, CRect.bottom in Hwall.
    destruct Hwall as [H0 | [H0 H1]].
    - rewrite H0; cbn [Z.leb Z.compare]; f_equal;
        [unfold r'; rewrite H0; reflexivity | ring].
    - destruct (Rect.y (Ball.rect b) <=? 0)%Z eqn:E;
        [apply Z.leb_le in E; lia|].
      rewrite H1, Z.geb_leb, Z.leb_refl; f_equal; [|ring].
      unfold r'; f_equal.
      destruct (wrap_spec (Rect.y (Ball.rect b) + Rect.h (Ball.rect b)))
        as [k Hk].
      rewrite H1 in Hk.
      replace (HEIGHT - Rect.h (Ball.rect b))%Z
        with (Rect.y (Ball.rect b) + k * 4294967296)%Z by lia.
      rewrite wrap_shift; apply wrap_id, Hy. }
  rewrite Hw.
  unfold cpaddled, chits_left, chits_right; cbn [Ball.rect].
  rewrite Hl, Hr; cbn [andb].
  unfold cscored; cbn [Ball.rect].
  apply Z.ltb_ge in Hg0; rewrite Hg0.
  assert (Hg1' : (CRect.left r' >? WIDTH)%Z = false)
    by (rewrite Z.gtb_ltb; apply Z.ltb_ge, Hg1).
  rewrite Hg1'; reflexivity.
Qed.

Lemma slow_ball_sticks_to_the_wall_witness :
  CBall.update main_left_paddle main_right_paddle 0.5 on_top_wall
  = (inr (0, 0)%Z, Ball.mk (Rect.mk (394 + py_int 6) 0 12 12) 6 (Ropp 0.5) 6)
  /\ CBall.update main_left_paddle main_right_paddle 0.5 on_bottom_wall
     = (inr (0, 0)%Z,
        Ball.mk (Rect.mk (394 + py_int 6) 588 12 12) 6 (Ropp 0.5) 6).
Proof.
  split.
  - apply (slow_ball_sticks_to_the_wall main_left_paddle main_right_paddle 0.5
                                        on_top_wall on_top_wall_valid);
      cbn [on_top_wall Ball.rect Ball.vx Ball.vy Rect.x Rect.y Rect.w Rect.h];
      rewrite ?py_int_IZR.
    + rewrite Rabs_pos_eq; lra.
    + unfold in_range, INT_MIN, INT_MAX; lia.
    + reflexivity.
    + reflexivity.
    + cbn; lia.
    + unfold WIDTH; cbn; lia.
    + left; reflexivity.
  - apply (slow_ball_sticks_to_the_wall main_left_paddle main_right_paddle 0.5
                                        on_bottom_wall);
      cbn [on_bottom_wall Ball.rect Ball.vx Ball.vy Rect.x Rect.y Rect.w Rect.h];
      rewrite ?py_int_IZR.
    + repeat split.
    + rewrite Rabs_pos_eq; lra.
    + unfold in_range, INT_MIN, INT_MAX; lia.
    + reflexivity.
    + reflexivity.
    + cbn; lia.
    + unfold WIDTH; cbn; lia.
    + right; split; [cbn; lia | reflexivity].
Defined.

(** ** AIPaddleController on C ints *)

Lemma cai_update_run (now : Z) (z : R) (ball : Ball.t)
      (a : AIPaddleController.t) (p : Paddle.t) :
  CAIPaddleController.update now z ball (a, p)
  = (fst (cmoved (cpursuit_step (cretargeted now z ball a) p) p),
     (cretargeted now z ball a,
      snd (cmoved (cpursuit_step (cretargeted now z ball a) p) p))).
Proof.
  unfold CAIPaddleController.update, cretargeted, cpursuit_step.
  unfold bind at 1, get at 1; cbn [fst snd].
  destruct (now - AIPaddleController.last_update_time a
            >=? AIPaddleController.update_interval_ms a)%Z.
  - destruct (Rgtb (Ball.vx ball) 0);
      unfold bind, get, AIPaddleController.on_self, AIPaddleController.on_paddle,
        modify; cbn [fst snd]; rewrite cmove_run;
      destruct (cmoved _ p); reflexivity.
  - unfold bind, get, ret, AIPaddleController.on_paddle; cbn [fst snd].
    rewrite cmove_run; destruct (cmoved _ p); reflexivity.
Qed.

Lemma cretargeted_stale (now : Z) (z : R) (ball : Ball.t)
      (a : AIPaddleController.t) :
  (now - AIPaddleController.last_update_time a
   < AIPaddleController.update_interval_ms a)%Z ->
  cretargeted now z ball a = a.
Proof.
  intros H; unfold cretargeted.
  destruct (_ >=? _)%Z eqn:E; [|reflexivity].
  rewrite Z.geb_leb in E; apply Z.leb_le in E; lia.
Qed.

Lemma cretargeted_interval (now : Z) (z : R) (ball : Ball.t)
      (a : AIPaddleController.t) :
  AIPaddleController.update_interval_ms (cretargeted now z ball a)
  = AIPaddleController.update_interval_ms a.
Proof.
  unfold cretargeted.
  destruct (_ >=? _)%Z; [|reflexivity].
  destruct (Rgtb (Ball.vx ball) 0); reflexivity.
Qed.

Lemma cretargeted_time (now : Z) (z : R) (ball : Ball.t)
      (a : AIPaddleController.t) :
  (now - AIPaddleController.last_update_time a
   >= AIPaddleController.update_interval_ms a)%Z ->
  AIPaddleController.last_update_time (cretargeted now z ball a) = now.
Proof.
  intros H; unfold cretargeted.
  destruct (_ >=? _)%Z eqn:E.
  - destruct (Rgtb (Ball.vx ball) 0); reflexivity.
  - rewrite Z.geb_leb in E; apply Z.leb_gt in E; lia.
Qed.

(** The step of a paddle that lies within the field, by a truncated delta of
    at most six pixels, fits a C int: the move is the ideal one. *)
Lemma cmoved_short (dy : R) (p : Paddle.t) :
  within_field p -> (0 <= Rect.h (Paddle.rect p))%Z ->
  (Z.abs (py_int dy) <= AI_PADDLE_SPEED)%Z ->
  cmoved dy p
  = (inr tt,
     Paddle.mk (Rect.mk (Rect.x (Paddle.rect p))
                        (clamped_y (Rect.y (Paddle.rect p) + py_int dy)
                                   (Rect.h (Paddle.rect p)))
                        (Rect.w (Paddle.rect p)) (Rect.h (Paddle.rect p)))
               (Paddle.speed p)).
Proof.
  unfold within_field, Rect.top, Rect.bottom, HEIGHT, AI_PADDLE_SPEED.
  intros [H0 H1] Hh Hk; unfold cmoved.
  assert (Hy : in_range (Rect.y (Paddle.rect p) + py_int dy))
    by (unfold in_range, INT_MIN, INT_MAX; lia).
  apply in_int_true in Hy as Hy'; rewrite Hy'.
  rewrite cclamped_y_ideal;
    [reflexivity | exact Hy | |]; unfold in_range, INT_MIN, INT_MAX; lia.
Qed.

Lemma py_int_5_9 : py_int (305.9 - 300) = 5%Z.
Proof.
  unfold py_int; destruct (Rle_dec 0 (305.9 - 300)); [|lra].
  symmetry; apply Int_part_spec; lra.
Qed.

Lemma limited_step_within_cap (p : Paddle.t) (dy : R) :
  Rabs dy <= IZR (Paddle.speed p) -> AIPaddleController.limited_step p dy = dy.
Proof.
  intros H; unfold AIPaddleController.limited_step, Rgtb.
  apply Rltb_false in H; rewrite H; reflexivity.
Qed.

Lemma limited_step_beyond_cap (p : Paddle.t) (dy : R) :
  IZR (Paddle.speed p) < Rabs dy ->
  AIPaddleController.limited_step p dy
  = if Rgtb dy 0 then IZR AI_PADDLE_SPEED else - IZR AI_PADDLE_SPEED.
Proof.
  intros H; unfold AIPaddleController.limited_step, Rgtb at 1.
  apply Rltb_true in H; rewrite H.
  rewrite opp_IZR; reflexivity.
Qed.

(** C6, as stated, fails: the step is capped by the paddle's own speed, so
    a paddle whose speed cap is 7 moves seven pixels toward a target seven
    pixels away; a paddle above the field is brought back into it by the
    clamp, a thousand pixels in one call; and the paddle moves by [int()]
    of the limited delta, five pixels for a delta of 5.9 that does not
    exceed the cap. *)
Lemma ai_step_can_exceed_the_ai_speed :
  (let s' := exec (CAIPaddleController.update 50 0 mid_field)
                  (aiming_7_below, quick_paddle) in
   within_field quick_paddle
   /\ outcome (CAIPaddleController.update 50 0 mid_field)
              (aiming_7_below, quick_paddle) = inr tt
   /\ Rect.y (Paddle.rect (snd s')) = 257%Z
   /\ (AI_PADDLE_SPEED
       < Z.abs (Rect.y (Paddle.rect (snd s'))
                - Rect.y (Paddle.rect quick_paddle)))%Z)
  /\ (let s' := exec (CAIPaddleController.update 50 0 mid_field)
                     (AIPaddleController.__init__, stray_paddle) in
      (Paddle.speed stray_paddle <= AI_PADDLE_SPEED)%Z
      /\ outcome (CAIPaddleController.update 50 0 mid_field)
                 (AIPaddleController.__init__, stray_paddle) = inr tt
      /\ Rect.y (Paddle.rect (snd s')) = 0%Z
      /\ (AI_PADDLE_SPEED
          < Z.abs (Rect.y (Paddle.rect (snd s'))
                   - Rect.y (Paddle.rect stray_paddle)))%Z)
  /\ (let s' := exec (CAIPaddleController.update 50 0 mid_field)
                     (aiming_5_9_below, main_right_paddle) in
      let dy := AIPaddleController.target_center_y (fst s')
                - IZR (CRect.centery (Paddle.rect main_right_paddle)) in
      dy = 5.9
      /\ Rabs dy <= IZR (Paddle.speed main_right_paddle)
      /\ AIPaddleController.limited_step main_right_paddle dy = dy
      /\ Rect.y (Paddle.rect (snd s'))
         = (Rect.y (Paddle.rect main_right_paddle) + 5)%Z).
Proof.
  split; [|split]; cbv zeta; unfold outcome, exec;
    rewrite cai_update_run; cbn [fst snd];
    rewrite cretargeted_stale by (cbn; lia); unfold cpursuit_step.
  - change (AIPaddleController.target_center_y aiming_7_below) with 307.
    change (CRect.centery (Paddle.rect quick_paddle)) with 300%Z.
    rewrite limited_step_within_cap
      by (change (IZR (Paddle.speed quick_paddle)) with 7;
          rewrite Rabs_pos_eq; lra).
    replace (307 - 300) with (IZR 7) by lra.
    unfold cmoved; rewrite py_int_IZR.
    split; [unfold within_field, HEIGHT; cbn; lia|].
    split; [reflexivity | split; [reflexivity|]].
    unfold AI_PADDLE_SPEED; cbn; lia.
  - change (AIPaddleController.target_center_y AIPaddleController.__init__)
      with (IZR 300).
    change (CRect.centery (Paddle.rect stray_paddle)) with (-950)%Z.
    rewrite limited_step_beyond_cap
      by (change (IZR (Paddle.speed stray_paddle)) with 6;
          rewrite Rabs_pos_eq; lra).
    assert (E : Rgtb (300 - -950) 0 = true)
      by (unfold Rgtb; apply Rltb_true; lra).
    rewrite E; unfold cmoved; rewrite py_int_IZR.
    split; [apply Z.le_refl|].
    split; [reflexivity | split; [reflexivity|]].
    unfold AI_PADDLE_SPEED, stray_paddle; cbn; lia.
  - change (AIPaddleController.target_center_y aiming_5_9_below) with 305.9.
    change (CRect.centery (Paddle.rect main_right_paddle)) with 300%Z.
    assert (Hcap : Rabs (305.9 - 300) <= IZR (Paddle.speed main_right_paddle))
      by (change (IZR (Paddle.speed main_right_paddle)) with 6;
          rewrite Rabs_pos_eq; lra).
    rewrite (limited_step_within_cap _ _ Hcap).
    split; [lra | split; [exact Hcap | split; [reflexivity|]]].
    unfold cmoved; rewrite py_int_5_9; reflexivity.
Qed.

(** C6, amended.  A call of [update] made less than the reaction interval
    after the last recompute leaves the stored target (and the recompute
    time) as they were; in particular the second of two consecutive calls
    does, when the first recomputed and the second comes less than the
    interval later.  The interval of a controller is the 120 ms it is
    created with.  On every call, recompute or not, the limited delta is the
    full delta when its magnitude does not exceed the paddle's speed cap and
    the signed AI speed constant otherwise.  A paddle that lies within the
    field and whose speed cap is at most the AI speed constant (as [main]
    creates it) is moved by [int()] of the limited delta and then clamped:
    the call returns, the paddle ends at that position exactly, and its
    vertical position has changed by at most [AI_PADDLE_SPEED]. *)
Theorem ai_target_is_stale_and_step_is_bounded :
  (forall (now : Z) (z : R) (ball : Ball.t)
          (a : AIPaddleController.t) (p : Paddle.t),
      (now - AIPaddleController.last_update_time a
       < AIPaddleController.update_interval_ms a)%Z ->
      let s' := exec (CAIPaddleController.update now z ball) (a, p) in
      AIPaddleController.target_center_y (fst s')
      = AIPaddleController.target_center_y a
      /\ AIPaddleController.last_update_time (fst s')
         = AIPaddleController.last_update_time a)
  /\ (forall (t1 t2 : Z) (z1 z2 : R) (ball1 ball2 : Ball.t)
             (a : AIPaddleController.t) (p : Paddle.t),
         (t1 - AIPaddleController.last_update_time a
          >= AIPaddleController.update_interval_ms a)%Z ->
         (t2 - t1 < AIPaddleController.update_interval_ms a)%Z ->
         let s1 := exec (CAIPaddleController.update t1 z1 ball1) (a, p) in
         let s2 := exec (CAIPaddleController.update t2 z2 ball2) s1 in
         AIPaddleController.target_center_y (fst s2)
         = AIPaddleController.target_center_y (fst s1))
  /\ (AIPaddleController.update_interval_ms AIPaddleController.__init__ = 120%Z
      /\ forall (now : Z) (z : R) (ball : Ball.t)
                (a : AIPaddleController.t) (p : Paddle.t),
          AIPaddleController.update_interval_ms
            (fst (exec (CAIPaddleController.update now z ball) (a, p)))
          = AIPaddleController.update_interval_ms a)
  /\ (forall (p : Paddle.t) (dy : R),
         (Rabs dy <= IZR (Paddle.speed p) ->
          AIPaddleController.limited_step p dy = dy)
         /\ (IZR (Paddle.speed p) < Rabs dy ->
             AIPaddleController.limited_step p dy
             = if Rgtb dy 0 then IZR AI_PADDLE_SPEED else - IZR AI_PADDLE_SPEED))
  /\ (forall (now : Z) (z : R) (ball : Ball.t)
             (a : AIPaddleController.t) (p : Paddle.t),
         within_field p ->
         (0 <= CRect.height (Paddle.rect p))%Z ->
         (Paddle.speed p <= AI_PADDLE_SPEED)%Z ->
         let s' := exec (CAIPaddleController.update now z ball) (a, p) in
         let dy := AIPaddleController.target_center_y (fst s')
                   - IZR (CRect.centery (Paddle.rect p)) in
         let y1 := (Rect.y (Paddle.rect p)
                    + py_int (AIPaddleController.limited_step p dy))%Z in
         outcome (CAIPaddleController.update now z ball) (a, p) = inr tt
         /\ snd s'
            = Paddle.mk (Rect.mk (Rect.x (Paddle.rect p))
                                 (clamped_y y1 (Rect.h (Paddle.rect p)))
                                 (Rect.w (Paddle.rect p))
                                 (Rect.h (Paddle.rect p)))
                        (Paddle.speed p)
         /\ ((0 <= y1)%Z -> (y1 + Rect.h (Paddle.rect p) <= HEIGHT)%Z ->
             Rect.y (Paddle.rect (snd s')) = y1)
         /\ (Z.abs (Rect.y (Paddle.rect (snd s')) - Rect.y (Paddle.rect p))
             <= AI_PADDLE_SPEED)%Z
         /\ within_field (snd s')).
Proof.
  split; [|split; [|split; [split|split]]].
  - intros now z ball a p Hlt; cbv zeta.
    unfold exec; rewrite cai_update_run; cbn [fst snd].
    rewrite cretargeted_stale by exact Hlt; auto.
  - intros t1 t2 z1 z2 ball1 ball2 a p H1 H2; cbv zeta.
    unfold exec; rewrite cai_update_run; cbn [fst snd].
    rewrite cai_update_run; cbn [fst snd].
    rewrite cretargeted_stale; [reflexivity|].
    rewrite cretargeted_interval, cretargeted_time by exact H1; exact H2.
  - reflexivity.
  - intros now z ball a p.
    unfold exec; rewrite cai_update_run; cbn [fst snd].
    apply cretargeted_interval.
  - intros p dy; split;
      [apply limited_step_within_cap | apply limited_step_beyond_cap].
  - intros now z ball a p Hin Hh Hs; cbv zeta.
    unfold outcome, exec; rewrite cai_update_run; cbn [fst snd].
    fold (cpursuit_step (cretargeted now z ball a) p).
    rewrite (cmoved_short _ p Hin Hh)
      by (apply limited_step_bound, Hs); cbn [fst snd Paddle.rect Rect.y Rect.h].
    destruct Hin as [H0 H1]; unfold Rect.top, Rect.bottom in H0, H1.
    split; [reflexivity | split; [reflexivity | split; [|split]]].
    + apply clamped_y_id.
    + eapply Z.le_trans; [apply clamped_y_step; assumption|].
      apply limited_step_bound, Hs.
    + unfold within_field, Rect.top, Rect.bottom; cbn [Paddle.rect Rect.y Rect.h].
      apply clamped_y_within; lia.
Qed.

Lemma ai_target_is_stale_and_step_is_bounded_witness :
  (let s' := exec (CAIPaddleController.update 50 0 mid_field)
                  (AIPaddleController.__init__, main_right_paddle) in
   AIPaddleController.target_center_y (fst s')
   = AIPaddleController.target_center_y AIPaddleController.__init__
   /\ AIPaddleController.last_update_time (fst s')
      = AIPaddleController.last_update_time AIPaddleController.__init__)
  /\ (let s1 := exec (CAIPaddleController.update 120 0 mid_field)
                     (AIPaddleController.__init__, main_right_paddle) in
      let s2 := exec (CAIPaddleController.update 136 1 mid_field) s1 in
      AIPaddleController.target_center_y (fst s2)
      = AIPaddleController.target_center_y (fst s1))
  /\ AIPaddleController.limited_step main_right_paddle (300 - 300) = 300 - 300
  /\ AIPaddleController.limited_step main_right_paddle (500 - 300)
     = (if Rgtb (500 - 300) 0 then IZR AI_PADDLE_SPEED else - IZR AI_PADDLE_SPEED)
  /\ (let s' := exec (CAIPaddleController.update 50 0 mid_field)
                     (chasing, main_right_paddle) in
      outcome (CAIPaddleController.update 50 0 mid_field)
              (chasing, main_right_paddle) = inr tt
      /\ Rect.y (Paddle.rect (snd s')) = 256%Z
      /\ (Z.abs (Rect.y (Paddle.rect (snd s'))
                 - Rect.y (Paddle.rect main_right_paddle))
          <= AI_PADDLE_SPEED)%Z
      /\ within_field (snd s')).
Proof.
  destruct ai_target_is_stale_and_step_is_bounded
    as (Hstale & Hpair & _ & Hlim & Hstep).
  assert (Hs2 : fst (exec (CAIPaddleController.update 50 0 mid_field)
                          (chasing, main_right_paddle))
                = chasing).
  { unfold exec; rewrite cai_update_run; cbn [fst snd].
    apply cretargeted_stale; reflexivity. }
  assert (Estep : AIPaddleController.limited_step main_right_paddle (500 - 300)
                  = IZR 6).
  { rewrite limited_step_beyond_cap
      by (change (IZR (Paddle.speed main_right_paddle)) with 6;
          rewrite Rabs_pos_eq; lra).
    assert (E : Rgtb (500 - 300) 0 = true)
      by (unfold Rgtb; apply Rltb_true; lra).
    rewrite E; reflexivity. }
  split; [|split; [|split; [|split]]].
  - apply (Hstale 50%Z 0 mid_field AIPaddleController.__init__ main_right_paddle).
    reflexivity.
  - apply (Hpair 120%Z 136%Z 0 1 mid_field mid_field
                 AIPaddleController.__init__ main_right_paddle);
      cbn; [discriminate | reflexivity].
  - apply (Hlim main_right_paddle (300 - 300)).
    change (IZR (Paddle.speed main_right_paddle)) with 6.
    rewrite Rabs_pos_eq; lra.
  - apply (Hlim main_right_paddle (500 - 300)).
    change (IZR (Paddle.speed main_right_paddle)) with 6.
    rewrite Rabs_pos_eq; lra.
  - destruct (Hstep 50%Z 0 mid_field chasing main_right_paddle)
      as (Hout & _ & Hkeep & Hbound & Hwithin).
    + unfold within_field, HEIGHT; cbn; lia.
    + cbn; lia.
    + cbn; discriminate.
    + cbv zeta; split; [exact Hout | split; [|split; assumption]].
      rewrite Hs2 in Hkeep.
      change (AIPaddleController.target_center_y chasing) with 500 in Hkeep.
      change (CRect.centery (Paddle.rect main_right_paddle)) with 300%Z in Hkeep.
      rewrite Estep, py_int_IZR in Hkeep.
      apply Hkeep; unfold HEIGHT; cbn; lia.
Defined.

(** ** The clamp on C ints *)

Lemma cclamped_y_id (y h : Z) :
  in_range y -> in_range h ->
  (0 <= y)%Z -> (y + h <= HEIGHT)%Z -> cclamped_y y h = y.
Proof.
  intros Hy Hh H0 H1.
  rewrite cclamped_y_ideal; [apply clamped_y_id; assumption | | |];
    try assumption.
  unfold INT_MAX, HEIGHT in *; lia.
Qed.

Lemma clamped_y_in_range (y h : Z) :
  in_range y -> in_range h -> in_range (clamped_y y h).
Proof.
  unfold in_range, INT_MIN, INT_MAX, clamped_y, HEIGHT; intros Hy Hh.
  destruct (y <? 0)%Z eqn:E1;
    [apply Z.ltb_lt in E1 | apply Z.ltb_ge in E1];
    destruct (_ >? 600)%Z eqn:E2; rewrite Z.gtb_ltb in E2;
    (apply Z.ltb_lt in E2 || apply Z.ltb_ge in E2); lia.
Qed.

(** X12.  On a paddle with C-int coordinates, [clamp_to_screen] and
    [move(0)] leave a paddle that is within the field as it is; clamping a
    paddle no taller than the field whose bottom edge fits a C int twice is
    clamping it once; and a step that fits a C int, bottom edge included,
    and would take such a paddle past an edge of the field leaves it flush
    with that edge. *)
Theorem clamp_is_idempotent_and_saturates (dy : R) (p : Paddle.t) :
  CRect.valid (Paddle.rect p) ->
  let y1 := (Rect.y (Paddle.rect p) + py_int dy)%Z in
  (within_field p ->
   exec CPaddle.clamp_to_screen p = p /\ CPaddle.move 0 p = (inr tt, p))
  /\ ((CRect.height (Paddle.rect p) <= HEIGHT)%Z ->
      (Rect.y (Paddle.rect p) + Rect.h (Paddle.rect p) <= INT_MAX)%Z ->
      exec CPaddle.clamp_to_screen (exec CPaddle.clamp_to_screen p)
      = exec CPaddle.clamp_to_screen p)
  /\ ((CRect.height (Paddle.rect p) <= HEIGHT)%Z ->
      in_range y1 -> (y1 + Rect.h (Paddle.rect p) <= INT_MAX)%Z ->
      ((y1 < 0)%Z ->
       CRect.top (Paddle.rect (exec (CPaddle.move dy) p)) = 0%Z)
      /\ ((y1 + Rect.h (Paddle.rect p) > HEIGHT)%Z ->
          CRect.bottom (Paddle.rect (exec (CPaddle.move dy) p)) = HEIGHT)).
Proof.
  intros Hv; cbv zeta.
  destruct (valid_fields _ Hv) as (_ & Hy & _ & Hh).
  unfold CRect.height.
  split; [|split].
  - intros [H0 H1]; unfold Rect.top, Rect.bottom in H0, H1.
    assert (Hc : cclamped p = p).
    { unfold cclamped; rewrite cclamped_y_id by assumption.
      destruct p as [[x y w h] s]; reflexivity. }
    split; [unfold exec; rewrite cclamp_run; exact Hc|].
    rewrite cmove_run; unfold cmoved.
    replace 0 with (IZR 0) by reflexivity; rewrite py_int_IZR, Z.add_0_r.
    apply in_int_true in Hy as Hy'; rewrite Hy'.
    fold (cclamped p); rewrite Hc; reflexivity.
  - intros Hle Hb; unfold exec; rewrite !cclamp_run; cbn [snd].
    unfold cclamped; cbn [Paddle.rect Paddle.speed Rect.x Rect.y Rect.w Rect.h].
    rewrite (cclamped_y_ideal _ _ Hy Hh Hb).
    destruct (clamped_y_within (Rect.y (Paddle.rect p)) (Rect.h (Paddle.rect p))
                               Hle) as [C0 C1].
    rewrite cclamped_y_id; [reflexivity | | exact Hh | exact C0 | exact C1].
    apply clamped_y_in_range; assumption.
  - intros Hle Hy1 Hb1.
    unfold exec; rewrite (cmove_in_range dy p Hv Hy1 Hb1); cbn [snd].
    unfold moved, moved_y, CRect.top, CRect.bottom;
      cbn [Paddle.rect Rect.y Rect.h].
    destruct (clamped_y_within (Rect.y (Paddle.rect p) + py_int dy)
                               (Rect.h (Paddle.rect p)) Hle) as [C0 C1].
    split; intros Hedge.
    + unfold clamped_y.
      destruct (_ <? 0)%Z eqn:E1; [|apply Z.ltb_ge in E1; lia].
      destruct (0 + _ >? HEIGHT)%Z eqn:E2; [|reflexivity].
      rewrite Z.gtb_ltb in E2; apply Z.ltb_lt in E2; lia.
    + rewrite wrap_id
        by (unfold in_range, INT_MIN, INT_MAX, HEIGHT in *; lia).
      unfold clamped_y.
      destruct (_ <? 0)%Z eqn:E1;
        [apply Z.ltb_lt in E1 | apply Z.ltb_ge in E1].
      * destruct (0 + _ >? HEIGHT)%Z eqn:E2; [lia|].
        rewrite Z.gtb_ltb in E2; apply Z.ltb_ge in E2.
        unfold in_range, INT_MIN in *; lia.
      * destruct (_ >? HEIGHT)%Z eqn:E2; [lia|].
        rewrite Z.gtb_ltb in E2; apply Z.ltb_ge in E2; lia.
Qed.

Lemma clamp_is_idempotent_and_saturates_witness :
  (exec CPaddle.clamp_to_screen main_left_paddle = main_left_paddle
   /\ CPaddle.move 0 main_left_paddle = (inr tt, main_left_paddle))
  /\ exec CPaddle.clamp_to_screen (exec CPaddle.clamp_to_screen main_left_paddle)
     = exec CPaddle.clamp_to_screen main_left_paddle
  /\ CRect.top (Paddle.rect (exec (CPaddle.move (-300)) main_left_paddle)) = 0%Z
  /\ CRect.bottom (Paddle.rect (exec (CPaddle.move 300) main_left_paddle))
     = HEIGHT.
Proof.
  destruct (clamp_is_idempotent_and_saturates 0 main_left_paddle
                                              main_left_paddle_valid)
    as (Hid & Htwice & _).
  destruct (clamp_is_idempotent_and_saturates (-300) main_left_paddle
                                              main_left_paddle_valid)
    as (_ & _ & Hup).
  destruct (clamp_is_idempotent_and_saturates 300 main_left_paddle
                                              main_left_paddle_valid)
    as (_ & _ & Hdown).
  cbn [main_left_paddle Paddle.rect Rect.y Rect.h] in Hup, Hdown.
  rewrite py_int_IZR in Hup, Hdown.
  split; [|split; [|split]].
  - apply Hid; unfold within_field, HEIGHT; cbn; lia.
  - apply Htwice; [unfold HEIGHT; cbn; lia | unfold INT_MAX; cbn; lia].
  - destruct Hup as [Hup _];
      [unfold HEIGHT; cbn; lia | unfold in_range, INT_MIN, INT_MAX; lia
       | unfold INT_MAX; lia | apply Hup; lia].
  - destruct Hdown as [_ Hdown];
      [unfold HEIGHT; cbn; lia | unfold in_range, INT_MIN, INT_MAX; lia
       | unfold INT_MAX; lia | apply Hdown; unfold HEIGHT; lia].
Defined.

(** ** The two levels agree far from the ends of the range *)

Ltac range_lia :=
  unfold roomy, modest, in_range, INT_MIN, INT_MAX, HEIGHT, WIDTH,
    Rect.set_x, Rect.set_y in *;
  cbn [Ball.rect Rect.x Rect.y Rect.w Rect.h] in *; lia.

Lemma half_bound (z : Z) : (Z.abs (Z.shiftr z 1) <= Z.abs z)%Z.
Proof.
  rewrite shiftr_1_div.
  pose proof (Z.div_mod z 2 ltac:(lia)).
  pose proof (Z.mod_pos_bound z 2 ltac:(lia)); lia.
Qed.

Lemma modest_roomy (r : Rect.t) : modest r -> roomy r.
Proof. range_lia. Qed.

Lemma roomy_right (r : Rect.t) : roomy r -> CRect.right r = Rect.right r.
Proof.
  intros H; unfold CRect.right, Rect.right; apply wrap_id; range_lia.
Qed.

Lemma roomy_bottom (r : Rect.t) : roomy r -> CRect.bottom r = Rect.bottom r.
Proof.
  intros H; unfold CRect.bottom, Rect.bottom; apply wrap_id; range_lia.
Qed.

Lemma roomy_centerx (r : Rect.t) : roomy r -> CRect.centerx r = Rect.centerx r.
Proof.
  intros H; unfold CRect.centerx, Rect.centerx; apply wrap_id.
  pose proof (half_bound (Rect.w r)); range_lia.
Qed.

Lemma roomy_centery (r : Rect.t) : roomy r -> CRect.centery r = Rect.centery r.
Proof.
  intros H; unfold CRect.centery, Rect.centery; apply wrap_id.
  pose proof (half_bound (Rect.h r)); range_lia.
Qed.

Lemma roomy_colliderect (a b : Rect.t) :
  roomy a -> roomy b -> CRect.colliderect a b = Rect.colliderect a b.
Proof.
  intros Ha Hb; unfold CRect.colliderect, Rect.colliderect.
  rewrite (roomy_right a Ha), (roomy_right b Hb),
    (roomy_bottom a Ha), (roomy_bottom b Hb); reflexivity.
Qed.

Lemma roomy_set_right (v : Z) (r : Rect.t) :
  roomy r -> (Z.abs v <= 536870912)%Z ->
  CRect.set_right v r = Rect.set_right v r.
Proof.
  intros H Hv; unfold CRect.set_right, Rect.set_right.
  rewrite wrap_id by range_lia; reflexivity.
Qed.

Lemma roomy_set_bottom (v : Z) (r : Rect.t) :
  roomy r -> (Z.abs v <= 536870912)%Z ->
  CRect.set_bottom v r = Rect.set_bottom v r.
Proof.
  intros H Hv; unfold CRect.set_bottom, Rect.set_bottom.
  rewrite wrap_id by range_lia; reflexivity.
Qed.

Lemma roomy_set_center (cx cy : Z) (r : Rect.t) :
  roomy r -> (Z.abs cx <= 536870912)%Z -> (Z.abs cy <= 536870912)%Z ->
  CRect.set_center (cx, cy) r = Rect.set_center (cx, cy) r.
Proof.
  intros H Hx Hy; unfold CRect.set_center, Rect.set_center; cbn [fst snd].
  pose proof (half_bound (Rect.w r)); pose proof (half_bound (Rect.h r)).
  rewrite !wrap_id by range_lia; reflexivity.
Qed.

Lemma cserved_ideal (d : Z) (u : R) (b : Ball.t) :
  roomy (Ball.rect b) -> cserved d u b = served d u b.
Proof.
  intros H; unfold cserved, served.
  rewrite roomy_set_center;
    [reflexivity | exact H | |]; unfold WIDTH, HEIGHT; cbn; lia.
Qed.

Lemma cwalled_ideal (b : Ball.t) :
  roomy (Ball.rect b) ->
  cwalled b = walled b /\ roomy (Ball.rect (walled b)).
Proof.
  intros H; unfold cwalled, walled, CRect.top, Rect.top.
  rewrite (roomy_bottom _ H).
  unfold CRect.set_top, Rect.set_top.
  rewrite (roomy_set_bottom HEIGHT _ H) by (unfold HEIGHT; lia).
  split; [reflexivity|].
  destruct (_ <=? 0)%Z; [range_lia|].
  destruct (_ >=? HEIGHT)%Z; [|exact H].
  unfold Rect.set_bottom, Rect.set_y; range_lia.
Qed.

Lemma cflush_ideal (paddle : Paddle.t) (is_right : bool) (r : Rect.t) :
  roomy r -> modest (Paddle.rect paddle) ->
  cflush paddle is_right r = flush paddle is_right r
  /\ roomy (flush paddle is_right r).
Proof.
  intros H Hp; unfold cflush, flush, CRect.left, Rect.left.
  rewrite (roomy_right _ (modest_roomy _ Hp)).
  unfold CRect.set_left, Rect.set_left.
  destruct is_right.
  - rewrite roomy_set_right by range_lia.
    split; [reflexivity|].
    unfold Rect.set_right, Rect.set_x; range_lia.
  - split; [reflexivity|].
    unfold Rect.right, Rect.set_x; range_lia.
Qed.

Lemma cbounced_ideal (paddle : Paddle.t) (is_right : bool) (b : Ball.t) :
  roomy (Ball.rect b) -> modest (Paddle.rect paddle) ->
  cbounced paddle is_right b = bounced paddle is_right b
  /\ roomy (Ball.rect (bounced paddle is_right b)).
Proof.
  intros H Hp.
  destruct (cflush_ideal paddle is_right (Ball.rect b) H Hp) as [Ef Hf].
  unfold cbounced, bounced, cimpact_offset, impact_offset, CRect.height,
    Rect.height; cbv zeta.
  rewrite Ef, (roomy_centery _ Hf), (roomy_centery _ (modest_roomy _ Hp)).
  split; [reflexivity | exact Hf].
Qed.

Lemma cpaddled_ideal (left right : Paddle.t) (b : Ball.t) :
  roomy (Ball.rect b) ->
  modest (Paddle.rect left) -> modest (Paddle.rect right) ->
  cpaddled left right b = paddled left right b
  /\ roomy (Ball.rect (paddled left right b)).
Proof.
  intros H Hl Hr.
  unfold cpaddled, paddled, chits_left, chits_right, hits_left, hits_right.
  rewrite (roomy_colliderect _ _ H (modest_roomy _ Hl)),
    (roomy_colliderect _ _ H (modest_roomy _ Hr)).
  destruct (_ && _); [apply cbounced_ideal; assumption|].
  destruct (_ && _); [apply cbounced_ideal; assumption|].
  split; [reflexivity | exact H].
Qed.

Lemma cscored_ideal (u : R) (b : Ball.t) :
  roomy (Ball.rect b) -> cscored u b = scored u b.
Proof.
  intros H; unfold cscored, scored, CRect.left, Rect.left.
  rewrite (roomy_right _ H), !(cserved_ideal _ _ _ H); reflexivity.
Qed.

(** On a ball and paddles far from the ends of the range of a C int,
    [update] on C ints is [update] on ideal integers. *)
Lemma cupdate_ideal (left right : Paddle.t) (u : R) (b : Ball.t) :
  modest (Ball.rect b) ->
  modest (Paddle.rect left) -> modest (Paddle.rect right) ->
  (Z.abs (py_int (Ball.vx b)) <= 268435456)%Z ->
  (Z.abs (py_int (Ball.vy b)) <= 268435456)%Z ->
  CBall.update left right u b = Ball.update left right u b.
Proof.
  intros Hb Hl Hr Hvx Hvy.
  rewrite cupdate_run, update_run; unfold cadvanced, advanced.
  assert (Hx : in_int (next_x b) = true)
    by (apply in_int_true; unfold next_x; range_lia).
  assert (Hy : in_int (next_y b) = true)
    by (apply in_int_true; unfold next_y; range_lia).
  rewrite Hx, Hy.
  assert (Es : placed (next_x b) (next_y b) b = stepped b) by reflexivity.
  rewrite Es.
  assert (Hs : roomy (Ball.rect (stepped b)))
    by (unfold stepped; cbn [Ball.rect]; range_lia).
  destruct (cwalled_ideal _ Hs) as [-> Hw].
  destruct (cpaddled_ideal left right _ Hw Hl Hr) as [-> Hp].
  rewrite (cscored_ideal _ _ Hp); reflexivity.
Qed.

(** So is the controller's [update], for a paddle that lies within the
    field and is no quicker than the AI speed constant. *)
Lemma cai_update_ideal (now : Z) (z : R) (ball : Ball.t)
      (a : AIPaddleController.t) (p : Paddle.t) :
  roomy (Ball.rect ball) ->
  within_field p -> (0 <= Rect.h (Paddle.rect p))%Z ->
  (Paddle.speed p <= AI_PADDLE_SPEED)%Z ->
  CAIPaddleController.update now z ball (a, p)
  = AIPaddleController.update now z ball (a, p).
Proof.
  intros Hb Hin Hh Hs.
  rewrite cai_update_run, ai_update_run.
  assert (Ea : cretargeted now z ball a = retargeted now z ball a).
  { unfold cretargeted, retargeted, CAIPaddleController.aim_sigma,
      AIPaddleController.aim_sigma.
    rewrite (roomy_centery _ Hb), (roomy_centerx _ Hb); reflexivity. }
  assert (Ec : CRect.centery (Paddle.rect p) = Rect.centery (Paddle.rect p)).
  { unfold CRect.centery, Rect.centery; apply wrap_id.
    destruct Hin as [H0 H1]; unfold Rect.top, Rect.bottom in H0, H1.
    pose proof (half_bound (Rect.h (Paddle.rect p))); range_lia. }
  unfold cpursuit_step; rewrite Ea, Ec.
  fold (pursuit_step (retargeted now z ball a) p).
  rewrite (cmoved_short _ p Hin Hh)
    by (unfold pursuit_step; apply limited_step_bound, Hs).
  reflexivity.
Qed.
